(** * Round lifecycle of the Target Word game

    A shallow embedding of [src/socket/handler.js] (the socket event
    handlers of the multiplayer Target Word game) together with
    [src/game/state.js] (the state module it drives).

    Modelling conventions.
    - The Node.js event loop runs one handler at a time up to its next
      [await]; every [await] in the handlers is on an axios request.  A
      handler that reaches an [await] is recorded as a pending [Task]; a later
      [Settle] event delivers the outcome of the request and runs the
      continuation up to the next [await] or to the end.  Any pending request
      may settle at any time, in any order.
    - Everything the server sends is recorded in an output list: [io.emit] as
      [ToAll], [socket.emit] as [ToSocket], axios requests as [Http].  Console
      output is not recorded.
    - A JavaScript object used as a dictionary is an association list in
      insertion order, which is the order of [Object.keys] and
      [Object.values] for keys that are not array indices (socket ids are
      not).
    - A JavaScript string is a string of 8-bit code units.
    - A JavaScript number is an extended rational with [NaN]; the only
      operations the handlers apply to numbers are [>] and [typeof], for
      which this is exact.  The text produced by [toFixed(4)] is kept
      symbolic.
    - [Math.floor(Math.random() * n)] is an input of the event that consumes
      it. *)

From Stdlib Require Import String Ascii List Bool Arith PeanoNat Lia QArith.
Import ListNotations.
Local Open Scope string_scope.
Local Open Scope list_scope.
Local Open Scope nat_scope.

(** ** JavaScript values used by the handlers *)

Inductive Num : Type :=
| NaN
| NegInfinity
| Finite (q : Q)
| Infinity.

(** [a > b] on JavaScript numbers. *)
Definition num_gtb (a b : Num) : bool :=
  match a, b with
  | NaN, _ => false
  | _, NaN => false
  | NegInfinity, _ => false
  | _, Infinity => false
  | Infinity, _ => true
  | Finite _, NegInfinity => true
  | Finite x, Finite y => negb (Qle_bool x y)
  end.

(** [a >= b] on JavaScript numbers. *)
Definition num_geb (a b : Num) : bool :=
  match a, b with
  | NaN, _ => false
  | _, NaN => false
  | Infinity, _ => true
  | _, NegInfinity => true
  | NegInfinity, _ => false
  | _, Infinity => false
  | Finite x, Finite y => Qle_bool y x
  end.

Definition Vector := list Num.

(** Truthiness of a string: the empty string is falsy. *)
Definition truthy_string (s : string) : bool :=
  negb (String.eqb s EmptyString).

(** Truthiness of a value that is [null] or a string. *)
Definition truthy (o : option string) : bool :=
  match o with
  | Some s => truthy_string s
  | None => false
  end.

(** The one-character string holding a double quote. *)
Definition double_quote : string := String (ascii_of_nat 34) EmptyString.

(** White space removed by [String.prototype.trim], for code units below
    256. *)
Definition is_white_space (c : ascii) : bool :=
  let n := nat_of_ascii c in
  ((9 <=? n) && (n <=? 13)) || (n =? 32) || (n =? 160).

Fixpoint all_white_space (s : string) : bool :=
  match s with
  | EmptyString => true
  | String c rest => is_white_space c && all_white_space rest
  end.

(** [expression.trim().length === 0] *)
Definition trim_is_empty (s : string) : bool := all_white_space s.

(** [s.trimStart()] *)
Fixpoint trim_start (s : string) : string :=
  match s with
  | EmptyString => EmptyString
  | String c rest => if is_white_space c then trim_start rest else s
  end.

(** [s.trimEnd()] *)
Fixpoint trim_end (s : string) : string :=
  match s with
  | EmptyString => EmptyString
  | String c rest =>
      match trim_end rest with
      | EmptyString => if is_white_space c then EmptyString else String c EmptyString
      | String c' rest' => String c (String c' rest')
      end
  end.

(** [s.trim()] *)
Definition trim (s : string) : string := trim_end (trim_start s).

(** An argument of a setter of state.js: [null], a value of the type the
    setter accepts, or a value of another type. *)
Inductive Arg (A : Type) : Type :=
| Null
| Val (a : A)
| Other.

Arguments Null {A}.
Arguments Val {A} a.
Arguments Other {A}.

(** ** Objects used as dictionaries *)

Section JsObject.
Context {V : Type}.

Definition Obj := list (string * V).

(** [o[k]] *)
Fixpoint obj_get (o : Obj) (k : string) : option V :=
  match o with
  | [] => None
  | (k', v) :: rest => if String.eqb k' k then Some v else obj_get rest k
  end.

(** [o[k] = v]: an existing key keeps its place, a new key goes last. *)
Fixpoint obj_set (o : Obj) (k : string) (v : V) : Obj :=
  match o with
  | [] => [(k, v)]
  | (k', v') :: rest =>
      if String.eqb k' k then (k', v) :: rest else (k', v') :: obj_set rest k v
  end.

(** [delete o[k]] *)
Fixpoint obj_delete (o : Obj) (k : string) : Obj :=
  match o with
  | [] => []
  | (k', v') :: rest =>
      if String.eqb k' k then rest else (k', v') :: obj_delete rest k
  end.

(** [Object.keys(o)] *)
Definition obj_keys (o : Obj) : list string := map fst o.

(** [Object.values(o)] *)
Definition obj_values (o : Obj) : list V := map snd o.

End JsObject.

Arguments Obj : clear implicits.

(** ** Data of the game *)

Definition SocketId := string.

Inductive Role : Type :=
| Player1
| Player2
| Spectator.

Definition role_eqb (a b : Role) : bool :=
  match a, b with
  | Player1, Player1 => true
  | Player2, Player2 => true
  | Spectator, Spectator => true
  | _, _ => false
  end.

(** The role as the string the code stores. *)
Definition role_name (r : Role) : string :=
  match r with
  | Player1 => "Player 1"
  | Player2 => "Player 2"
  | Spectator => "Spectator"
  end.

(** An entry of [_playerSockets]: [{ id, role }]. *)
Record PlayerInfo : Type := mkPlayerInfo {
  pi_id : SocketId;
  pi_role : Role
}.

(** An entry of [playerSubmissions]: [{ expression, score }].  [score] is
    [None] when the stored value is not of type number. *)
Record Submission : Type := mkSubmission {
  expression : string;
  score : option Num
}.

(** [JSON.parse(JSON.stringify(x))] on a number: [NaN] and the infinities
    are written as [null]. *)
Definition json_number (x : Num) : option Num :=
  match x with
  | Finite q => Some (Finite q)
  | _ => None
  end.

(** [JSON.parse(JSON.stringify(sub))] on a submission. *)
Definition json_copy (sub : Submission) : Submission :=
  mkSubmission (expression sub)
    (match score sub with
     | Some x => json_number x
     | None => None
     end).

(** [JSON.parse(JSON.stringify(subs))] on the whole dictionary. *)
Definition json_copy_all (subs : Obj Submission) : Obj Submission :=
  map (fun kv => (fst kv, json_copy (snd kv))) subs.

(** ** src/game/state.js *)

Module State.

Record t : Type := mk {
  _targetWord : option string;
  _targetVector : option Vector;
  _playerSubmissions : Obj Submission;
  _player1 : option SocketId;
  _player2 : option SocketId;
  _currentPlayer : option SocketId;
  _gameActive : bool;
  _playerSockets : Obj PlayerInfo
}.

Definition resetState (s : t) : t :=
  {| _targetWord := None;
     _targetVector := None;
     _playerSubmissions := [];
     _player1 := None;
     _player2 := None;
     _currentPlayer := None;
     _gameActive := false;
     _playerSockets := [] |}.

Definition getPlayer1 (s : t) : option SocketId := _player1 s.
Definition getPlayer2 (s : t) : option SocketId := _player2 s.
Definition isGameActive (s : t) : bool := _gameActive s.
Definition getPlayerSocketInfo (s : t) (id : SocketId) : option PlayerInfo :=
  obj_get (_playerSockets s) id.
Definition getAllPlayerSockets (s : t) : Obj PlayerInfo := _playerSockets s.

Definition setPlayer1 (id : option SocketId) (s : t) : t :=
  {| _targetWord := _targetWord s;
     _targetVector := _targetVector s;
     _playerSubmissions := _playerSubmissions s;
     _player1 := id;
     _player2 := _player2 s;
     _currentPlayer := _currentPlayer s;
     _gameActive := _gameActive s;
     _playerSockets := _playerSockets s |}.

Definition setPlayer2 (id : option SocketId) (s : t) : t :=
  {| _targetWord := _targetWord s;
     _targetVector := _targetVector s;
     _playerSubmissions := _playerSubmissions s;
     _player1 := _player1 s;
     _player2 := id;
     _currentPlayer := _currentPlayer s;
     _gameActive := _gameActive s;
     _playerSockets := _playerSockets s |}.

Definition setGameActive (isActive : bool) (s : t) : t :=
  {| _targetWord := _targetWord s;
     _targetVector := _targetVector s;
     _playerSubmissions := _playerSubmissions s;
     _player1 := _player1 s;
     _player2 := _player2 s;
     _currentPlayer := _currentPlayer s;
     _gameActive := isActive;
     _playerSockets := _playerSockets s |}.

Definition with_playerSockets (m : Obj PlayerInfo) (s : t) : t :=
  {| _targetWord := _targetWord s;
     _targetVector := _targetVector s;
     _playerSubmissions := _playerSubmissions s;
     _player1 := _player1 s;
     _player2 := _player2 s;
     _currentPlayer := _currentPlayer s;
     _gameActive := _gameActive s;
     _playerSockets := m |}.

(** [if (id && role) _playerSockets[id] = { id, role }]; a role is always a
    non-empty string. *)
Definition addPlayerSocket (id : SocketId) (role : Role) (s : t) : t :=
  if truthy_string id
  then with_playerSockets (obj_set (_playerSockets s) id (mkPlayerInfo id role)) s
  else s.

Definition removePlayerSocket (id : SocketId) (s : t) : t :=
  match obj_get (_playerSockets s) id with
  | Some _ => with_playerSockets (obj_delete (_playerSockets s) id) s
  | None => s
  end.

(** The functions below are exported by state.js and not called by
    handler.js. *)

Definition getTargetWord (s : t) : option string := _targetWord s.
Definition getTargetVector (s : t) : option Vector := _targetVector s.
Definition getCurrentPlayer (s : t) : option SocketId := _currentPlayer s.

Definition getPlayerSubmissions (s : t) : Obj Submission :=
  json_copy_all (_playerSubmissions s).

Definition getPlayerSubmission (s : t) (id : SocketId) : option Submission :=
  match obj_get (_playerSubmissions s) id with
  | Some sub => Some (json_copy sub)
  | None => None
  end.

Definition getFullState (s : t) : t :=
  {| _targetWord := _targetWord s;
     _targetVector := _targetVector s;
     _playerSubmissions := json_copy_all (_playerSubmissions s);
     _player1 := _player1 s;
     _player2 := _player2 s;
     _currentPlayer := _currentPlayer s;
     _gameActive := _gameActive s;
     _playerSockets := _playerSockets s |}.

Definition with_targetWord (x : option string) (s : t) : t :=
  {| _targetWord := x;
     _targetVector := _targetVector s;
     _playerSubmissions := _playerSubmissions s;
     _player1 := _player1 s;
     _player2 := _player2 s;
     _currentPlayer := _currentPlayer s;
     _gameActive := _gameActive s;
     _playerSockets := _playerSockets s |}.

Definition with_targetVector (x : option Vector) (s : t) : t :=
  {| _targetWord := _targetWord s;
     _targetVector := x;
     _playerSubmissions := _playerSubmissions s;
     _player1 := _player1 s;
     _player2 := _player2 s;
     _currentPlayer := _currentPlayer s;
     _gameActive := _gameActive s;
     _playerSockets := _playerSockets s |}.

Definition with_playerSubmissions (x : Obj Submission) (s : t) : t :=
  {| _targetWord := _targetWord s;
     _targetVector := _targetVector s;
     _playerSubmissions := x;
     _player1 := _player1 s;
     _player2 := _player2 s;
     _currentPlayer := _currentPlayer s;
     _gameActive := _gameActive s;
     _playerSockets := _playerSockets s |}.

(** [typeof word === 'string' || word === null], then
    [_targetWord = word ? word.trim() : null]. *)
Definition setTargetWord (word : Arg string) (s : t) : t :=
  match word with
  | Val w => with_targetWord (if truthy_string w then Some (trim w) else None) s
  | Null => with_targetWord None s
  | Other => s
  end.

(** [Array.isArray(vector) || vector === null], then
    [_targetVector = vector ? [...vector] : null]; an array is truthy. *)
Definition setTargetVector (vector : Arg Vector) (s : t) : t :=
  match vector with
  | Val v => with_targetVector (Some v) s
  | Null => with_targetVector None s
  | Other => s
  end.

(** [id && submission && typeof submission === 'object'], then the copy of
    the submission is stored. *)
Definition setPlayerSubmission (id : SocketId) (submission : Arg Submission)
    (s : t) : t :=
  match submission with
  | Val sub =>
      if truthy_string id
      then with_playerSubmissions
             (obj_set (_playerSubmissions s) id (json_copy sub)) s
      else s
  | _ => s
  end.

Definition clearPlayerSubmissions (s : t) : t := with_playerSubmissions [] s.

Definition setCurrentPlayer (id : option SocketId) (s : t) : t :=
  {| _targetWord := _targetWord s;
     _targetVector := _targetVector s;
     _playerSubmissions := _playerSubmissions s;
     _player1 := _player1 s;
     _player2 := _player2 s;
     _currentPlayer := id;
     _gameActive := _gameActive s;
     _playerSockets := _playerSockets s |}.

End State.

(** ** Messages, requests and pending continuations *)

(** The score column of a results row: [sub.score.toFixed(4)] or ["N/A"]. *)
Inductive ScoreText : Type :=
| ToFixed4 (x : Num)
| NotAvailable.

(** A row of the [results] array of [game_over]. *)
Record ResultRow : Type := mkResultRow {
  row_role : string;
  row_expression : string;
  row_score : ScoreText
}.

(** Events sent to clients, with their payloads.  The [targetWord] of
    [game_over] is [None] when the payload has no such field. *)
Inductive Msg : Type :=
| error_message (text : string)
| assign_role (role : Role)
| waiting_for_player
| spectator_info (status : string) (info : option (option string * Obj Submission))
| game_start (targetWord : option string) (players : list PlayerInfo)
| game_over (reason : string) (results : list ResultRow)
    (targetWord : option (option string))
| player_left (text : string)
| player_submitted (role : Role) (expression : string)
| game_reset (message : string).

(** Requests to the Python service. *)
Inductive Request : Type :=
| GetWords
| GetEmbedding (word : option string)
| CalculateVector (expression : string)
| CompareToTarget (target_word : option string) (calculated_vector : Vector).

Inductive Output : Type :=
| ToAll (m : Msg)
| ToSocket (id : SocketId) (m : Msg)
| Http (r : Request).

(** The fields of [response.data] the handlers read.  A field is [None] when
    it is missing or fails the test the handler applies to it
    ([Array.isArray] with positive length for [words], truthiness for
    [vector] and [error], [typeof ... === 'number'] for [similarity]). *)
Record ResponseData : Type := mkResponseData {
  words : option (list string);
  vector : option Vector;
  similarity : option Num;
  error : option string
}.

(** How an axios promise settles.  [Fulfilled None] is a response whose
    [data] is falsy.  [Rejected e m] carries [error.response?.data?.error]
    ([None] when it is missing or falsy) and [error.message]. *)
Inductive AxiosResult : Type :=
| Fulfilled (data : option ResponseData)
| Rejected (response_error : option string) (message : string).

(** A handler suspended on an [await], with the local variables its
    continuation uses. *)
Inductive Task : Type :=
| Await_setup_fetchWordList
| Await_startGame_fetchWordList
| Await_startGame_getEmbedding
| Await_submit_calculateVector
    (playerId : SocketId) (playerInfo : PlayerInfo) (expr : string)
| Await_submit_compareToTarget
    (playerId : SocketId) (playerInfo : PlayerInfo) (expr : string)
    (calculatedVector : Vector).

(** ** src/socket/handler.js *)

Definition MAX_PLAYERS : nat := 2.

(** The module state of state.js, the variables of the closure of
    [setupSocketHandlers], and the suspended handlers. *)
Record World : Type := mkWorld {
  state : State.t;
  targetWord : option string;
  targetVector : option Vector;
  playerSubmissions : Obj Submission;
  wordList : list string;
  pending : list Task
}.

Definition with_state (f : State.t -> State.t) (w : World) : World :=
  mkWorld (f (state w)) (targetWord w) (targetVector w)
    (playerSubmissions w) (wordList w) (pending w).

Definition with_targetWord (x : option string) (w : World) : World :=
  mkWorld (state w) x (targetVector w) (playerSubmissions w) (wordList w)
    (pending w).

Definition with_targetVector (x : option Vector) (w : World) : World :=
  mkWorld (state w) (targetWord w) x (playerSubmissions w) (wordList w)
    (pending w).

Definition with_playerSubmissions (x : Obj Submission) (w : World) : World :=
  mkWorld (state w) (targetWord w) (targetVector w) x (wordList w) (pending w).

Definition with_wordList (x : list string) (w : World) : World :=
  mkWorld (state w) (targetWord w) (targetVector w) (playerSubmissions w) x
    (pending w).

Definition with_pending (x : list Task) (w : World) : World :=
  mkWorld (state w) (targetWord w) (targetVector w) (playerSubmissions w)
    (wordList w) x.

(** A handler fragment: it reads and updates the world and appends to the
    output. *)
Definition M (A : Type) : Type := World -> A * World * list Output.

Definition ret {A : Type} (a : A) : M A := fun w => (a, w, []).

Definition bind {A B : Type} (c : M A) (k : A -> M B) : M B :=
  fun w =>
    let '(a, w1, o1) := c w in
    let '(b, w2, o2) := k a w1 in
    (b, w2, o1 ++ o2).

Declare Scope handler_scope.
Delimit Scope handler_scope with handler.
Notation "x <- c ;; k" := (bind c (fun x => k))
  (at level 61, c at next level, right associativity) : handler_scope.
Notation "c ;; k" := (bind c (fun _ => k))
  (at level 61, right associativity) : handler_scope.
Local Open Scope handler_scope.

Definition read {A : Type} (f : World -> A) : M A := fun w => (f w, w, []).
Definition update (f : World -> World) : M unit := fun w => (tt, f w, []).
Definition out (o : Output) : M unit := fun w => (tt, w, [o]).

(** [io.emit], [socket.emit], an axios call, and suspension on its promise. *)
Definition io_emit (m : Msg) : M unit := out (ToAll m).
Definition socket_emit (id : SocketId) (m : Msg) : M unit := out (ToSocket id m).
Definition axios (r : Request) : M unit := out (Http r).
Definition await (t : Task) : M unit :=
  update (fun w => with_pending (pending w ++ [t]) w).

Definition exec (c : M unit) (w : World) : World * list Output :=
  let '(_, w', o) := c w in (w', o).

(** [Object.values(players).filter(p => p.role !== 'Spectator')] *)
Definition slot_holders (players : Obj PlayerInfo) : list PlayerInfo :=
  filter (fun p => negb (role_eqb (pi_role p) Spectator)) (obj_values players).

(** [fetchWordList], from the request to the [await]. *)
Definition fetchWordList_request : M unit := axios GetWords.

(** [fetchWordList], after [await axios.get]. *)
Definition fetchWordList_resume (r : AxiosResult) : M unit :=
  match r with
  | Fulfilled (Some d) =>
      match words d with
      | Some (x :: xs) => update (with_wordList (x :: xs))
      | _ => update (with_wordList [])
      end
  | Fulfilled None => update (with_wordList [])
  | Rejected _ _ => update (with_wordList [])
  end.

(** [startGame], from the second test of the word list to
    [await axios.post(.../get-embedding)].  [pick] is
    [Math.floor(Math.random() * wordList.length)]. *)
Definition startGame_chooseTarget (pick : nat) : M unit :=
  wl <- read wordList ;;
  match wl with
  | [] =>
      io_emit (error_message "Server error: Could not load word list to start game.") ;;
      update (with_state (State.setGameActive false))
  | _ :: _ =>
      update (with_targetWord (Some (nth (pick mod length wl) wl EmptyString))) ;;
      tw <- read targetWord ;;
      axios (GetEmbedding tw) ;;
      await Await_startGame_getEmbedding
  end.

(** [startGame], up to its first [await]. *)
Definition startGame (pick : nat) : M unit :=
  update (with_state (State.setGameActive true)) ;;
  update (with_playerSubmissions []) ;;
  wl <- read wordList ;;
  match wl with
  | [] => fetchWordList_request ;; await Await_startGame_fetchWordList
  | _ :: _ => startGame_chooseTarget pick
  end.

(** [startGame], after [await fetchWordList()]. *)
Definition startGame_resume_fetchWordList (r : AxiosResult) (pick : nat) : M unit :=
  fetchWordList_resume r ;;
  startGame_chooseTarget pick.

(** [startGame], after [await axios.post(.../get-embedding)].  The catch
    block builds its message after it has set [targetWord] to [null]. *)
Definition startGame_resume_getEmbedding (r : AxiosResult) : M unit :=
  let failed : M unit :=
    update (with_targetWord None) ;;
    update (with_targetVector None) ;;
    update (with_state (State.setGameActive false)) ;;
    io_emit (error_message
      ("Server error starting game: Could not get embedding for target word "
         ++ double_quote ++ "null" ++ double_quote ++ ".")%string)
  in
  match r with
  | Fulfilled (Some d) =>
      match vector d with
      | Some v =>
          update (with_targetVector (Some v)) ;;
          players <- read (fun w => State.getAllPlayerSockets (state w)) ;;
          tw <- read targetWord ;;
          io_emit (game_start tw (slot_holders players))
      | None => failed
      end
  | Fulfilled None => failed
  | Rejected _ _ => failed
  end.

(** The body of the [forEach] of [endGame]: one step of the loop over
    [Object.keys(playerSubmissions)], on the loop variables
    [(winnerId, bestScore, results)]. *)
Definition endGame_visit (st : State.t) (subs : Obj Submission)
    (acc : option SocketId * Num * list ResultRow) (id : SocketId)
  : option SocketId * Num * list ResultRow :=
  let '(winnerId, bestScore, results) := acc in
  let sub := obj_get subs id in
  let playerInfo := State.getPlayerSocketInfo st id in
  let role :=
    match playerInfo with
    | Some p => role_name (pi_role p)
    | None => ("Player (" ++ substring 0 4 id ++ ")")%string
    end in
  match sub with
  | Some (mkSubmission e (Some x)) =>
      let results' := results ++ [mkResultRow role e (ToFixed4 x)] in
      if num_gtb x bestScore
      then (Some id, x, results')
      else (winnerId, bestScore, results')
  | Some (mkSubmission e None) =>
      (winnerId, bestScore,
       results ++ [mkResultRow role
                     (if truthy_string e then e else "(No submission)")
                     NotAvailable])
  | None =>
      (winnerId, bestScore,
       results ++ [mkResultRow role "(No submission)" NotAvailable])
  end.

(** The loop of [endGame] from its initial variables. *)
Definition endGame_tally (st : State.t) (subs : Obj Submission)
  : option SocketId * Num * list ResultRow :=
  fold_left (endGame_visit st subs) (obj_keys subs) (None, NegInfinity, []).

(** [winnerId ? state.getPlayerSocketInfo(winnerId) : null] and the reason
    text built from it. *)
Definition endGame_winnerMsg (st : State.t) (winnerId : option SocketId) : string :=
  let winnerInfo :=
    match winnerId with
    | Some id => if truthy_string id then State.getPlayerSocketInfo st id else None
    | None => None
    end in
  match winnerInfo with
  | Some p => (role_name (pi_role p) ++ " wins!")%string
  | None => "It's a tie or no valid scores!"
  end.

Definition endGame : M unit :=
  active <- read (fun w => State.isGameActive (state w)) ;;
  if negb active then ret tt else
  update (with_state (State.setGameActive false)) ;;
  subs <- read playerSubmissions ;;
  tv <- read targetVector ;;
  match tv with
  | None =>
      io_emit (game_over "Error determining winner: Missing target vector." [] None)
  | Some _ =>
      st <- read state ;;
      let '(winnerId, _, results) := endGame_tally st subs in
      tw <- read targetWord ;;
      io_emit (game_over (endGame_winnerMsg st winnerId) results (Some tw)) ;;
      update (with_targetWord None) ;;
      update (with_targetVector None) ;;
      update (with_playerSubmissions [])
  end.

(** The connection handler, "Player Joining Logic": the first free slot while
    fewer than [MAX_PLAYERS] participants hold one, else spectator.  The
    result is [assignedRole]. *)
Definition connection_assignRole (id : SocketId) : M Role :=
  players <- read (fun w => State.getAllPlayerSockets (state w)) ;;
  let playerCount := length (slot_holders players) in
  p1 <- read (fun w => State.getPlayer1 (state w)) ;;
  p2 <- read (fun w => State.getPlayer2 (state w)) ;;
  if (playerCount <? MAX_PLAYERS) && negb (truthy p1) then
    update (with_state (State.setPlayer1 (Some id))) ;;
    update (with_state (State.addPlayerSocket id Player1)) ;;
    ret Player1
  else if (playerCount <? MAX_PLAYERS) && negb (truthy p2) then
    update (with_state (State.setPlayer2 (Some id))) ;;
    update (with_state (State.addPlayerSocket id Player2)) ;;
    ret Player2
  else
    update (with_state (State.addPlayerSocket id Spectator)) ;;
    ret Spectator.

(** The connection handler, "Check if game can start now". *)
Definition connection_checkStart (id : SocketId) (assignedRole : Role)
    (pick : nat) : M unit :=
  players <- read (fun w => State.getAllPlayerSockets (state w)) ;;
  let playerCount := length (slot_holders players) in
  active <- read (fun w => State.isGameActive (state w)) ;;
  if (playerCount =? MAX_PLAYERS) && negb active then
    startGame pick
  else if (playerCount <? MAX_PLAYERS) && negb (role_eqb assignedRole Spectator) then
    socket_emit id waiting_for_player
  else if role_eqb assignedRole Spectator then
    if active then
      tw <- read targetWord ;;
      subs <- read playerSubmissions ;;
      socket_emit id (spectator_info "Game in progress." (Some (tw, subs)))
    else
      socket_emit id (spectator_info "Waiting for players..." None)
  else ret tt.

(** [io.on('connection', ...)] for a socket whose id is [id], up to the
    registration of the socket's listeners. *)
Definition on_connection (id : SocketId) (pick : nat) : M unit :=
  assignedRole <- connection_assignRole id ;;
  socket_emit id (assign_role assignedRole) ;;
  connection_checkStart id assignedRole pick.

(** [socket.on('disconnect', ...)] *)
Definition on_disconnect (connectedSocketId : SocketId) : M unit :=
  playerInfo <- read (fun w => State.getPlayerSocketInfo (state w) connectedSocketId) ;;
  wasActiveGame <- read (fun w => State.isGameActive (state w)) ;;
  match playerInfo with
  | Some p =>
      (if role_eqb (pi_role p) Player1
       then update (with_state (State.setPlayer1 None)) else ret tt) ;;
      (if role_eqb (pi_role p) Player2
       then update (with_state (State.setPlayer2 None)) else ret tt) ;;
      update (with_state (State.removePlayerSocket connectedSocketId)) ;;
      if negb (role_eqb (pi_role p) Spectator) && wasActiveGame then
        io_emit (player_left (role_name (pi_role p) ++ " disconnected. Game over.")%string) ;;
        endGame
      else ret tt
  | None => ret tt
  end.

(** The five validations of [socket.on('submit_expression', ...)], in the
    order of the code.  The payload is [None] when it is not a string.
    The result is the text of the error, or the validated player entry and
    expression. *)
Definition submit_validate (w : World) (playerId : SocketId)
    (payload : option string) : string + PlayerInfo * string :=
  let playerInfo := State.getPlayerSocketInfo (state w) playerId in
  if negb (State.isGameActive (state w)) then inl "Game is not active." else
  match playerInfo with
  | None => inl "Spectators cannot submit."
  | Some p =>
      if role_eqb (pi_role p) Spectator then inl "Spectators cannot submit." else
      match obj_get (playerSubmissions w) playerId with
      | Some _ => inl "You have already submitted for this round."
      | None =>
          match payload with
          | None => inl "Invalid expression submitted."
          | Some e =>
              if negb (truthy_string e) || trim_is_empty e
              then inl "Invalid expression submitted."
              else
                match targetVector w with
                | None => inl "Cannot submit: Target word not set correctly."
                | Some _ => inr (p, e)
                end
          end
      end
  end.

(** [socket.on('submit_expression', ...)], up to
    [await axios.post(.../calculate-vector)]. *)
Definition on_submit_expression (playerId : SocketId) (payload : option string)
  : M unit :=
  v <- read (fun w => submit_validate w playerId payload) ;;
  match v with
  | inl text => socket_emit playerId (error_message text)
  | inr (p, e) =>
      axios (CalculateVector e) ;;
      await (Await_submit_calculateVector playerId p e)
  end.

(** [error.response?.data?.error || error.message] in a catch block, for an
    error thrown by the handler itself on a fulfilled response or for a
    rejected request. *)
Definition caught_text (r : AxiosResult) (invalid : string) : string :=
  match r with
  | Fulfilled (Some d) =>
      match error d with
      | Some e => e
      | None => invalid
      end
  | Fulfilled None => invalid
  | Rejected (Some e) _ => e
  | Rejected None m => m
  end.

(** The submit handler after [await axios.post(.../calculate-vector)], up to
    [await axios.post(.../compare-to-target)]. *)
Definition submit_resume_calculateVector (playerId : SocketId)
    (playerInfo : PlayerInfo) (expr : string) (r : AxiosResult) : M unit :=
  let failed : M unit :=
    socket_emit playerId (error_message
      ("Server error calculating your expression: "
         ++ caught_text r "Invalid response from /calculate-vector")%string) in
  match r with
  | Fulfilled (Some d) =>
      match vector d with
      | Some calculatedVector =>
          tw <- read targetWord ;;
          axios (CompareToTarget tw calculatedVector) ;;
          await (Await_submit_compareToTarget playerId playerInfo expr calculatedVector)
      | None => failed
      end
  | _ => failed
  end.

(** Steps 4 to 6 of the submit handler: store, notify, and test whether all
    players have submitted. *)
Definition submit_store (playerId : SocketId) (playerInfo : PlayerInfo)
    (expr : string) (similarityScore : Num) : M unit :=
  update (fun w => with_playerSubmissions
    (obj_set (playerSubmissions w) playerId (mkSubmission expr (Some similarityScore))) w) ;;
  io_emit (player_submitted (pi_role playerInfo) expr) ;;
  currentPlayers <- read (fun w => slot_holders (State.getAllPlayerSockets (state w))) ;;
  subs <- read playerSubmissions ;;
  if length (obj_keys subs) =? length currentPlayers then endGame else ret tt.

(** The submit handler after [await axios.post(.../compare-to-target)]. *)
Definition submit_resume_compareToTarget (playerId : SocketId)
    (playerInfo : PlayerInfo) (expr : string) (r : AxiosResult) : M unit :=
  let failed : M unit :=
    socket_emit playerId (error_message
      ("Server error comparing your result: "
         ++ caught_text r "Invalid response from /compare-to-target")%string) in
  match r with
  | Fulfilled (Some d) =>
      match similarity d with
      | Some similarityScore => submit_store playerId playerInfo expr similarityScore
      | None => failed
      end
  | _ => failed
  end.

(** [socket.on('force_reset', ...)] *)
Definition on_force_reset (connectedSocketId : SocketId) : M unit :=
  update (with_state State.resetState) ;;
  update (with_targetWord None) ;;
  update (with_targetVector None) ;;
  update (with_playerSubmissions []) ;;
  io_emit (game_reset ("Game manually reset by " ++ connectedSocketId
                         ++ ". Waiting for players...")%string).

(** ** The event loop *)

Inductive Event : Type :=
| Connect (id : SocketId) (pick : nat)
| Disconnect (id : SocketId)
| SubmitExpression (id : SocketId) (payload : option string)
| ForceReset (id : SocketId)
| Settle (k : nat) (r : AxiosResult) (pick : nat).

(** The continuation of a suspended handler. *)
Definition resume (t : Task) (r : AxiosResult) (pick : nat) : M unit :=
  match t with
  | Await_setup_fetchWordList => fetchWordList_resume r
  | Await_startGame_fetchWordList => startGame_resume_fetchWordList r pick
  | Await_startGame_getEmbedding => startGame_resume_getEmbedding r
  | Await_submit_calculateVector playerId playerInfo expr =>
      submit_resume_calculateVector playerId playerInfo expr r
  | Await_submit_compareToTarget playerId playerInfo expr _ =>
      submit_resume_compareToTarget playerId playerInfo expr r
  end.

(** Removal of the [k]-th element. *)
Fixpoint remove_nth {A : Type} (k : nat) (l : list A) : list A :=
  match k, l with
  | _, [] => []
  | 0, _ :: rest => rest
  | S k', x :: rest => x :: remove_nth k' rest
  end.

(** The [k]-th pending request settles with [r]; nothing happens when there
    is no such request. *)
Definition on_settle (k : nat) (r : AxiosResult) (pick : nat) : M unit :=
  ts <- read pending ;;
  match nth_error ts k with
  | Some t =>
      update (with_pending (remove_nth k ts)) ;;
      resume t r pick
  | None => ret tt
  end.

Definition handle (e : Event) : M unit :=
  match e with
  | Connect id pick => on_connection id pick
  | Disconnect id => on_disconnect id
  | SubmitExpression id payload => on_submit_expression id payload
  | ForceReset id => on_force_reset id
  | Settle k r pick => on_settle k r pick
  end.

Definition step (w : World) (e : Event) : World * list Output :=
  exec (handle e) w.

(** The world and the output after a sequence of events. *)
Fixpoint run (w : World) (es : list Event) : World * list Output :=
  match es with
  | [] => (w, [])
  | e :: rest =>
      let '(w1, o1) := step w e in
      let '(w2, o2) := run w1 rest in
      (w2, o1 ++ o2)
  end.

(** [setupSocketHandlers]: the state is reset, the closure variables are
    initialised, and the first [fetchWordList()] is in flight. *)
Definition initial : World :=
  mkWorld (State.resetState (State.mk None None [] None None None false []))
    None None [] [] [Await_setup_fetchWordList].

Definition setup_output : list Output := [Http GetWords].

(** ** src/game/engine.js *)

(** The synchronous functions of engine.js.  [submitWord] and
    [cosineSimilarity] compute with floating-point vectors from the
    embedding service and are not part of this development. *)

Module Engine.

(** engine.js calls [state.getCurrentWord()] and [state.getHistory()].
    state.js defines and exports neither, so each of these calls throws a
    [TypeError]; a function of engine.js that reaches one completes by that
    exception, after the changes it has made to the state before. *)
Inductive Thrown : Type :=
| TypeError (message : string).

Inductive Completion (A : Type) : Type :=
| Returns (a : A)
| Throws (e : Thrown).

Arguments Returns {A} a.
Arguments Throws {A} e.

(** What a call of one of the two missing functions evaluates to: nothing. *)
Inductive Missing : Type := .

Definition state_getCurrentWord : Completion Missing :=
  Throws (TypeError "state.getCurrentWord is not a function").

Definition state_getHistory : Completion Missing :=
  Throws (TypeError "state.getHistory is not a function").

(** The [initialState] object; [nextPlayer] is [None] where the object has
    no such field. *)
Record InitialState : Type := mkInitialState {
  currentWord : Missing;
  nextPlayer : option string;
  history : Missing
}.

(** The result is [None] for [{ gameStarted: false }].  In the other branch
    the object literal is evaluated field by field, and its first call
    throws. *)
Definition _startGameIfReady (s : State.t)
  : Completion (option InitialState) * State.t :=
  if truthy (State.getPlayer1 s) && truthy (State.getPlayer2 s)
     && negb (State.isGameActive s)
  then
    let s1 := State.setGameActive true s in
    let s2 := State.setCurrentPlayer (State.getPlayer1 s1) s1 in
    let p1Role :=
      match State.getPlayer1 s2 with
      | Some id =>
          match State.getPlayerSocketInfo s2 id with
          | Some p => role_name (pi_role p)
          | None => "Player 1"
          end
      | None => "Player 1"
      end in
    (match state_getCurrentWord with
     | Throws e => Throws e
     | Returns word =>
         match state_getHistory with
         | Throws e => Throws e
         | Returns hist =>
             Returns (Some (mkInitialState word (Some p1Role) hist))
         end
     end,
     s2)
  else (Returns None, s).

Definition _endGame (s : State.t) : State.t :=
  State.setCurrentPlayer None (State.setGameActive false s).

Record AddResult : Type := mkAddResult {
  role : Role;
  gameStarted : bool;
  initialState : option InitialState
}.

Definition addPlayer (socketId : SocketId) (s : State.t)
  : Completion AddResult * State.t :=
  let '(assignedRole, s1) :=
    if negb (truthy (State.getPlayer1 s)) then
      (Player1,
       State.addPlayerSocket socketId Player1 (State.setPlayer1 (Some socketId) s))
    else if negb (truthy (State.getPlayer2 s)) then
      (Player2,
       State.addPlayerSocket socketId Player2 (State.setPlayer2 (Some socketId) s))
    else
      (Spectator, State.addPlayerSocket socketId Spectator s) in
  let '(gameStartResult, s2) := _startGameIfReady s1 in
  (match gameStartResult with
   | Throws e => Throws e
   | Returns started =>
       Returns (mkAddResult assignedRole
                  (match started with Some _ => true | None => false end)
                  started)
   end,
   s2).

(** [socketId === x] for [x] a string or [null]. *)
Definition same_socket (socketId : SocketId) (x : option SocketId) : bool :=
  match x with
  | Some id => String.eqb socketId id
  | None => false
  end.

Record RemoveResult : Type := mkRemoveResult {
  playerLeftRole : option Role;
  gameEnded : bool;
  reason : option string
}.

Definition removePlayer (socketId : SocketId) (s : State.t)
  : RemoveResult * State.t :=
  let playerInfo := State.getPlayerSocketInfo s socketId in
  let wasActiveGame := State.isGameActive s in
  match playerInfo with
  | Some p =>
      if negb (role_eqb (pi_role p) Spectator) then
        let s1 :=
          if same_socket socketId (State.getPlayer1 s) then State.setPlayer1 None s
          else if same_socket socketId (State.getPlayer2 s) then State.setPlayer2 None s
          else s in
        let s2 := if wasActiveGame then _endGame s1 else s1 in
        (mkRemoveResult (Some (pi_role p)) wasActiveGame
           (if wasActiveGame
            then Some (role_name (pi_role p) ++ " disconnected.")%string
            else None),
         State.removePlayerSocket socketId s2)
      else
        (mkRemoveResult None false None, State.removePlayerSocket socketId s)
  | None => (mkRemoveResult None false None, State.removePlayerSocket socketId s)
  end.

Record ResetResult : Type := mkResetResult {
  gameReset : bool;
  resetReason : string;
  resetInitialState : InitialState
}.

(** [reason] is [None] when the argument is omitted.  The state is reset
    before the result object is built. *)
Definition resetGame (reason : option string) (s : State.t)
  : Completion ResetResult * State.t :=
  let s1 := State.resetState s in
  (match state_getCurrentWord with
   | Throws e => Throws e
   | Returns word =>
       match state_getHistory with
       | Throws e => Throws e
       | Returns hist =>
           Returns (mkResetResult true
                      (match reason with Some r => r | None => "Game was reset." end)
                      (mkInitialState word None hist))
       end
   end,
   s1).

End Engine.

(** ** Vocabulary of the statements *)

Arguments endGame_tally : simpl never.
Arguments endGame_winnerMsg : simpl never.
Arguments endGame : simpl never.

(** The state module after the clean-up of the disconnect handler for a
    socket whose table entry is [p]. *)
Definition vacate (p : PlayerInfo) (id : SocketId) (s : State.t) : State.t :=
  let s1 := if role_eqb (pi_role p) Player1 then State.setPlayer1 None s else s in
  let s2 := if role_eqb (pi_role p) Player2 then State.setPlayer2 None s1 else s1 in
  State.removePlayerSocket id s2.

(** The world [endGame] leaves when it reaches its last line. *)
Definition round_cleared (w : World) : World :=
  with_playerSubmissions []
    (with_targetVector None
       (with_targetWord None (with_state (State.setGameActive false) w))).

(** The numeric score stored under [id], if any. *)
Definition score_of (subs : Obj Submission) (id : SocketId) : option Num :=
  match obj_get subs id with
  | Some sub => score sub
  | None => None
  end.

(** [winner] is the arg-max of the stored scores, the first one in the order
    of [Object.keys] among equal maxima: its score is above [-Infinity],
    every key before it has a score that is not [>=] its score, and no key
    after it has a score [>] its score.  There is no winner exactly when no
    stored score is above [-Infinity]. *)
Definition first_maximum (subs : Obj Submission) (winner : option SocketId) : Prop :=
  match winner with
  | Some id =>
      exists before after x,
        obj_keys subs = before ++ id :: after /\
        score_of subs id = Some x /\
        num_gtb x NegInfinity = true /\
        (forall i y, In i before -> score_of subs i = Some y -> num_geb y x = false) /\
        (forall i y, In i after -> score_of subs i = Some y -> num_gtb y x = false)
  | None =>
      forall i y, In i (obj_keys subs) -> score_of subs i = Some y ->
                  num_gtb y NegInfinity = false
  end.

(** The results row the loop of [endGame] pushes for [id]. *)
Definition row_of (st : State.t) (subs : Obj Submission) (id : SocketId) : ResultRow :=
  let role :=
    match State.getPlayerSocketInfo st id with
    | Some p => role_name (pi_role p)
    | None => ("Player (" ++ substring 0 4 id ++ ")")%string
    end in
  match obj_get subs id with
  | Some (mkSubmission e (Some x)) => mkResultRow role e (ToFixed4 x)
  | Some (mkSubmission e None) =>
      mkResultRow role (if truthy_string e then e else "(No submission)") NotAvailable
  | None => mkResultRow role "(No submission)" NotAvailable
  end.

(** What the loop variables of [endGame] satisfy once the keys [done] have
    been visited. *)
Definition tally_inv (subs : Obj Submission) (done : list SocketId) (winnerId : option SocketId)
    (bestScore : Num) : Prop :=
  (forall i y, In i done -> score_of subs i = Some y -> num_gtb y bestScore = false) /\
  match winnerId with
  | Some id =>
      exists before after,
        done = before ++ id :: after /\
        score_of subs id = Some bestScore /\
        num_gtb bestScore NegInfinity = true /\
        (forall i y, In i before -> score_of subs i = Some y ->
                     num_geb y bestScore = false) /\
        (forall i y, In i after -> score_of subs i = Some y ->
                     num_gtb y bestScore = false)
  | None => bestScore = NegInfinity
  end.

(** A [game_over] broadcast. *)
Definition is_game_over (o : Output) : bool :=
  match o with
  | ToAll (game_over _ _ _) => true
  | _ => false
  end.

(** A request to the Python service. *)
Definition is_http (o : Output) : bool :=
  match o with
  | Http _ => true
  | _ => false
  end.

(** The vector of a response the handlers accept as a vector response. *)
Definition fulfilled_vector (r : AxiosResult) : option Vector :=
  match r with
  | Fulfilled (Some d) => vector d
  | _ => None
  end.

(** The similarity of a response the submit handler accepts. *)
Definition fulfilled_similarity (r : AxiosResult) : option Num :=
  match r with
  | Fulfilled (Some d) => similarity d
  | _ => None
  end.

(** The word list [fetchWordList] stores for a response. *)
Definition fetched_words (r : AxiosResult) : list string :=
  match r with
  | Fulfilled (Some d) =>
      match words d with
      | Some ws => ws
      | None => []
      end
  | _ => []
  end.

(** A [startGame] call is suspended on one of its two requests. *)
Definition is_startGame_task (t : Task) : bool :=
  match t with
  | Await_startGame_fetchWordList => true
  | Await_startGame_getEmbedding => true
  | _ => false
  end.

Definition startGame_suspended (w : World) : bool :=
  existsb is_startGame_task (pending w).

(** The number of participants holding a slot role. *)
Definition slot_count (w : World) : nat :=
  length (slot_holders (State.getAllPlayerSockets (state w))).

(** The role the connection handler assigns in [w]. *)
Definition assigned_role (w : World) : Role :=
  if (slot_count w <? MAX_PLAYERS) && negb (truthy (State.getPlayer1 (state w)))
  then Player1
  else if (slot_count w <? MAX_PLAYERS) && negb (truthy (State.getPlayer2 (state w)))
  then Player2
  else Spectator.

(** The state module after the connection handler has recorded [id] with
    [role]. *)
Definition seat (id : SocketId) (role : Role) (s : State.t) : State.t :=
  match role with
  | Player1 => State.addPlayerSocket id Player1 (State.setPlayer1 (Some id) s)
  | Player2 => State.addPlayerSocket id Player2 (State.setPlayer2 (Some id) s)
  | Spectator => State.addPlayerSocket id Spectator s
  end.

(** What holds of the round in every world the server can be in: when the
    active flag is set, the target word is present unless a [startGame] call
    is waiting for the word list, and the target vector is present unless a
    [startGame] call is waiting for one of its requests. *)
Definition round_consistent (w : World) : Prop :=
  State.isGameActive (state w) = true ->
  (targetWord w <> None \/ In Await_startGame_fetchWordList (pending w)) /\
  (targetVector w <> None \/ startGame_suspended w = true).

(** [w'] has the round of [w]: if its flag is set, the flag was set in [w],
    the target is the same and every suspended [startGame] call of [w] is
    still suspended. *)
Definition carries_round (w w' : World) : Prop :=
  State.isGameActive (state w') = true ->
  State.isGameActive (state w) = true /\
  targetWord w' = targetWord w /\
  targetVector w' = targetVector w /\
  (forall t, is_startGame_task t = true -> In t (pending w) -> In t (pending w')).

(** Every stored submission has a score of type number. *)
Definition all_scored (subs : Obj Submission) : Prop :=
  Forall (fun kv => score (snd kv) <> None) subs.

(** The role table and the two slot variables agree: keys are distinct and
    non-empty, and an entry with a slot role is keyed by the id the slot
    variable holds. *)
Definition slots_agree (s : State.t) : Prop :=
  NoDup (obj_keys (State.getAllPlayerSockets s)) /\
  ~ In EmptyString (obj_keys (State.getAllPlayerSockets s)) /\
  forall id p,
    In (id, p) (State.getAllPlayerSockets s) ->
    (pi_role p = Player1 -> State.getPlayer1 s = Some id) /\
    (pi_role p = Player2 -> State.getPlayer2 s = Some id).

(** The entries of the role table with role [r]. *)
Definition with_role (r : Role) (players : Obj PlayerInfo) : list PlayerInfo :=
  filter (fun p => role_eqb (pi_role p) r) (obj_values players).

(** The argument that passes a stored target word back to its setter. *)
Definition arg_of_word (o : option string) : Arg string :=
  match o with
  | Some w => Val w
  | None => Null
  end.

(** A suspended submit handler carries a slot holder's entry and an
    expression that is neither empty nor blank. *)
Definition submit_task_valid (t : Task) : Prop :=
  match t with
  | Await_submit_calculateVector _ p e
  | Await_submit_compareToTarget _ p e _ =>
      pi_role p <> Spectator /\ truthy_string e = true /\ trim_is_empty e = false
  | _ => True
  end.

(** A [player_submitted] broadcast names a slot role and carries an
    expression that is neither empty nor blank; other outputs are not
    constrained. *)
Definition submitted_notice_valid (o : Output) : Prop :=
  match o with
  | ToAll (player_submitted r e) =>
      r <> Spectator /\ truthy_string e = true /\ trim_is_empty e = false
  | _ => True
  end.

(** Every stored submission has an expression that is neither empty nor
    blank. *)
Definition all_expressed (subs : Obj Submission) : Prop :=
  Forall (fun kv => truthy_string (expression (snd kv)) = true /\
                    trim_is_empty (expression (snd kv)) = false) subs.

(** The fresh state of state.js. *)
Definition fresh_state : State.t :=
  State.mk None None [] None None None false [].

(** Two states of state.js have the same role table and slot variables. *)
Definition same_seats (s s' : State.t) : Prop :=
  State.getAllPlayerSockets s' = State.getAllPlayerSockets s /\
  State.getPlayer1 s' = State.getPlayer1 s /\
  State.getPlayer2 s' = State.getPlayer2 s.

(** While the active flag is set, both slot variables hold a socket id. *)
Definition seated_when_active (w : World) : Prop :=
  State.isGameActive (state w) = true ->
  truthy (State.getPlayer1 (state w)) = true /\
  truthy (State.getPlayer2 (state w)) = true.


(** The transport gives every connection a new, non-empty id: each
    [Connect] of the sequence carries an id that is not empty and not in the
    role table at that point. *)
Fixpoint connects_fresh (w : World) (es : list Event) : Prop :=
  match es with
  | [] => True
  | e :: rest =>
      match e with
      | Connect id _ =>
          id <> EmptyString /\
          State.getPlayerSocketInfo (state w) id = None
      | _ => True
      end /\
      connects_fresh (fst (step w e)) rest
  end.

(** The slot variables and the role table describe the same seating: they
    agree, and a slot variable that holds an id has that id's entry, with
    the role of the slot, in the table. *)
Definition slots_exact (s : State.t) : Prop :=
  slots_agree s /\
  (forall a, State.getPlayer1 s = Some a ->
             State.getPlayerSocketInfo s a = Some (mkPlayerInfo a Player1)) /\
  (forall b, State.getPlayer2 s = Some b ->
             State.getPlayerSocketInfo s b = Some (mkPlayerInfo b Player2)).

(** A [startGame] call is suspended on its word-list request. *)
Definition is_startGame_fetch (t : Task) : bool :=
  match t with
  | Await_startGame_fetchWordList => true
  | _ => false
  end.

Definition startGame_fetching (w : World) : bool :=
  existsb is_startGame_fetch (pending w).

(** The property names every object inherits from [Object.prototype].  For
    such a key [o[k]] finds the inherited value when [o] has no own
    property [k], and an assignment to [__proto__] replaces the prototype
    instead of adding a property; [obj_get] and [obj_set] describe [o[k]]
    and [o[k] = v] for all other keys. *)
Definition Object_prototype_keys : list string :=
  ["constructor"; "__defineGetter__"; "__defineSetter__"; "hasOwnProperty";
   "__lookupGetter__"; "__lookupSetter__"; "isPrototypeOf";
   "propertyIsEnumerable"; "toString"; "valueOf"; "__proto__";
   "toLocaleString"].

Definition inherited_key (k : string) : bool :=
  existsb (String.eqb k) Object_prototype_keys.

(** ** Sample data *)

Definition words_ok : AxiosResult :=
  Fulfilled (Some (mkResponseData (Some ["ocean"; "king"]) None None None)).

Definition words_empty : AxiosResult :=
  Fulfilled (Some (mkResponseData None None None None)).

Definition vector_ok : AxiosResult :=
  Fulfilled (Some (mkResponseData None (Some [Finite (1 # 2); Finite (1 # 4)]) None None)).

Definition similarity_ok (x : Q) : AxiosResult :=
  Fulfilled (Some (mkResponseData None None (Some (Finite x)) None)).

Definition service_down : AxiosResult :=
  Rejected None "connect ECONNREFUSED 127.0.0.1:5001".

Definition socket_A : SocketId := "Ab3kQ9xT".
Definition socket_B : SocketId := "Zr7mW2pL".
Definition socket_C : SocketId := "Hy5nD8vK".

(** The word list arrives, two players connect, the embedding of the target
    arrives: a round is active. *)
Definition round_started : list Event :=
  [Settle 0 words_ok 0; Connect socket_A 0; Connect socket_B 0;
   Settle 0 vector_ok 0].

(** Player 1 submits "sea", scored 0.81. *)
Definition A_submits_sea : list Event :=
  [SubmitExpression socket_A (Some "sea"); Settle 0 vector_ok 0;
   Settle 0 (similarity_ok (81 # 100)) 0].

(** Player 2 submits "rock", scored 0.22. *)
Definition B_submits_rock : list Event :=
  [SubmitExpression socket_B (Some "rock"); Settle 0 vector_ok 0;
   Settle 0 (similarity_ok (22 # 100)) 0].

(** The active round in which Player 1 has a stored submission. *)
Definition A_has_submitted : World :=
  fst (run initial (round_started ++ A_submits_sea)).

(** The same round once the submission of Player 2 has been stored too. *)
Definition both_submitted : World :=
  with_playerSubmissions
    (obj_set (playerSubmissions A_has_submitted) socket_B
       (mkSubmission "rock" (Some (Finite (22 # 100)))))
    A_has_submitted.

(** The word-list service is down at setup and answers without words when
    the second player arrives. *)
Definition word_list_unavailable : list Event :=
  [Settle 0 service_down 0; Connect socket_A 0; Connect socket_B 0].

(** The server suspended in [startGame] on the word-list request. *)
Definition awaiting_word_list : World :=
  fst (run initial word_list_unavailable).

(** The submission of Player 1 is in flight on its first request. *)
Definition A_is_submitting : World :=
  fst (run initial (round_started ++ [SubmitExpression socket_A (Some "sea")])).

(** The word list is loaded and both players are seated; [startGame] waits
    for the embedding of the target word. *)
Definition embedding_in_flight : World :=
  fst (run initial [Settle 0 words_ok 0; Connect socket_A 0; Connect socket_B 0]).

(** Both players are seated before any word list has arrived; [startGame]
    waits for the word list. *)
Definition word_list_in_flight : World :=
  fst (run initial [Connect socket_A 0; Connect socket_B 0]).



(** Player 1 submits "sea" and, before its requests settle, "rock"; then the
    requests of "sea" settle (score 0.81). *)
Definition A_submits_twice : list Event :=
  round_started ++
  [SubmitExpression socket_A (Some "sea");
   SubmitExpression socket_A (Some "rock");
   Settle 0 vector_ok 0;
   Settle 1 (similarity_ok (81 # 100)) 0].

(** The requests of "rock" settle as well (score 0.22). *)
Definition second_submission_settles : list Event :=
  [Settle 0 vector_ok 0; Settle 0 (similarity_ok (22 # 100)) 0].

(** Player 1 submits "sea", then Player 2 disconnects without having
    submitted. *)
Definition B_leaves_without_submitting : list Event :=
  round_started ++ A_submits_sea ++ [Disconnect socket_B].

(** Player 1 submits "sea" in the first round.  While the compare request
    is in flight Player 2 leaves, which ends that round, and a third
    participant takes the free slot, which starts the next one: [startGame]
    sets the flag, draws "king" and waits for its embedding.  Then the
    compare request of the first round settles. *)
Definition stale_submission_in_next_round : list Event :=
  round_started ++
  [SubmitExpression socket_A (Some "sea"); Settle 0 vector_ok 0;
   Disconnect socket_B; Connect socket_C 1;
   Settle 0 (similarity_ok (81 # 100)) 0].

(** The world this leads to: the flag is set, the embedding of "king" has
    not arrived, and "sea" is stored with its score. *)
Definition round_without_vector : World :=
  fst (run initial stale_submission_in_next_round).

(** * Properties *)

(** ** Numbers *)

Lemma num_gtb_trans (a b c : Num) :
  num_gtb a b = true -> num_gtb b c = true -> num_gtb a c = true.
Proof.
  destruct a as [| |x|], b as [| |y|], c as [| |z|]; simpl; try congruence.
  rewrite !negb_true_iff. intros H1 H2.
  apply not_true_iff_false in H1, H2. apply not_true_iff_false.
  rewrite Qle_bool_iff in *.
  apply Qnot_le_lt in H1, H2. apply Qlt_not_le.
  eapply Qlt_trans; eassumption.
Qed.

Lemma num_geb_gtb_trans (a b c : Num) :
  num_geb a b = true -> num_gtb b c = true -> num_gtb a c = true.
Proof.
  destruct a as [| |x|], b as [| |y|], c as [| |z|]; simpl; try congruence.
  rewrite !negb_true_iff. intros H1 H2.
  apply not_true_iff_false in H2. apply not_true_iff_false.
  rewrite Qle_bool_iff in *.
  apply Qnot_le_lt in H2. apply Qlt_not_le.
  eapply Qlt_le_trans; eassumption.
Qed.

Lemma num_gtb_NegInfinity (a b : Num) :
  num_gtb a b = true -> num_gtb a NegInfinity = true.
Proof. destruct a, b; simpl; congruence. Qed.

(** ** Running handler fragments *)

Ltac unfold_handler :=
  unfold exec, bind, read, update, out, io_emit, socket_emit, axios, await,
    ret in *.

Lemma exec_bind {A : Type} (c : M A) (k : A -> M unit) (w : World) :
  exec (bind c k) w =
  let '(a, w1, o1) := c w in
  let '(w2, o2) := exec (k a) w1 in (w2, o1 ++ o2).
Proof.
  unfold exec, bind. destruct (c w) as [[a w1] o1].
  destruct (k a w1) as [[b w2] o2]. reflexivity.
Qed.

Lemma endGame_inactive (w : World) :
  State.isGameActive (state w) = false -> exec endGame w = (w, []).
Proof.
  intros H. unfold endGame. unfold_handler. rewrite H. reflexivity.
Qed.

Lemma endGame_missing_vector (w : World) :
  State.isGameActive (state w) = true ->
  targetVector w = None ->
  exec endGame w =
  (with_state (State.setGameActive false) w,
   [ToAll (game_over "Error determining winner: Missing target vector." [] None)]).
Proof.
  intros Ha Hv. unfold endGame. unfold_handler. rewrite Ha. cbn.
  rewrite Hv. reflexivity.
Qed.

Lemma endGame_active (w : World) (v : Vector) :
  State.isGameActive (state w) = true ->
  targetVector w = Some v ->
  exec endGame w =
  (round_cleared w,
   let st := State.setGameActive false (state w) in
   let tally := endGame_tally st (playerSubmissions w) in
   [ToAll (game_over (endGame_winnerMsg st (fst (fst tally))) (snd tally)
             (Some (targetWord w)))]).
Proof.
  intros Ha Hv. unfold endGame. unfold_handler. rewrite Ha. cbn.
  rewrite Hv. cbn.
  destruct (endGame_tally _ _) as [[winnerId bestScore] results].
  reflexivity.
Qed.

Lemma endGame_leaves_inactive (w : World) :
  State.isGameActive (state (fst (exec endGame w))) = false.
Proof.
  destruct (State.isGameActive (state w)) eqn:Ha.
  - destruct (targetVector w) as [v|] eqn:Hv.
    + rewrite (endGame_active w v Ha Hv). reflexivity.
    + rewrite (endGame_missing_vector w Ha Hv). reflexivity.
  - rewrite (endGame_inactive w Ha). exact Ha.
Qed.

(** ** The loop of endGame *)

Section Tally.
Variable st : State.t.
Variable subs : Obj Submission.

Lemma tally_inv_visit (done : list SocketId) (winnerId : option SocketId)
    (bestScore : Num) (results : list ResultRow) (id : SocketId) :
  tally_inv subs done winnerId bestScore ->
  let '(winnerId', bestScore', results') :=
    endGame_visit st subs (winnerId, bestScore, results) id in
  tally_inv subs (done ++ [id]) winnerId' bestScore' /\
  results' = results ++ [row_of st subs id].
Proof.
  intros [Hall Hwin]. unfold endGame_visit, row_of.
  assert (Hkeep :
    (forall y, score_of subs id = Some y -> num_gtb y bestScore = false) ->
    tally_inv subs (done ++ [id]) winnerId bestScore).
  { intros Hid. split.
    - intros i y Hi Hy. apply in_app_or in Hi. destruct Hi as [Hi | [<- | []]].
      + eapply Hall; eassumption.
      + apply Hid; assumption.
    - destruct winnerId as [wid|]; [|assumption].
      destruct Hwin as (before & after & Hd & Hs & Hgt & Hb & Ha).
      exists before, (after ++ [id]). repeat split; try assumption.
      + rewrite Hd, <- app_assoc. reflexivity.
      + intros i y Hi Hy. apply in_app_or in Hi. destruct Hi as [Hi | [<- | []]].
        * eapply Ha; eassumption.
        * apply Hid; assumption. }
  destruct (obj_get subs id) as [[e [x|]]|] eqn:Hget.
  - destruct (num_gtb x bestScore) eqn:Hx.
    + split; [|reflexivity]. split.
      * intros i y Hi Hy. apply in_app_or in Hi. destruct Hi as [Hi | [<- | []]].
        -- destruct (num_gtb y x) eqn:Hyx; [|reflexivity].
           rewrite <- (Hall i y Hi Hy). symmetry.
           eapply num_gtb_trans; eassumption.
        -- unfold score_of in Hy. rewrite Hget in Hy. simpl in Hy.
           injection Hy as <-. destruct x; simpl in *; try congruence.
           destruct (Qle_bool q q) eqn:Hq; [reflexivity|].
           apply not_true_iff_false in Hq. exfalso. apply Hq.
           apply Qle_bool_iff. apply Qle_refl.
      * exists done, []. repeat split.
        -- unfold score_of. rewrite Hget. reflexivity.
        -- eapply num_gtb_NegInfinity; eassumption.
        -- intros i y Hi Hy. destruct (num_geb y x) eqn:Hyx; [|reflexivity].
           rewrite <- (Hall i y Hi Hy). symmetry.
           eapply num_geb_gtb_trans; eassumption.
        -- intros i y [].
    + split; [|reflexivity]. apply Hkeep. intros y Hy.
      unfold score_of in Hy. rewrite Hget in Hy. simpl in Hy. congruence.
  - split; [|reflexivity]. apply Hkeep. intros y Hy.
    unfold score_of in Hy. rewrite Hget in Hy. simpl in Hy. congruence.
  - split; [|reflexivity]. apply Hkeep. intros y Hy.
    unfold score_of in Hy. rewrite Hget in Hy. congruence.
Qed.

Lemma tally_inv_fold (ks done : list SocketId) (winnerId : option SocketId)
    (bestScore : Num) (results : list ResultRow) :
  tally_inv subs done winnerId bestScore ->
  let '(winnerId', bestScore', results') :=
    fold_left (endGame_visit st subs) ks (winnerId, bestScore, results) in
  tally_inv subs (done ++ ks) winnerId' bestScore' /\
  results' = results ++ map (row_of st subs) ks.
Proof.
  revert done winnerId bestScore results.
  induction ks as [|k ks IH]; intros done winnerId bestScore results Hinv.
  - simpl. rewrite !app_nil_r. split; [assumption | reflexivity].
  - cbn [fold_left].
    pose proof (tally_inv_visit done winnerId bestScore results k Hinv) as Hstep.
    destruct (endGame_visit st subs (winnerId, bestScore, results) k)
      as [[winnerId1 bestScore1] results1].
    destruct Hstep as [Hinv1 ->].
    specialize (IH (done ++ [k]) winnerId1 bestScore1
                   (results ++ [row_of st subs k]) Hinv1).
    destruct (fold_left _ _ _) as [[winnerId2 bestScore2] results2].
    destruct IH as [Hinv2 ->]. split.
    + rewrite <- app_assoc in Hinv2. exact Hinv2.
    + simpl. rewrite <- app_assoc. reflexivity.
Qed.

Lemma endGame_tally_spec :
  first_maximum subs (fst (fst (endGame_tally st subs))) /\
  snd (endGame_tally st subs) = map (row_of st subs) (obj_keys subs).
Proof.
  unfold endGame_tally.
  assert (H0 : tally_inv subs [] None NegInfinity).
  { split; [intros i y [] | reflexivity]. }
  pose proof (tally_inv_fold (obj_keys subs) [] None NegInfinity [] H0) as H.
  destruct (fold_left _ _ _) as [[winnerId bestScore] results].
  simpl in *. destruct H as [[Hall Hwin] ->]. split; [|reflexivity].
  unfold first_maximum. destruct winnerId as [id|].
  - destruct Hwin as (before & after & Hd & Hs & Hgt & Hb & Ha).
    exists before, after, bestScore. repeat split; assumption.
  - subst bestScore. assumption.
Qed.

End Tally.

(** ** Finalization *)

(** C10: when the active flag is false, [endGame] returns at its guard: the
    world (target word, target vector, submissions, role table and the rest)
    is unchanged and nothing is emitted.  Consequently two consecutive calls
    of [endGame] have the same effect and the same output as one. *)
Theorem endGame_noop_when_inactive (w : World) :
  (State.isGameActive (state w) = false -> exec endGame w = (w, [])) /\
  exec (endGame ;; endGame) w = exec endGame w.
Proof.
  split; [apply endGame_inactive|].
  rewrite exec_bind.
  pose proof (endGame_leaves_inactive w) as Hoff.
  unfold exec in Hoff.
  change (exec endGame w) with (let '(_, w', o) := endGame w in (w', o)).
  destruct (endGame w) as [[u w1] o1]. simpl in Hoff.
  rewrite (endGame_inactive w1 Hoff). rewrite app_nil_r. reflexivity.
Qed.

Lemma endGame_noop_when_inactive_witness :
  exec endGame initial = (initial, []).
Proof.
  apply (proj1 (endGame_noop_when_inactive initial)). reflexivity.
Defined.

(** C6, as the code has it: on an active round whose target vector is
    present, [endGame] announces as winner the arg-max of the stored scores,
    the first key in insertion order among equal maxima, lists one results
    row per stored submission in insertion order, and then clears the
    target word, the target vector and all submissions.  On an active round
    whose target vector is missing it returns at its second guard: it
    broadcasts a [game_over] with the error text, no rows and no target
    word, and clears the active flag only. *)
Theorem endGame_picks_first_maximum_and_clears (w : World) :
  State.isGameActive (state w) = true ->
  (forall v, targetVector w = Some v ->
   exists winnerId results,
     first_maximum (playerSubmissions w) winnerId /\
     results = map (row_of (State.setGameActive false (state w)) (playerSubmissions w))
                   (obj_keys (playerSubmissions w)) /\
     snd (exec endGame w) =
       [ToAll (game_over
                 (endGame_winnerMsg (State.setGameActive false (state w)) winnerId)
                 results (Some (targetWord w)))] /\
     let w' := fst (exec endGame w) in
     targetWord w' = None /\
     targetVector w' = None /\
     playerSubmissions w' = [] /\
     state w' = State.setGameActive false (state w) /\
     wordList w' = wordList w /\
     pending w' = pending w) /\
  (targetVector w = None ->
   snd (exec endGame w) =
     [ToAll (game_over "Error determining winner: Missing target vector." []
               None)] /\
   let w' := fst (exec endGame w) in
   targetWord w' = targetWord w /\
   targetVector w' = None /\
   playerSubmissions w' = playerSubmissions w /\
   state w' = State.setGameActive false (state w) /\
   wordList w' = wordList w /\
   pending w' = pending w).
Proof.
  intros Ha. split.
  - intros v Hv.
    pose proof (endGame_tally_spec (State.setGameActive false (state w))
                  (playerSubmissions w)) as [Hmax Hrows].
    exists (fst (fst (endGame_tally (State.setGameActive false (state w))
                        (playerSubmissions w)))).
    exists (snd (endGame_tally (State.setGameActive false (state w))
                   (playerSubmissions w))).
    rewrite (endGame_active w v Ha Hv). simpl.
    repeat split; assumption.
  - intros Hv. rewrite (endGame_missing_vector w Ha Hv). simpl.
    repeat split; assumption.
Qed.

Lemma endGame_picks_first_maximum_and_clears_witness :
  exists winnerId results,
    first_maximum (playerSubmissions both_submitted) winnerId /\
    results = map (row_of (State.setGameActive false (state both_submitted))
                     (playerSubmissions both_submitted))
                  (obj_keys (playerSubmissions both_submitted)) /\
    snd (exec endGame both_submitted) =
      [ToAll (game_over
                (endGame_winnerMsg (State.setGameActive false (state both_submitted))
                   winnerId)
                results (Some (targetWord both_submitted)))] /\
    let w' := fst (exec endGame both_submitted) in
    targetWord w' = None /\
    targetVector w' = None /\
    playerSubmissions w' = [] /\
    state w' = State.setGameActive false (state both_submitted) /\
    wordList w' = wordList both_submitted /\
    pending w' = pending both_submitted.
Proof.
  apply (proj1 (endGame_picks_first_maximum_and_clears both_submitted eq_refl)
           [Finite (1 # 2); Finite (1 # 4)]).
  reflexivity.
Defined.

(** C6 as stated fails: the compare request of a submission made in one
    round settles after the next round has been triggered, while that
    round's [startGame] waits for the embedding.  The flag is set and a
    scored submission is stored, yet [endGame], here called because Player 1
    leaves, names no winner, lists no row, and leaves the target word and
    the submission in place. *)
Lemma endGame_without_vector_clears_nothing :
  State.isGameActive (state round_without_vector) = true /\
  targetWord round_without_vector = Some "king" /\
  targetVector round_without_vector = None /\
  playerSubmissions round_without_vector =
    [(socket_A, mkSubmission "sea" (Some (Finite (81 # 100))))] /\
  exec endGame round_without_vector =
    (with_state (State.setGameActive false) round_without_vector,
     [ToAll (game_over "Error determining winner: Missing target vector." []
               None)]) /\
  snd (step round_without_vector (Disconnect socket_A)) =
    [ToAll (player_left "Player 1 disconnected. Game over.");
     ToAll (game_over "Error determining winner: Missing target vector." []
              None)] /\
  targetWord (fst (step round_without_vector (Disconnect socket_A)))
    = Some "king" /\
  playerSubmissions (fst (step round_without_vector (Disconnect socket_A)))
    = [(socket_A, mkSubmission "sea" (Some (Finite (81 # 100))))].
Proof. vm_compute. repeat split; reflexivity. Qed.

(** The scored round of the specification: "sea" at 0.81 beats "rock" at
    0.22, and both rows are listed. *)
Example round_over_names_player_1 :
  snd (run initial (round_started ++ A_submits_sea ++ B_submits_rock)) =
  [ToSocket socket_A (assign_role Player1);
   ToSocket socket_A waiting_for_player;
   ToSocket socket_B (assign_role Player2);
   Http (GetEmbedding (Some "ocean"));
   ToAll (game_start (Some "ocean")
            [mkPlayerInfo socket_A Player1; mkPlayerInfo socket_B Player2]);
   Http (CalculateVector "sea");
   Http (CompareToTarget (Some "ocean") [Finite (1 # 2); Finite (1 # 4)]);
   ToAll (player_submitted Player1 "sea");
   Http (CalculateVector "rock");
   Http (CompareToTarget (Some "ocean") [Finite (1 # 2); Finite (1 # 4)]);
   ToAll (player_submitted Player2 "rock");
   ToAll (game_over "Player 1 wins!"
            [mkResultRow "Player 1" "sea" (ToFixed4 (Finite (81 # 100)));
             mkResultRow "Player 2" "rock" (ToFixed4 (Finite (22 # 100)))]
            (Some (Some "ocean")))].
Proof. vm_compute. reflexivity. Qed.

(** Equal top scores: the first key in insertion order wins. *)
Example tie_goes_to_first_submission :
  snd (exec endGame
         (with_playerSubmissions
            [(socket_B, mkSubmission "rock" (Some (Finite (1 # 2))));
             (socket_A, mkSubmission "sea" (Some (Finite (2 # 4))))]
            (fst (run initial round_started)))) =
  [ToAll (game_over "Player 2 wins!"
            [mkResultRow "Player 2" "rock" (ToFixed4 (Finite (1 # 2)));
             mkResultRow "Player 1" "sea" (ToFixed4 (Finite (2 # 4)))]
            (Some (Some "ocean")))].
Proof. vm_compute. reflexivity. Qed.

Lemma endGame_emits_game_over_iff (w : World) :
  existsb is_game_over (snd (exec endGame w)) = State.isGameActive (state w).
Proof.
  destruct (State.isGameActive (state w)) eqn:Ha.
  - destruct (targetVector w) as [v|] eqn:Hv.
    + rewrite (endGame_active w v Ha Hv). reflexivity.
    + rewrite (endGame_missing_vector w Ha Hv). reflexivity.
  - rewrite (endGame_inactive w Ha). reflexivity.
Qed.

(** The world after step 4 of the submit handler. *)
Lemma submit_store_eq (w : World) (playerId : SocketId) (playerInfo : PlayerInfo)
    (expr : string) (x : Num) :
  let w1 := with_playerSubmissions
              (obj_set (playerSubmissions w) playerId (mkSubmission expr (Some x))) w in
  exec (submit_store playerId playerInfo expr x) w =
  if length (obj_keys (playerSubmissions w1)) =? slot_count w
  then (fst (exec endGame w1),
        ToAll (player_submitted (pi_role playerInfo) expr) :: snd (exec endGame w1))
  else (w1, [ToAll (player_submitted (pi_role playerInfo) expr)]).
Proof.
  intros w1. unfold submit_store, slot_count.
  rewrite exec_bind. cbn. rewrite exec_bind. cbn.
  rewrite exec_bind. cbn. rewrite exec_bind. cbn. fold w1.
  destruct (_ =? _).
  - destruct (exec endGame w1) as [w2 o2]. reflexivity.
  - reflexivity.
Qed.

(** C4: in the submit path [endGame] is invoked exactly when, right after
    the submission has been stored, the number of stored submissions equals
    the number of participants holding a slot role (spectators are not
    counted).  When the numbers differ, in particular when fewer
    submissions are stored, the handler ends after the [player_submitted]
    notice.  A [game_over] is broadcast from the submit path exactly when
    the numbers are equal and the round is active. *)
Theorem submit_finalizes_exactly_when_all_submitted (w : World)
    (playerId : SocketId) (playerInfo : PlayerInfo) (expr : string) (x : Num) :
  let w1 := with_playerSubmissions
              (obj_set (playerSubmissions w) playerId (mkSubmission expr (Some x))) w in
  let submitted := length (obj_keys (playerSubmissions w1)) in
  let notice := ToAll (player_submitted (pi_role playerInfo) expr) in
  (submitted = slot_count w ->
   exec (submit_store playerId playerInfo expr x) w =
   (fst (exec endGame w1), notice :: snd (exec endGame w1))) /\
  (submitted <> slot_count w ->
   exec (submit_store playerId playerInfo expr x) w = (w1, [notice])) /\
  (submitted < slot_count w ->
   exec (submit_store playerId playerInfo expr x) w = (w1, [notice])) /\
  (existsb is_game_over (snd (exec (submit_store playerId playerInfo expr x) w)) = true
   <-> submitted = slot_count w /\ State.isGameActive (state w) = true).
Proof.
  intros w1 submitted notice.
  pose proof (submit_store_eq w playerId playerInfo expr x) as Heq.
  cbv zeta in Heq. fold w1 in Heq. fold submitted in Heq. fold notice in Heq.
  rewrite Heq. clear Heq.
  destruct (submitted =? slot_count w) eqn:Hc.
  - apply Nat.eqb_eq in Hc. split; [|split; [|split; [|split]]].
    + reflexivity.
    + intros Hne. contradiction.
    + intros Hlt. lia.
    + intros Hover. simpl in Hover.
      rewrite endGame_emits_game_over_iff in Hover. split; assumption.
    + intros [_ Ha]. simpl. rewrite endGame_emits_game_over_iff. exact Ha.
  - apply Nat.eqb_neq in Hc. split; [|split; [|split; [|split]]].
    + intros He. contradiction.
    + reflexivity.
    + reflexivity.
    + intros Hover. simpl in Hover. discriminate.
    + intros [He _]. contradiction.
Qed.

Lemma submit_finalizes_exactly_when_all_submitted_witness :
  exec (submit_store socket_B (mkPlayerInfo socket_B Player2) "rock"
          (Finite (22 # 100))) A_has_submitted =
  (fst (exec endGame both_submitted),
   ToAll (player_submitted Player2 "rock") :: snd (exec endGame both_submitted)).
Proof.
  apply (proj1 (submit_finalizes_exactly_when_all_submitted A_has_submitted
                  socket_B (mkPlayerInfo socket_B Player2) "rock"
                  (Finite (22 # 100)))).
  reflexivity.
Defined.

(** ** Dictionaries *)

Lemma obj_get_set_same {V : Type} (o : Obj V) (k : string) (v : V) :
  obj_get (obj_set o k v) k = Some v.
Proof.
  induction o as [|[k' v'] o IH]; simpl.
  - rewrite String.eqb_refl. reflexivity.
  - destruct (String.eqb k' k) eqn:E; simpl; rewrite E; [reflexivity | exact IH].
Qed.

Lemma obj_get_set_other {V : Type} (o : Obj V) (k k' : string) (v : V) :
  k <> k' -> obj_get (obj_set o k v) k' = obj_get o k'.
Proof.
  intros Hne. induction o as [|[k0 v0] o IH]; simpl.
  - destruct (String.eqb k k') eqn:E; [|reflexivity].
    apply String.eqb_eq in E. contradiction.
  - destruct (String.eqb k0 k) eqn:E; simpl.
    + apply String.eqb_eq in E. subst k0.
      destruct (String.eqb k k') eqn:E'; [|reflexivity].
      apply String.eqb_eq in E'. contradiction.
    + rewrite IH. reflexivity.
Qed.

(** ** Settling a request *)

Lemma step_settle (w : World) (k : nat) (r : AxiosResult) (pick : nat) (t : Task) :
  nth_error (pending w) k = Some t ->
  step w (Settle k r pick) =
  exec (resume t r pick) (with_pending (remove_nth k (pending w)) w).
Proof.
  intros Hk. unfold step, handle, on_settle.
  rewrite exec_bind. unfold read at 1. rewrite Hk.
  rewrite exec_bind. unfold update at 1.
  destruct (exec (resume t r pick) _) as [w2 o2]. reflexivity.
Qed.

Lemma step_settle_none (w : World) (k : nat) (r : AxiosResult) (pick : nat) :
  nth_error (pending w) k = None -> step w (Settle k r pick) = (w, []).
Proof.
  intros Hk. unfold step, handle, on_settle.
  rewrite exec_bind. unfold read at 1. rewrite Hk. reflexivity.
Qed.

Lemma calculateVector_failure (w : World) (playerId : SocketId)
    (playerInfo : PlayerInfo) (expr : string) (r : AxiosResult) :
  fulfilled_vector r = None ->
  exec (submit_resume_calculateVector playerId playerInfo expr r) w =
  (w, [ToSocket playerId (error_message
         ("Server error calculating your expression: "
            ++ caught_text r "Invalid response from /calculate-vector")%string)]).
Proof.
  intros Hr. unfold submit_resume_calculateVector.
  destruct r as [[d|]|e m]; simpl in Hr; try reflexivity.
  rewrite Hr. reflexivity.
Qed.

Lemma compareToTarget_failure (w : World) (playerId : SocketId)
    (playerInfo : PlayerInfo) (expr : string) (r : AxiosResult) :
  fulfilled_similarity r = None ->
  exec (submit_resume_compareToTarget playerId playerInfo expr r) w =
  (w, [ToSocket playerId (error_message
         ("Server error comparing your result: "
            ++ caught_text r "Invalid response from /compare-to-target")%string)]).
Proof.
  intros Hr. unfold submit_resume_compareToTarget.
  destruct r as [[d|]|e m]; simpl in Hr; try reflexivity.
  rewrite Hr. reflexivity.
Qed.

Lemma compareToTarget_success (w : World) (playerId : SocketId)
    (playerInfo : PlayerInfo) (expr : string) (r : AxiosResult) (x : Num) :
  fulfilled_similarity r = Some x ->
  exec (submit_resume_compareToTarget playerId playerInfo expr r) w =
  exec (submit_store playerId playerInfo expr x) w.
Proof.
  intros Hr. unfold submit_resume_compareToTarget.
  destruct r as [[d|]|e m]; simpl in Hr; try discriminate.
  rewrite Hr. reflexivity.
Qed.

Lemma submit_validate_ignores_pending (w : World) (ts : list Task)
    (playerId : SocketId) (payload : option string) :
  submit_validate (with_pending ts w) playerId payload =
  submit_validate w playerId payload.
Proof. reflexivity. Qed.

(** The submissions after [endGame] are those before it, or none. *)
Lemma endGame_playerSubmissions (w : World) :
  playerSubmissions (fst (exec endGame w)) = playerSubmissions w \/
  playerSubmissions (fst (exec endGame w)) = [].
Proof.
  destruct (State.isGameActive (state w)) eqn:Ha.
  - destruct (targetVector w) as [v|] eqn:Hv.
    + rewrite (endGame_active w v Ha Hv). right. reflexivity.
    + rewrite (endGame_missing_vector w Ha Hv). left. reflexivity.
  - rewrite (endGame_inactive w Ha). left. reflexivity.
Qed.

Lemma endGame_pending (w : World) :
  pending (fst (exec endGame w)) = pending w.
Proof.
  destruct (State.isGameActive (state w)) eqn:Ha.
  - destruct (targetVector w) as [v|] eqn:Hv.
    + rewrite (endGame_active w v Ha Hv). reflexivity.
    + rewrite (endGame_missing_vector w Ha Hv). reflexivity.
  - rewrite (endGame_inactive w Ha). reflexivity.
Qed.

(** ** What one event can do to the submissions and to the pending requests *)

Ltac break_match :=
  match goal with
  | |- context [match ?x with _ => _ end] =>
      lazymatch x with
      | context [match _ with _ => _ end] => fail
      | _ => destruct x eqn:?
      end
  end.

Ltac crunch := unfold_handler; cbn; repeat (break_match; cbn).

Lemma connect_playerSubmissions (w : World) (id : SocketId) (pick : nat) :
  playerSubmissions (fst (step w (Connect id pick))) = playerSubmissions w \/
  playerSubmissions (fst (step w (Connect id pick))) = [].
Proof.
  unfold step, handle, on_connection, connection_assignRole,
    connection_checkStart, startGame, startGame_chooseTarget,
    fetchWordList_request.
  crunch; auto.
Qed.

Lemma on_disconnect_known (w : World) (id : SocketId) (p : PlayerInfo) :
  State.getPlayerSocketInfo (state w) id = Some p ->
  exec (on_disconnect id) w =
  let w1 := with_state (vacate p id) w in
  if negb (role_eqb (pi_role p) Spectator) && State.isGameActive (state w)
  then (fst (exec endGame w1),
        ToAll (player_left (role_name (pi_role p) ++ " disconnected. Game over.")%string)
          :: snd (exec endGame w1))
  else (w1, []).
Proof.
  intros Hp. unfold on_disconnect, vacate.
  rewrite exec_bind. cbn. rewrite Hp.
  unfold exec, bind, read, update, io_emit, out, ret. cbn.
  destruct (pi_role p); cbn;
    destruct (State.isGameActive (state w)); cbn; try reflexivity;
    unfold with_state; cbn;
    match goal with
    | |- context [endGame ?w0] => destruct (endGame w0) as [[u w2] o2]
    end; reflexivity.
Qed.

Lemma on_disconnect_unknown (w : World) (id : SocketId) :
  State.getPlayerSocketInfo (state w) id = None ->
  exec (on_disconnect id) w = (w, []).
Proof.
  intros Hp. unfold on_disconnect. unfold_handler. rewrite Hp. reflexivity.
Qed.

Lemma submit_store_playerSubmissions (w : World) (playerId : SocketId)
    (playerInfo : PlayerInfo) (expr : string) (x : Num) :
  let w' := fst (exec (submit_store playerId playerInfo expr x) w) in
  playerSubmissions w' = [] \/
  playerSubmissions w' =
    obj_set (playerSubmissions w) playerId (mkSubmission expr (Some x)).
Proof.
  cbv zeta. rewrite submit_store_eq. cbv zeta.
  destruct (_ =? _); simpl.
  - destruct (endGame_playerSubmissions
                (with_playerSubmissions
                   (obj_set (playerSubmissions w) playerId
                      (mkSubmission expr (Some x))) w)) as [H | H];
      rewrite H; auto.
  - auto.
Qed.

(** One event leaves the submissions as they are, empties them, or is the
    successful settlement of a compare-to-target request, which writes the
    entry of its submitter. *)
Lemma step_playerSubmissions (w : World) (ev : Event) :
  playerSubmissions (fst (step w ev)) = playerSubmissions w \/
  playerSubmissions (fst (step w ev)) = [] \/
  exists k r pick playerId playerInfo expr v x,
    ev = Settle k r pick /\
    nth_error (pending w) k =
      Some (Await_submit_compareToTarget playerId playerInfo expr v) /\
    fulfilled_similarity r = Some x /\
    playerSubmissions (fst (step w ev)) =
      obj_set (playerSubmissions w) playerId (mkSubmission expr (Some x)).
Proof.
  destruct ev as [id pick | id | id payload | id | k r pick].
  - destruct (connect_playerSubmissions w id pick); auto.
  - unfold step, handle.
    destruct (State.getPlayerSocketInfo (state w) id) as [p|] eqn:Hp.
    + rewrite (on_disconnect_known w id p Hp).
      destruct (_ && _); [|auto].
      cbn [fst].
      destruct (endGame_playerSubmissions (with_state (vacate p id) w)) as [H | H];
        rewrite H; auto.
    + rewrite (on_disconnect_unknown w id Hp). auto.
  - unfold step, handle, on_submit_expression. crunch; auto.
  - right. left. reflexivity.
  - destruct (nth_error (pending w) k) as [t|] eqn:Hk.
    + rewrite (step_settle w k r pick t Hk).
      destruct t as [| | |playerId playerInfo expr|playerId playerInfo expr v];
        cbn [resume].
      * left. unfold fetchWordList_resume. crunch; reflexivity.
      * left. unfold startGame_resume_fetchWordList, fetchWordList_resume,
          startGame_chooseTarget. crunch; reflexivity.
      * left. unfold startGame_resume_getEmbedding. crunch; reflexivity.
      * left. unfold submit_resume_calculateVector. crunch; reflexivity.
      * destruct (fulfilled_similarity r) as [x|] eqn:Hr.
        -- rewrite (compareToTarget_success _ _ _ _ _ x Hr).
           destruct (submit_store_playerSubmissions
                       (with_pending (remove_nth k (pending w)) w)
                       playerId playerInfo expr x) as [H | H].
           ++ right. left. exact H.
           ++ right. right. exists k, r, pick, playerId, playerInfo, expr, v, x.
              repeat split; assumption.
        -- rewrite (compareToTarget_failure _ _ _ _ _ Hr). left. reflexivity.
    + rewrite (step_settle_none w k r pick Hk). left. reflexivity.
Qed.

Lemma In_remove_nth {A : Type} (k : nat) (l : list A) (x : A) :
  In x (remove_nth k l) -> In x l.
Proof.
  revert k. induction l as [|a l IH]; intros k H.
  - destruct k; simpl in H; contradiction.
  - destruct k as [|k]; simpl in H.
    + right. exact H.
    + destruct H as [H | H]; [left; exact H | right; eapply IH; exact H].
Qed.

(** A compare-to-target request is pending after an event only if it was
    pending before, or the event is the successful settlement of the
    calculate-vector request of the same submission. *)
Lemma step_pending_compareToTarget (w : World) (ev : Event)
    (playerId : SocketId) (playerInfo : PlayerInfo) (expr : string) (v : Vector) :
  In (Await_submit_compareToTarget playerId playerInfo expr v)
     (pending (fst (step w ev))) ->
  In (Await_submit_compareToTarget playerId playerInfo expr v) (pending w) \/
  exists k r pick,
    ev = Settle k r pick /\
    nth_error (pending w) k =
      Some (Await_submit_calculateVector playerId playerInfo expr) /\
    fulfilled_vector r = Some v.
Proof.
  destruct ev as [id pick | id | id payload | id | k r pick].
  - unfold step, handle, on_connection, connection_assignRole,
      connection_checkStart, startGame, startGame_chooseTarget,
      fetchWordList_request.
    crunch; intros H; auto;
      apply in_app_or in H; destruct H as [H | [H | []]]; auto; discriminate.
  - unfold step, handle.
    destruct (State.getPlayerSocketInfo (state w) id) as [p|] eqn:Hp.
    + rewrite (on_disconnect_known w id p Hp). cbv zeta.
      destruct (_ && _); cbn [fst]; [rewrite endGame_pending|]; auto.
    + rewrite (on_disconnect_unknown w id Hp). auto.
  - unfold step, handle, on_submit_expression.
    crunch; intros H; auto;
      apply in_app_or in H; destruct H as [H | [H | []]]; auto; discriminate.
  - cbn. auto.
  - destruct (nth_error (pending w) k) as [t|] eqn:Hk.
    + rewrite (step_settle w k r pick t Hk).
      destruct t as [| | |pid0 pinfo0 expr0|pid0 pinfo0 expr0 v0]; cbn [resume].
      * unfold fetchWordList_resume.
        crunch; intros H; left; eapply In_remove_nth; exact H.
      * unfold startGame_resume_fetchWordList, fetchWordList_resume,
          startGame_chooseTarget.
        crunch; intros H; left;
          try (apply in_app_or in H; destruct H as [H | [H | []]];
               [|discriminate]);
          eapply In_remove_nth; exact H.
      * unfold startGame_resume_getEmbedding.
        crunch; intros H; left; eapply In_remove_nth; exact H.
      * destruct (fulfilled_vector r) as [v1|] eqn:Hr.
        -- unfold submit_resume_calculateVector.
           destruct r as [[d|]|e m]; simpl in Hr; try discriminate.
           rewrite Hr. crunch. intros H.
           apply in_app_or in H. destruct H as [H | [H | []]].
           ++ left. eapply In_remove_nth; exact H.
           ++ injection H as -> -> -> ->. right. exists k, (Fulfilled (Some d)), pick.
              repeat split; assumption.
        -- rewrite (calculateVector_failure _ _ _ _ _ Hr). cbn.
           intros H. left. eapply In_remove_nth; exact H.
      * destruct (fulfilled_similarity r) as [x|] eqn:Hr.
        -- rewrite (compareToTarget_success _ _ _ _ _ x Hr).
           rewrite submit_store_eq. cbv zeta.
           destruct (_ =? _); cbn [fst]; [rewrite endGame_pending|]; cbn;
             intros H; left; eapply In_remove_nth; exact H.
        -- rewrite (compareToTarget_failure _ _ _ _ _ Hr). cbn.
           intros H. left. eapply In_remove_nth; exact H.
    + rewrite (step_settle_none w k r pick Hk). auto.
Qed.

(** ** Failure of a remote call in the submit path *)

(** C7: a submission is written only by the successful settlement of a
    compare-to-target request, and such a request is issued only by the
    successful settlement of the calculate-vector request of the same
    submission.  When either request fails, the handler sends one
    [error_message] to the submitter and changes nothing else: no
    submission is stored, the round state is as before, and a later
    [submit_expression] of that participant is validated exactly as it
    would have been before. *)
Theorem submit_stores_only_after_both_calls (w : World) :
  (forall k r pick playerId playerInfo expr,
     nth_error (pending w) k =
       Some (Await_submit_calculateVector playerId playerInfo expr) ->
     fulfilled_vector r = None ->
     let w' := with_pending (remove_nth k (pending w)) w in
     step w (Settle k r pick) =
       (w', [ToSocket playerId (error_message
               ("Server error calculating your expression: "
                  ++ caught_text r "Invalid response from /calculate-vector")%string)]) /\
     forall payload,
       submit_validate w' playerId payload = submit_validate w playerId payload) /\
  (forall k r pick playerId playerInfo expr v,
     nth_error (pending w) k =
       Some (Await_submit_compareToTarget playerId playerInfo expr v) ->
     fulfilled_similarity r = None ->
     let w' := with_pending (remove_nth k (pending w)) w in
     step w (Settle k r pick) =
       (w', [ToSocket playerId (error_message
               ("Server error comparing your result: "
                  ++ caught_text r "Invalid response from /compare-to-target")%string)]) /\
     forall payload,
       submit_validate w' playerId payload = submit_validate w playerId payload) /\
  (forall ev id sub,
     obj_get (playerSubmissions (fst (step w ev))) id = Some sub ->
     obj_get (playerSubmissions w) id <> Some sub ->
     exists k r pick playerInfo v x,
       ev = Settle k r pick /\
       nth_error (pending w) k =
         Some (Await_submit_compareToTarget id playerInfo (expression sub) v) /\
       fulfilled_similarity r = Some x /\
       score sub = Some x) /\
  (forall ev playerId playerInfo expr v,
     In (Await_submit_compareToTarget playerId playerInfo expr v)
        (pending (fst (step w ev))) ->
     ~ In (Await_submit_compareToTarget playerId playerInfo expr v) (pending w) ->
     exists k r pick,
       ev = Settle k r pick /\
       nth_error (pending w) k =
         Some (Await_submit_calculateVector playerId playerInfo expr) /\
       fulfilled_vector r = Some v).
Proof.
  split; [|split; [|split]].
  - intros k r pick playerId playerInfo expr Hk Hr w'. split.
    + rewrite (step_settle w k r pick _ Hk). cbn [resume].
      apply calculateVector_failure. exact Hr.
    + intros payload. apply submit_validate_ignores_pending.
  - intros k r pick playerId playerInfo expr v Hk Hr w'. split.
    + rewrite (step_settle w k r pick _ Hk). cbn [resume].
      apply compareToTarget_failure. exact Hr.
    + intros payload. apply submit_validate_ignores_pending.
  - intros ev id sub Hafter Hbefore.
    destruct (step_playerSubmissions w ev) as [H | [H | H]].
    + rewrite H in Hafter. contradiction.
    + rewrite H in Hafter. discriminate.
    + destruct H as (k & r & pick & playerId & playerInfo & expr & v & x
                     & -> & Hk & Hr & H).
      rewrite H in Hafter.
      destruct (String.eqb playerId id) eqn:E.
      * apply String.eqb_eq in E. subst playerId.
        rewrite obj_get_set_same in Hafter. injection Hafter as <-.
        exists k, r, pick, playerInfo, v, x. repeat split; assumption.
      * apply String.eqb_neq in E.
        rewrite (obj_get_set_other _ _ _ _ E) in Hafter. contradiction.
  - intros ev playerId playerInfo expr v Hafter Hbefore.
    destruct (step_pending_compareToTarget w ev _ _ _ _ Hafter) as [H | H].
    + contradiction.
    + exact H.
Qed.

Lemma submit_stores_only_after_both_calls_witness :
  step A_is_submitting (Settle 0 service_down 0) =
  (fst (run initial round_started),
   [ToSocket socket_A (error_message
      "Server error calculating your expression: connect ECONNREFUSED 127.0.0.1:5001")]).
Proof.
  apply (proj1 (proj1 (submit_stores_only_after_both_calls A_is_submitting)
           0 service_down 0 socket_A (mkPlayerInfo socket_A Player1) "sea"
           eq_refl eq_refl)).
Defined.

(** ** Starting a round *)

Lemma fetchWordList_resume_eq (r : AxiosResult) (w : World) :
  fetchWordList_resume r w = (tt, with_wordList (fetched_words r) w, []).
Proof.
  unfold fetchWordList_resume, fetched_words.
  destruct r as [[d|]|e m]; try reflexivity.
  destruct (words d) as [[|x xs]|]; reflexivity.
Qed.

Lemma startGame_resume_fetchWordList_empty (r : AxiosResult) (pick : nat) (w : World) :
  fetched_words r = [] ->
  exec (startGame_resume_fetchWordList r pick) w =
  (with_state (State.setGameActive false) (with_wordList [] w),
   [ToAll (error_message "Server error: Could not load word list to start game.")]).
Proof.
  intros Hr. unfold startGame_resume_fetchWordList.
  rewrite exec_bind. rewrite fetchWordList_resume_eq. rewrite Hr.
  reflexivity.
Qed.

(** C8: [startGame] on an empty word list issues one word-list request and
    suspends.  When that request settles and the list is still empty, the
    handler broadcasts the failure notice, sets the active flag to false and
    ends: it issues no further request, assigns neither the target word nor
    the target vector, and leaves both slots and the role table as they
    are. *)
Theorem startGame_aborts_on_empty_word_list (w : World) :
  (forall pick,
     wordList w = [] ->
     exec (startGame pick) w =
       (with_pending (pending w ++ [Await_startGame_fetchWordList])
          (with_playerSubmissions [] (with_state (State.setGameActive true) w)),
        [Http GetWords])) /\
  (forall k r pick,
     nth_error (pending w) k = Some Await_startGame_fetchWordList ->
     fetched_words r = [] ->
     let w' := fst (step w (Settle k r pick)) in
     snd (step w (Settle k r pick)) =
       [ToAll (error_message "Server error: Could not load word list to start game.")] /\
     State.isGameActive (state w') = false /\
     targetWord w' = targetWord w /\
     targetVector w' = targetVector w /\
     State.getPlayer1 (state w') = State.getPlayer1 (state w) /\
     State.getPlayer2 (state w') = State.getPlayer2 (state w) /\
     State.getAllPlayerSockets (state w') = State.getAllPlayerSockets (state w) /\
     wordList w' = [] /\
     pending w' = remove_nth k (pending w)).
Proof.
  split.
  - intros pick Hwl. unfold startGame. unfold_handler. cbn. rewrite Hwl.
    reflexivity.
  - intros k r pick Hk Hr w'. subst w'.
    rewrite (step_settle w k r pick _ Hk). cbn [resume].
    rewrite (startGame_resume_fetchWordList_empty r pick _ Hr).
    cbn. repeat split; reflexivity.
Qed.

Lemma startGame_aborts_on_empty_word_list_witness :
  snd (step awaiting_word_list (Settle 0 words_empty 0)) =
    [ToAll (error_message "Server error: Could not load word list to start game.")] /\
  State.isGameActive (state (fst (step awaiting_word_list (Settle 0 words_empty 0))))
    = false /\
  targetWord (fst (step awaiting_word_list (Settle 0 words_empty 0)))
    = targetWord awaiting_word_list /\
  targetVector (fst (step awaiting_word_list (Settle 0 words_empty 0)))
    = targetVector awaiting_word_list /\
  State.getPlayer1 (state (fst (step awaiting_word_list (Settle 0 words_empty 0))))
    = State.getPlayer1 (state awaiting_word_list) /\
  State.getPlayer2 (state (fst (step awaiting_word_list (Settle 0 words_empty 0))))
    = State.getPlayer2 (state awaiting_word_list) /\
  State.getAllPlayerSockets
    (state (fst (step awaiting_word_list (Settle 0 words_empty 0))))
    = State.getAllPlayerSockets (state awaiting_word_list) /\
  wordList (fst (step awaiting_word_list (Settle 0 words_empty 0))) = [] /\
  pending (fst (step awaiting_word_list (Settle 0 words_empty 0)))
    = remove_nth 0 (pending awaiting_word_list).
Proof.
  apply (proj2 (startGame_aborts_on_empty_word_list awaiting_word_list)
           0 words_empty 0 eq_refl eq_refl).
Defined.

(** The aborted start of the specification, end to end: one request at the
    trigger, the failure notice to all, both players still seated, no
    target. *)
Example aborted_start_end_to_end :
  run initial (word_list_unavailable ++ [Settle 0 words_empty 0]) =
  (mkWorld
     (State.mk None None [] (Some socket_A) (Some socket_B) None false
        [(socket_A, mkPlayerInfo socket_A Player1);
         (socket_B, mkPlayerInfo socket_B Player2)])
     None None [] [] [],
   [ToSocket socket_A (assign_role Player1);
    ToSocket socket_A waiting_for_player;
    ToSocket socket_B (assign_role Player2);
    Http GetWords;
    ToAll (error_message "Server error: Could not load word list to start game.")]).
Proof. vm_compute. reflexivity. Qed.

(** ** Role assignment *)

Lemma endGame_playerSockets (w : World) :
  State.getAllPlayerSockets (state (fst (exec endGame w))) =
  State.getAllPlayerSockets (state w).
Proof.
  destruct (State.isGameActive (state w)) eqn:Ha.
  - destruct (targetVector w) as [v|] eqn:Hv.
    + rewrite (endGame_active w v Ha Hv). reflexivity.
    + rewrite (endGame_missing_vector w Ha Hv). reflexivity.
  - rewrite (endGame_inactive w Ha). reflexivity.
Qed.

Lemma slot_holders_obj_set (o : Obj PlayerInfo) (k : string) (p : PlayerInfo) :
  length (slot_holders (obj_set o k p)) <= S (length (slot_holders o)) /\
  (pi_role p = Spectator ->
   length (slot_holders (obj_set o k p)) <= length (slot_holders o)).
Proof.
  unfold slot_holders, obj_values.
  induction o as [|[k' p'] o [IH1 IH2]]; simpl.
  - split.
    + destruct (role_eqb (pi_role p) Spectator); simpl; lia.
    + intros ->. simpl. lia.
  - destruct (String.eqb k' k); simpl.
    + split.
      * destruct (role_eqb (pi_role p) Spectator),
          (role_eqb (pi_role p') Spectator); simpl; lia.
      * intros ->. simpl. destruct (role_eqb (pi_role p') Spectator); simpl; lia.
    + split.
      * destruct (role_eqb (pi_role p') Spectator); simpl; lia.
      * intros Hp. specialize (IH2 Hp).
        destruct (role_eqb (pi_role p') Spectator); simpl; lia.
Qed.

Lemma slot_holders_obj_delete (o : Obj PlayerInfo) (k : string) :
  length (slot_holders (obj_delete o k)) <= length (slot_holders o).
Proof.
  unfold slot_holders, obj_values.
  induction o as [|[k' p'] o IH]; simpl.
  - lia.
  - destruct (String.eqb k' k); simpl;
      destruct (role_eqb (pi_role p') Spectator); simpl; lia.
Qed.

Lemma addPlayerSocket_slot_holders (id : SocketId) (role : Role) (s : State.t) :
  length (slot_holders (State.getAllPlayerSockets (State.addPlayerSocket id role s)))
    <= S (length (slot_holders (State.getAllPlayerSockets s))) /\
  (role = Spectator ->
   length (slot_holders (State.getAllPlayerSockets (State.addPlayerSocket id role s)))
     <= length (slot_holders (State.getAllPlayerSockets s))).
Proof.
  unfold State.addPlayerSocket, State.getAllPlayerSockets.
  destruct (truthy_string id); simpl.
  - destruct (slot_holders_obj_set (State._playerSockets s) id (mkPlayerInfo id role))
      as [H1 H2].
    split; [exact H1 | intros Hr; apply H2; exact Hr].
  - split; [lia | intros _; lia].
Qed.

(** The role [connection_assignRole] chooses in [w]. *)
Lemma connection_assignRole_eq (w : World) (id : SocketId) :
  connection_assignRole id w =
  (assigned_role w, with_state (seat id (assigned_role w)) w, []).
Proof.
  unfold connection_assignRole, assigned_role, seat, slot_count.
  unfold bind, read, update, ret. cbn.
  destruct (_ && _); [reflexivity|].
  destruct (_ && _); reflexivity.
Qed.

Lemma connection_checkStart_playerSockets (w : World) (id : SocketId)
    (role : Role) (pick : nat) :
  State.getAllPlayerSockets (state (fst (exec (connection_checkStart id role pick) w)))
  = State.getAllPlayerSockets (state w).
Proof.
  unfold connection_checkStart, startGame, startGame_chooseTarget,
    fetchWordList_request.
  crunch; reflexivity.
Qed.

Lemma on_connection_eq (w : World) (id : SocketId) (pick : nat) :
  exec (on_connection id pick) w =
  let w1 := with_state (seat id (assigned_role w)) w in
  (fst (exec (connection_checkStart id (assigned_role w) pick) w1),
   ToSocket id (assign_role (assigned_role w))
     :: snd (exec (connection_checkStart id (assigned_role w) pick) w1)).
Proof.
  unfold on_connection. rewrite exec_bind. rewrite connection_assignRole_eq.
  rewrite exec_bind. cbn.
  destruct (exec (connection_checkStart _ _ _) _) as [w2 o2]. reflexivity.
Qed.

Lemma seat_slot_holders (id : SocketId) (role : Role) (s : State.t) :
  length (slot_holders (State.getAllPlayerSockets (seat id role s)))
    <= S (length (slot_holders (State.getAllPlayerSockets s))) /\
  (role = Spectator ->
   length (slot_holders (State.getAllPlayerSockets (seat id role s)))
     <= length (slot_holders (State.getAllPlayerSockets s))).
Proof.
  destruct role; unfold seat.
  - split; [|discriminate].
    exact (proj1 (addPlayerSocket_slot_holders id Player1
                    (State.setPlayer1 (Some id) s))).
  - split; [|discriminate].
    exact (proj1 (addPlayerSocket_slot_holders id Player2
                    (State.setPlayer2 (Some id) s))).
  - exact (addPlayerSocket_slot_holders id Spectator s).
Qed.

Lemma assigned_role_slot (w : World) :
  assigned_role w <> Spectator -> slot_count w < MAX_PLAYERS.
Proof.
  unfold assigned_role.
  destruct (Nat.ltb_spec (slot_count w) MAX_PLAYERS) as [Hlt | Hge].
  - intros _. exact Hlt.
  - cbn. intros H. contradiction.
Qed.

Lemma seat_slot_count (w : World) (id : SocketId) :
  slot_count w <= MAX_PLAYERS ->
  slot_count (with_state (seat id (assigned_role w)) w) <= MAX_PLAYERS.
Proof.
  intros Hle.
  destruct (seat_slot_holders id (assigned_role w) (state w)) as [H1 H2].
  pose proof (assigned_role_slot w) as Hslot.
  unfold slot_count in *. cbn [state with_state].
  destruct (assigned_role w).
  - assert (Player1 <> Spectator) as Hne by discriminate.
    specialize (Hslot Hne). lia.
  - assert (Player2 <> Spectator) as Hne by discriminate.
    specialize (Hslot Hne). lia.
  - specialize (H2 eq_refl). lia.
Qed.

Lemma submit_store_playerSockets (w : World) (playerId : SocketId)
    (playerInfo : PlayerInfo) (expr : string) (x : Num) :
  State.getAllPlayerSockets
    (state (fst (exec (submit_store playerId playerInfo expr x) w)))
  = State.getAllPlayerSockets (state w).
Proof.
  rewrite submit_store_eq. cbv zeta.
  destruct (_ =? _); cbn [fst]; [rewrite endGame_playerSockets|]; reflexivity.
Qed.

Lemma settle_playerSockets (w : World) (k : nat) (r : AxiosResult) (pick : nat) :
  State.getAllPlayerSockets (state (fst (step w (Settle k r pick))))
  = State.getAllPlayerSockets (state w).
Proof.
  destruct (nth_error (pending w) k) as [t|] eqn:Hk.
  - rewrite (step_settle w k r pick t Hk).
    destruct t as [| | |playerId playerInfo expr|playerId playerInfo expr v];
      cbn [resume].
    + unfold fetchWordList_resume. crunch; reflexivity.
    + unfold startGame_resume_fetchWordList, fetchWordList_resume,
        startGame_chooseTarget. crunch; reflexivity.
    + unfold startGame_resume_getEmbedding. crunch; reflexivity.
    + unfold submit_resume_calculateVector. crunch; reflexivity.
    + destruct (fulfilled_similarity r) as [x|] eqn:Hr.
      * rewrite (compareToTarget_success _ _ _ _ _ x Hr).
        rewrite submit_store_playerSockets. reflexivity.
      * rewrite (compareToTarget_failure _ _ _ _ _ Hr). reflexivity.
  - rewrite (step_settle_none w k r pick Hk). reflexivity.
Qed.

Lemma vacate_slot_holders (p : PlayerInfo) (id : SocketId) (s : State.t) :
  length (slot_holders (State.getAllPlayerSockets (vacate p id s)))
    <= length (slot_holders (State.getAllPlayerSockets s)).
Proof.
  unfold vacate, State.removePlayerSocket, State.getAllPlayerSockets.
  destruct (role_eqb (pi_role p) Player1), (role_eqb (pi_role p) Player2);
    cbn [State._playerSockets State.setPlayer1 State.setPlayer2];
    destruct (obj_get (State._playerSockets s) id);
    cbn [State._playerSockets State.setPlayer1 State.setPlayer2
         State.with_playerSockets];
    try apply slot_holders_obj_delete; apply Nat.le_refl.
Qed.

(** One event keeps the number of slot holders within [MAX_PLAYERS]. *)
Lemma step_slot_count (w : World) (ev : Event) :
  slot_count w <= MAX_PLAYERS -> slot_count (fst (step w ev)) <= MAX_PLAYERS.
Proof.
  intros Hle.
  destruct ev as [id pick | id | id payload | id | k r pick].
  - unfold step, handle. rewrite on_connection_eq. cbv zeta. cbn [fst].
    unfold slot_count at 1. rewrite connection_checkStart_playerSockets.
    apply seat_slot_count. exact Hle.
  - unfold step, handle.
    destruct (State.getPlayerSocketInfo (state w) id) as [p|] eqn:Hp.
    + rewrite (on_disconnect_known w id p Hp). cbv zeta.
      pose proof (vacate_slot_holders p id (state w)) as Hv.
      unfold slot_count in *.
      destruct (_ && _); cbn [fst]; [rewrite endGame_playerSockets|];
        cbn [state with_state]; lia.
    + rewrite (on_disconnect_unknown w id Hp). exact Hle.
  - unfold step, handle, on_submit_expression. unfold slot_count in *.
    crunch; exact Hle.
  - cbn. unfold MAX_PLAYERS. lia.
  - unfold slot_count in *. rewrite settle_playerSockets. exact Hle.
Qed.

Lemma run_slot_count (es : list Event) (w : World) :
  slot_count w <= MAX_PLAYERS -> slot_count (fst (run w es)) <= MAX_PLAYERS.
Proof.
  revert w. induction es as [|e es IH]; intros w Hle.
  - exact Hle.
  - simpl. pose proof (step_slot_count w e Hle) as Hstep.
    destruct (step w e) as [w1 o1]. specialize (IH w1 Hstep).
    destruct (run w1 es) as [w2 o2]. exact IH.
Qed.

(** C3: after every sequence of events at most two participants hold a slot
    role, and when two participants hold one, or both slots are taken, a
    connecting participant is told [Spectator] and recorded as
    [Spectator]. *)
Theorem at_most_two_slot_holders (es : list Event) :
  slot_count (fst (run initial es)) <= MAX_PLAYERS /\
  forall id pick,
    slot_count (fst (run initial es)) = MAX_PLAYERS \/
    (truthy (State.getPlayer1 (state (fst (run initial es)))) = true /\
     truthy (State.getPlayer2 (state (fst (run initial es)))) = true) ->
    hd_error (snd (step (fst (run initial es)) (Connect id pick)))
      = Some (ToSocket id (assign_role Spectator)) /\
    (truthy_string id = true ->
     State.getPlayerSocketInfo
       (state (fst (step (fst (run initial es)) (Connect id pick)))) id
       = Some (mkPlayerInfo id Spectator)).
Proof.
  split.
  - apply run_slot_count. cbn. unfold MAX_PLAYERS. lia.
  - intros id pick Hfull. set (w := fst (run initial es)) in *.
    assert (Hrole : assigned_role w = Spectator).
    { unfold assigned_role. destruct Hfull as [Hc | [H1 H2]].
      - rewrite Hc. reflexivity.
      - rewrite H1, H2. rewrite !andb_false_r. reflexivity. }
    unfold step, handle. rewrite on_connection_eq. cbv zeta. rewrite Hrole.
    split; [reflexivity|]. cbn [fst].
    intros Hid. unfold State.getPlayerSocketInfo.
    change (State._playerSockets ?s) with (State.getAllPlayerSockets s).
    rewrite connection_checkStart_playerSockets. cbn.
    unfold State.addPlayerSocket. rewrite Hid. cbn.
    apply obj_get_set_same.
Qed.

Lemma at_most_two_slot_holders_witness :
  hd_error (snd (step (fst (run initial round_started)) (Connect socket_C 0)))
    = Some (ToSocket socket_C (assign_role Spectator)) /\
  (truthy_string socket_C = true ->
   State.getPlayerSocketInfo
     (state (fst (step (fst (run initial round_started)) (Connect socket_C 0))))
     socket_C
     = Some (mkPlayerInfo socket_C Spectator)).
Proof.
  apply (proj2 (at_most_two_slot_holders round_started) socket_C 0).
  left. reflexivity.
Defined.

(** ** The active flag and the target *)

Lemma In_remove_nth_other {A : Type} (k : nat) (l : list A) (x t : A) :
  nth_error l k = Some t -> x <> t -> In x l -> In x (remove_nth k l).
Proof.
  revert k. induction l as [|a l IH]; intros k Hk Hne Hin.
  - contradiction.
  - destruct k as [|k]; simpl in *.
    + injection Hk as ->. destruct Hin as [-> | Hin]; [contradiction | exact Hin].
    + destruct Hin as [-> | Hin]; [left; reflexivity|].
      right. eapply IH; eassumption.
Qed.

Lemma startGame_suspended_In (w : World) (t : Task) :
  is_startGame_task t = true -> In t (pending w) -> startGame_suspended w = true.
Proof.
  intros Ht Hin. unfold startGame_suspended. apply existsb_exists.
  exists t. split; assumption.
Qed.

Lemma carries_round_consistent (w w' : World) :
  round_consistent w -> carries_round w w' -> round_consistent w'.
Proof.
  intros Hw Hc Ha. destruct (Hc Ha) as (Ha0 & Htw & Htv & Hp).
  destruct (Hw Ha0) as [Hword Hvec]. rewrite Htw, Htv. split.
  - destruct Hword as [Hword | Hin]; [left; exact Hword | right].
    apply Hp; [reflexivity | exact Hin].
  - destruct Hvec as [Hvec | Hs]; [left; exact Hvec | right].
    unfold startGame_suspended in Hs. apply existsb_exists in Hs.
    destruct Hs as (t & Hin & Ht).
    eapply startGame_suspended_In; [exact Ht | apply Hp; assumption].
Qed.

Lemma carries_round_refl (w : World) : carries_round w w.
Proof. intros Ha. repeat split; auto. Qed.

Lemma carries_round_inactive (w w' : World) :
  State.isGameActive (state w') = false -> carries_round w w'.
Proof. intros Hoff Ha. congruence. Qed.

Lemma carries_round_trans (w1 w2 w3 : World) :
  carries_round w1 w2 -> carries_round w2 w3 -> carries_round w1 w3.
Proof.
  intros H12 H23 Ha. destruct (H23 Ha) as (Ha2 & Htw & Htv & Hp).
  destruct (H12 Ha2) as (Ha1 & Htw' & Htv' & Hp').
  repeat split; try congruence. intros t Ht Hin. auto.
Qed.

Lemma endGame_carries_round (w : World) :
  carries_round w (fst (exec endGame w)).
Proof. apply carries_round_inactive. apply endGame_leaves_inactive. Qed.

Lemma seat_isGameActive (id : SocketId) (role : Role) (s : State.t) :
  State.isGameActive (seat id role s) = State.isGameActive s.
Proof.
  destruct role; unfold seat, State.addPlayerSocket;
    destruct (truthy_string id); reflexivity.
Qed.

Lemma vacate_isGameActive (p : PlayerInfo) (id : SocketId) (s : State.t) :
  State.isGameActive (vacate p id s) = State.isGameActive s.
Proof.
  unfold vacate, State.removePlayerSocket.
  destruct (role_eqb (pi_role p) Player1), (role_eqb (pi_role p) Player2); cbn;
    destruct (obj_get (State._playerSockets s) id); reflexivity.
Qed.

Lemma checkStart_consistent (w : World) (id : SocketId) (role : Role) (pick : nat) :
  round_consistent w ->
  round_consistent (fst (exec (connection_checkStart id role pick) w)).
Proof.
  intros Hw.
  unfold connection_checkStart, startGame, startGame_chooseTarget,
    fetchWordList_request.
  crunch; try exact Hw.
  all: intros Ha; cbn in Ha |- *; try discriminate.
  all: unfold startGame_suspended; cbn; rewrite existsb_app; cbn.
  all: rewrite orb_true_r.
  all: split; [|right; reflexivity].
  all: first [left; discriminate | right; apply in_or_app; right; left; reflexivity].
Qed.

Lemma on_connection_consistent (w : World) (id : SocketId) (pick : nat) :
  round_consistent w -> round_consistent (fst (step w (Connect id pick))).
Proof.
  intros Hw. unfold step, handle. rewrite on_connection_eq. cbv zeta. cbn [fst].
  apply checkStart_consistent.
  apply (carries_round_consistent w); [exact Hw|].
  intros Ha. cbn in Ha. rewrite seat_isGameActive in Ha.
  repeat split; auto.
Qed.

Lemma submit_store_carries_round (w : World) (playerId : SocketId)
    (playerInfo : PlayerInfo) (expr : string) (x : Num) :
  carries_round w (fst (exec (submit_store playerId playerInfo expr x) w)).
Proof.
  rewrite submit_store_eq. cbv zeta.
  destruct (_ =? _); cbn [fst].
  - apply carries_round_inactive. apply endGame_leaves_inactive.
  - intros Ha. repeat split; auto.
Qed.

Lemma remove_nth_carries_round (w : World) (k : nat) (t : Task) :
  nth_error (pending w) k = Some t ->
  is_startGame_task t = false ->
  carries_round w (with_pending (remove_nth k (pending w)) w).
Proof.
  intros Hk Ht Ha. repeat split; auto.
  intros t' Ht' Hin. cbn. eapply In_remove_nth_other; [exact Hk | | exact Hin].
  intros ->. congruence.
Qed.

(** One event keeps the round consistent. *)
Lemma step_consistent (w : World) (ev : Event) :
  round_consistent w -> round_consistent (fst (step w ev)).
Proof.
  intros Hw.
  destruct ev as [id pick | id | id payload | id | k r pick].
  - apply on_connection_consistent. exact Hw.
  - apply (carries_round_consistent w); [exact Hw|].
    unfold step, handle.
    destruct (State.getPlayerSocketInfo (state w) id) as [p|] eqn:Hp.
    + rewrite (on_disconnect_known w id p Hp). cbv zeta.
      destruct (_ && _); cbn [fst].
      * apply carries_round_inactive. apply endGame_leaves_inactive.
      * intros Ha. cbn in Ha. rewrite vacate_isGameActive in Ha.
        repeat split; auto.
    + rewrite (on_disconnect_unknown w id Hp). apply carries_round_refl.
  - apply (carries_round_consistent w); [exact Hw|].
    unfold step, handle, on_submit_expression.
    crunch; intros Ha; repeat split; auto.
    intros t Ht Hin. apply in_or_app. left. exact Hin.
  - intros Ha. discriminate.
  - destruct (nth_error (pending w) k) as [t|] eqn:Hk.
    + rewrite (step_settle w k r pick t Hk).
      destruct t as [| | |playerId playerInfo expr|playerId playerInfo expr v];
        cbn [resume].
      * apply (carries_round_consistent w); [exact Hw|].
        apply (carries_round_trans _ _ _
                 (remove_nth_carries_round w k _ Hk eq_refl)).
        rewrite (surjective_pairing (exec _ _)).
        unfold exec. rewrite fetchWordList_resume_eq. cbn.
        intros Ha. repeat split; auto.
      * unfold startGame_resume_fetchWordList. rewrite exec_bind.
        rewrite fetchWordList_resume_eq. unfold startGame_chooseTarget.
        crunch; intros Ha; cbn in Ha |- *; try discriminate.
        all: split; [left; discriminate|right].
        all: unfold startGame_suspended; cbn; rewrite existsb_app; cbn.
        all: rewrite orb_true_r; reflexivity.
      * unfold startGame_resume_getEmbedding.
        crunch; intros Ha; cbn in Ha |- *; try discriminate.
        destruct (Hw Ha) as [Hword _]. split; [|left; discriminate].
        destruct Hword as [Hword | Hin]; [left; exact Hword | right].
        eapply In_remove_nth_other; [exact Hk | discriminate | exact Hin].
      * apply (carries_round_consistent w); [exact Hw|].
        apply (carries_round_trans _ _ _
                 (remove_nth_carries_round w k _ Hk eq_refl)).
        unfold submit_resume_calculateVector.
        crunch; intros Ha; repeat split; auto.
        intros t Ht Hin. apply in_or_app. left. exact Hin.
      * apply (carries_round_consistent w); [exact Hw|].
        apply (carries_round_trans _ _ _
                 (remove_nth_carries_round w k _ Hk eq_refl)).
        destruct (fulfilled_similarity r) as [x|] eqn:Hr.
        -- rewrite (compareToTarget_success _ _ _ _ _ x Hr).
           apply submit_store_carries_round.
        -- rewrite (compareToTarget_failure _ _ _ _ _ Hr).
           apply carries_round_refl.
    + rewrite (step_settle_none w k r pick Hk). exact Hw.
Qed.

Lemma run_consistent (es : list Event) (w : World) :
  round_consistent w -> round_consistent (fst (run w es)).
Proof.
  revert w. induction es as [|e es IH]; intros w Hw.
  - exact Hw.
  - simpl. pose proof (step_consistent w e Hw) as Hstep.
    destruct (step w e) as [w1 o1]. specialize (IH w1 Hstep).
    destruct (run w1 es) as [w2 o2]. exact IH.
Qed.

Lemma startGame_fetching_In (w : World) :
  In Await_startGame_fetchWordList (pending w) -> startGame_fetching w = true.
Proof.
  intros Hin. unfold startGame_fetching. apply existsb_exists.
  exists Await_startGame_fetchWordList. split; [exact Hin | reflexivity].
Qed.

(** C1, as the code has it: in every world the server can be in, while the
    active flag is set the target word is present unless a [startGame] call
    is suspended on its word-list request, and the target vector is present
    unless a [startGame] call is suspended on one of its two requests (the
    word list or the embedding). *)
Theorem active_round_has_target_unless_starting (es : list Event) :
  State.isGameActive (state (fst (run initial es))) = true ->
  (startGame_fetching (fst (run initial es)) = false ->
   targetWord (fst (run initial es)) <> None) /\
  (startGame_suspended (fst (run initial es)) = false ->
   targetVector (fst (run initial es)) <> None).
Proof.
  intros Ha.
  assert (H0 : round_consistent initial) by (intros H; discriminate).
  destruct (run_consistent es initial H0 Ha) as [Hword Hvec]. split.
  - intros Hf. destruct Hword as [Hword | Hin]; [exact Hword|].
    rewrite (startGame_fetching_In _ Hin) in Hf. discriminate.
  - intros Hs. destruct Hvec as [Hvec | Hs']; [exact Hvec | congruence].
Qed.

Lemma active_round_has_target_unless_starting_witness :
  targetWord (fst (run initial round_started)) <> None /\
  targetVector (fst (run initial round_started)) <> None.
Proof.
  destruct (active_round_has_target_unless_starting round_started) as [Hword Hvec].
  - reflexivity.
  - split; [apply Hword | apply Hvec]; reflexivity.
Defined.

(** C1 as stated fails: while [startGame] waits for the word list the active
    flag is set and both the target word and the target vector are [null];
    while it waits for the embedding the flag is set and the target vector
    is [null], which a submission arriving then is told. *)
Lemma active_flag_set_before_target :
  (State.isGameActive (state word_list_in_flight) = true /\
   targetWord word_list_in_flight = None /\
   targetVector word_list_in_flight = None) /\
  (State.isGameActive (state embedding_in_flight) = true /\
   targetVector embedding_in_flight = None /\
   step embedding_in_flight (SubmitExpression socket_A (Some "sea")) =
     (embedding_in_flight,
      [ToSocket socket_A
         (error_message "Cannot submit: Target word not set correctly.")])).
Proof. vm_compute. repeat split; reflexivity. Qed.

(** ** Validation of a submission *)

Lemma on_submit_rejected (w : World) (id : SocketId) (payload : option string)
    (text : string) :
  submit_validate w id payload = inl text ->
  step w (SubmitExpression id payload) = (w, [ToSocket id (error_message text)]).
Proof.
  intros Hv. unfold step, handle, on_submit_expression. unfold_handler.
  rewrite Hv. reflexivity.
Qed.

Lemma on_submit_accepted (w : World) (id : SocketId) (payload : option string)
    (p : PlayerInfo) (e : string) :
  submit_validate w id payload = inr (p, e) ->
  step w (SubmitExpression id payload) =
  (with_pending (pending w ++ [Await_submit_calculateVector id p e]) w,
   [Http (CalculateVector e)]).
Proof.
  intros Hv. unfold step, handle, on_submit_expression. unfold_handler.
  rewrite Hv. reflexivity.
Qed.




(** ** One submission per participant and round *)

(** C2 fails on the code: Player 1 sends [submit_expression] twice before the
    requests of the first settle.  Both pass the validation, both are
    scored, and the second overwrites the stored submission of the first;
    both are announced. *)
Theorem second_submission_overwrites_first :
  obj_get (playerSubmissions (fst (run initial A_submits_twice))) socket_A =
    Some (mkSubmission "sea" (Some (Finite (81 # 100)))) /\
  State.isGameActive (state (fst (run initial A_submits_twice))) = true /\
  run (fst (run initial A_submits_twice)) second_submission_settles =
    (with_pending []
       (with_playerSubmissions
          [(socket_A, mkSubmission "rock" (Some (Finite (22 # 100))))]
          (fst (run initial A_submits_twice))),
     [Http (CompareToTarget (Some "ocean") [Finite (1 # 2); Finite (1 # 4)]);
      ToAll (player_submitted Player1 "rock")]).
Proof. vm_compute. repeat split; reflexivity. Qed.

(** What the code does guarantee: a [submit_expression] received while a
    submission of the sender is stored is answered with the error and
    changes nothing. *)
Lemma duplicate_submission_rejected (w : World) (id : SocketId)
    (payload : option string) (sub : Submission) :
  State.isGameActive (state w) = true ->
  (exists p, State.getPlayerSocketInfo (state w) id = Some p /\
             pi_role p <> Spectator) ->
  obj_get (playerSubmissions w) id = Some sub ->
  step w (SubmitExpression id payload) =
  (w, [ToSocket id (error_message "You have already submitted for this round.")]).
Proof.
  intros Ha (p & Hp & Hrole) Hsub. apply on_submit_rejected.
  unfold submit_validate. rewrite Ha, Hp, Hsub. cbn.
  destruct (pi_role p); try reflexivity. contradiction.
Qed.

(** ** Results after a disconnect *)

Lemma obj_get_In {V : Type} (o : Obj V) (k : string) (v : V) :
  obj_get o k = Some v -> In (k, v) o.
Proof.
  induction o as [|[k' v'] o IH]; simpl; [discriminate|].
  destruct (String.eqb k' k) eqn:E.
  - apply String.eqb_eq in E. subst k'. intros H. injection H as ->.
    left. reflexivity.
  - intros H. right. apply IH. exact H.
Qed.

Lemma obj_set_all_scored (o : Obj Submission) (k : string) (sub : Submission) :
  all_scored o -> score sub <> None -> all_scored (obj_set o k sub).
Proof.
  unfold all_scored. intros Ho Hsub.
  induction o as [|[k' v'] o IH]; simpl.
  - constructor; [exact Hsub | constructor].
  - inversion Ho as [|? ? Hhd Htl]; subst.
    destruct (String.eqb k' k).
    + constructor; [exact Hsub | exact Htl].
    + constructor; [exact Hhd | apply IH; exact Htl].
Qed.

Lemma step_all_scored (w : World) (ev : Event) :
  all_scored (playerSubmissions w) ->
  all_scored (playerSubmissions (fst (step w ev))).
Proof.
  intros Hw.
  destruct (step_playerSubmissions w ev) as [H | [H | H]].
  - rewrite H. exact Hw.
  - rewrite H. constructor.
  - destruct H as (k & r & pick & playerId & playerInfo & expr & v & x
                   & _ & _ & _ & H).
    rewrite H. apply obj_set_all_scored; [exact Hw | discriminate].
Qed.

Lemma run_all_scored (es : list Event) (w : World) :
  all_scored (playerSubmissions w) ->
  all_scored (playerSubmissions (fst (run w es))).
Proof.
  revert w. induction es as [|e es IH]; intros w Hw.
  - exact Hw.
  - simpl. pose proof (step_all_scored w e Hw) as Hstep.
    destruct (step w e) as [w1 o1]. specialize (IH w1 Hstep).
    destruct (run w1 es) as [w2 o2]. exact IH.
Qed.

Lemma row_of_scored (st : State.t) (subs : Obj Submission) (id : SocketId) :
  all_scored subs -> In id (obj_keys subs) ->
  row_score (row_of st subs id) <> NotAvailable.
Proof.
  intros Hall Hin. unfold row_of.
  destruct (obj_get subs id) as [[e [x|]]|] eqn:Hget; cbn.
  - discriminate.
  - apply obj_get_In in Hget. unfold all_scored in Hall.
    rewrite Forall_forall in Hall. specialize (Hall _ Hget). cbn in Hall.
    contradiction.
  - exfalso. clear Hall. induction subs as [|[k v] subs IH]; simpl in *.
    + contradiction.
    + destruct (String.eqb k id) eqn:E; [discriminate|].
      destruct Hin as [-> | Hin]; [rewrite String.eqb_refl in E; discriminate|].
      apply IH; assumption.
Qed.

(** C5 fails on the code: the results of [game_over] have one row per stored
    submission, not one per slot holder, and in no world the server can be
    in does a row carry the "N/A" score of the no-submission branch.  When
    Player 2 leaves without having submitted, the round-over broadcast lists
    Player 1 only. *)
Theorem results_list_stored_submissions_only :
  (forall st subs,
     snd (endGame_tally st subs) = map (row_of st subs) (obj_keys subs)) /\
  (forall es st row,
     In row (snd (endGame_tally st (playerSubmissions (fst (run initial es))))) ->
     row_score row <> NotAvailable) /\
  snd (run (fst (run initial (round_started ++ A_submits_sea)))
         [Disconnect socket_B]) =
    [ToAll (player_left "Player 2 disconnected. Game over.");
     ToAll (game_over "Player 1 wins!"
              [mkResultRow "Player 1" "sea" (ToFixed4 (Finite (81 # 100)))]
              (Some (Some "ocean")))].
Proof.
  split; [|split].
  - intros st subs. apply endGame_tally_spec.
  - intros es st row Hin.
    rewrite (proj2 (endGame_tally_spec st _)) in Hin.
    apply in_map_iff in Hin. destruct Hin as (id & <- & Hid).
    apply row_of_scored; [|exact Hid].
    apply run_all_scored. constructor.
  - vm_compute. reflexivity.
Qed.

(** * Further properties of the handlers *)

(** ** Keys of a dictionary *)

Lemma obj_set_In {V : Type} (o : Obj V) (k : string) (v : V) (k' : string) (v' : V) :
  In (k', v') (obj_set o k v) -> (k', v') = (k, v) \/ In (k', v') o.
Proof.
  induction o as [|[k0 v0] o IH]; simpl.
  - intros [H | []]. left. symmetry. exact H.
  - destruct (String.eqb k0 k) eqn:E.
    + apply String.eqb_eq in E. subst k0. intros [H | H].
      * left. symmetry. exact H.
      * right. right. exact H.
    + intros [H | H].
      * right. left. exact H.
      * destruct (IH H) as [Hl | Hr]; [left; exact Hl | right; right; exact Hr].
Qed.

Lemma obj_set_keys {V : Type} (o : Obj V) (k : string) (v : V) :
  (In k (obj_keys o) /\ obj_keys (obj_set o k v) = obj_keys o) \/
  (~ In k (obj_keys o) /\ obj_keys (obj_set o k v) = obj_keys o ++ [k]).
Proof.
  unfold obj_keys. induction o as [|[k0 v0] o IH]; simpl.
  - right. split; [intros [] | reflexivity].
  - destruct (String.eqb k0 k) eqn:E.
    + apply String.eqb_eq in E. subst k0. left. split; [left; reflexivity | reflexivity].
    + apply String.eqb_neq in E. simpl.
      destruct IH as [[Hin Heq] | [Hnin Heq]].
      * left. split; [right; exact Hin | rewrite Heq; reflexivity].
      * right. split; [|rewrite Heq; reflexivity].
        intros [H | H]; [contradiction | apply Hnin; exact H].
Qed.

Lemma obj_set_NoDup {V : Type} (o : Obj V) (k : string) (v : V) :
  NoDup (obj_keys o) -> NoDup (obj_keys (obj_set o k v)).
Proof.
  intros Hnd. destruct (obj_set_keys o k v) as [[_ Heq] | [Hnin Heq]]; rewrite Heq.
  - exact Hnd.
  - apply NoDup_app; [exact Hnd | repeat constructor; intros [] |].
    intros x Hx [<- | []]. contradiction.
Qed.

Lemma obj_delete_In {V : Type} (o : Obj V) (k : string) (k' : string) (v' : V) :
  In (k', v') (obj_delete o k) -> In (k', v') o.
Proof.
  induction o as [|[k0 v0] o IH]; simpl; [intros []|].
  destruct (String.eqb k0 k).
  - intros H. right. exact H.
  - intros [H | H]; [left; exact H | right; apply IH; exact H].
Qed.

Lemma obj_delete_keys_In {V : Type} (o : Obj V) (k x : string) :
  In x (obj_keys (obj_delete o k)) -> In x (obj_keys o).
Proof.
  unfold obj_keys. induction o as [|[k0 v0] o IH]; simpl; [intros []|].
  destruct (String.eqb k0 k); simpl.
  - intros H. right. exact H.
  - intros [H | H]; [left; exact H | right; apply IH; exact H].
Qed.

Lemma obj_delete_NoDup {V : Type} (o : Obj V) (k : string) :
  NoDup (obj_keys o) ->
  NoDup (obj_keys (obj_delete o k)) /\ ~ In k (obj_keys (obj_delete o k)).
Proof.
  unfold obj_keys. induction o as [|[k0 v0] o IH]; simpl; intros Hnd.
  - split; [constructor | intros []].
  - inversion Hnd as [|? ? Hnin Hnd']; subst.
    destruct (String.eqb k0 k) eqn:E.
    + apply String.eqb_eq in E. subst k0. split; assumption.
    + apply String.eqb_neq in E. destruct (IH Hnd') as [IH1 IH2]. simpl. split.
      * constructor; [|exact IH1].
        intros H. apply Hnin. apply (obj_delete_keys_In o k). exact H.
      * intros [H | H]; [contradiction | apply IH2; exact H].
Qed.

Lemma In_obj_keys {V : Type} (o : Obj V) (k : string) (v : V) :
  In (k, v) o -> In k (obj_keys o).
Proof.
  intros H. unfold obj_keys. apply in_map_iff. exists (k, v). split; [reflexivity | exact H].
Qed.

Lemma obj_get_None {V : Type} (o : Obj V) (k : string) :
  ~ In k (obj_keys o) -> obj_get o k = None.
Proof.
  unfold obj_keys. induction o as [|[k0 v0] o IH]; simpl; intros Hnin.
  - reflexivity.
  - destruct (String.eqb k0 k) eqn:E.
    + apply String.eqb_eq in E. subst k0. exfalso. apply Hnin. left. reflexivity.
    + apply IH. intros H. apply Hnin. right. exact H.
Qed.

Lemma obj_delete_absent {V : Type} (o : Obj V) (k : string) :
  ~ In k (obj_keys o) -> obj_delete o k = o.
Proof.
  unfold obj_keys. induction o as [|[k0 v0] o IH]; simpl; intros Hnin.
  - reflexivity.
  - destruct (String.eqb k0 k) eqn:E.
    + apply String.eqb_eq in E. subst k0. exfalso. apply Hnin. left. reflexivity.
    + rewrite IH; [reflexivity|]. intros H. apply Hnin. right. exact H.
Qed.


(** ** The role table and the slot variables *)

Lemma slots_agree_same_seats (s s' : State.t) :
  same_seats s s' -> slots_agree s -> slots_agree s'.
Proof.
  intros (Ht & H1 & H2) (Hnd & Hne & Hag). unfold slots_agree.
  rewrite Ht, H1, H2. repeat split; try assumption; apply (Hag id p); assumption.
Qed.

Lemma same_seats_refl (s : State.t) : same_seats s s.
Proof. repeat split. Qed.

Lemma same_seats_trans (s1 s2 s3 : State.t) :
  same_seats s1 s2 -> same_seats s2 s3 -> same_seats s1 s3.
Proof.
  intros (Ht & H1 & H2) (Ht' & H1' & H2'). repeat split; congruence.
Qed.

Lemma truthy_Some (o : option string) :
  truthy o = true -> exists id, o = Some id /\ id <> EmptyString.
Proof.
  destruct o as [id|]; simpl; [|discriminate].
  unfold truthy_string. intros H. exists id. split; [reflexivity|].
  intros ->. discriminate.
Qed.

Lemma truthy_string_neq (id : string) :
  truthy_string id = true <-> id <> EmptyString.
Proof.
  unfold truthy_string. split.
  - intros H ->. discriminate.
  - intros H. destruct (String.eqb id EmptyString) eqn:E; [|reflexivity].
    apply String.eqb_eq in E. contradiction.
Qed.

Lemma addPlayerSocket_slots_agree (id : SocketId) (role : Role) (s : State.t) :
  slots_agree s ->
  (role = Player1 -> State.getPlayer1 s = Some id) ->
  (role = Player2 -> State.getPlayer2 s = Some id) ->
  slots_agree (State.addPlayerSocket id role s).
Proof.
  intros (Hnd & Hne & Hag) Hr1 Hr2. unfold State.addPlayerSocket.
  destruct (truthy_string id) eqn:Hid; [|repeat split; try assumption; apply (Hag id0 p); assumption].
  apply truthy_string_neq in Hid.
  unfold slots_agree, State.getAllPlayerSockets, State.getPlayer1, State.getPlayer2 in *.
  cbn [State._playerSockets State.with_playerSockets State._player1 State._player2].
  split; [|split].
  - apply obj_set_NoDup. exact Hnd.
  - destruct (obj_set_keys (State._playerSockets s) id (mkPlayerInfo id role))
      as [[_ Heq] | [_ Heq]]; rewrite Heq; [exact Hne|].
    intros H. apply in_app_or in H. destruct H as [H | [H | []]].
    + apply Hne. exact H.
    + apply Hid. exact H.
  - intros id0 p Hin. apply obj_set_In in Hin. destruct Hin as [Heq | Hin].
    + injection Heq as -> ->. cbn. split; assumption.
    + apply Hag. exact Hin.
Qed.

Lemma no_entry_with_free_slot (s : State.t) (id : SocketId) (p : PlayerInfo) :
  slots_agree s -> In (id, p) (State.getAllPlayerSockets s) ->
  (pi_role p = Player1 -> truthy (State.getPlayer1 s) = true) /\
  (pi_role p = Player2 -> truthy (State.getPlayer2 s) = true).
Proof.
  intros (Hnd & Hne & Hag) Hin. destruct (Hag id p Hin) as [H1 H2].
  assert (Hid : truthy_string id = true).
  { apply truthy_string_neq. intros ->. apply Hne.
    eapply In_obj_keys. exact Hin. }
  split; intros Hr; [rewrite (H1 Hr) | rewrite (H2 Hr)]; exact Hid.
Qed.

Lemma seat_slots_agree (s : State.t) (id : SocketId) (role : Role) :
  slots_agree s ->
  (role = Player1 -> truthy (State.getPlayer1 s) = false) ->
  (role = Player2 -> truthy (State.getPlayer2 s) = false) ->
  slots_agree (seat id role s).
Proof.
  intros Hs Hr1 Hr2. pose proof Hs as (Hnd & Hne & Hag).
  destruct role; unfold seat.
  - apply addPlayerSocket_slots_agree; [|reflexivity|discriminate].
    repeat split; try assumption.
    + intros Hp. exfalso.
      destruct (no_entry_with_free_slot s id0 p Hs H) as [Ht _].
      rewrite (Ht Hp) in Hr1. specialize (Hr1 eq_refl). discriminate.
    + apply (Hag id0 p H).
  - apply addPlayerSocket_slots_agree; [|discriminate|reflexivity].
    repeat split; try assumption.
    + apply (Hag id0 p H).
    + intros Hp. exfalso.
      destruct (no_entry_with_free_slot s id0 p Hs H) as [_ Ht].
      rewrite (Ht Hp) in Hr2. specialize (Hr2 eq_refl). discriminate.
  - apply addPlayerSocket_slots_agree; [exact Hs|discriminate|discriminate].
Qed.

Lemma role_eqb_eq (a b : Role) : role_eqb a b = true <-> a = b.
Proof. destruct a, b; simpl; split; intros H; try reflexivity; discriminate. Qed.

Lemma vacate_slots_agree (s : State.t) (id : SocketId) (p : PlayerInfo) :
  State.getPlayerSocketInfo s id = Some p ->
  slots_agree s -> slots_agree (vacate p id s).
Proof.
  intros Hget (Hnd & Hne & Hag).
  pose proof (obj_get_In _ _ _ Hget) as Hin.
  destruct (Hag id p Hin) as [Hp1 Hp2].
  destruct (obj_delete_NoDup (State._playerSockets s) id Hnd) as [Hnd' Hgone].
  assert (Htable : State.getAllPlayerSockets (vacate p id s)
                   = obj_delete (State._playerSockets s) id).
  { unfold vacate, State.removePlayerSocket, State.getAllPlayerSockets.
    unfold State.getPlayerSocketInfo in Hget.
    destruct (role_eqb (pi_role p) Player1), (role_eqb (pi_role p) Player2);
      cbn [State._playerSockets State.setPlayer1 State.setPlayer2];
      rewrite Hget; reflexivity. }
  assert (Hp1' : State.getPlayer1 (vacate p id s)
                 = if role_eqb (pi_role p) Player1 then None else State.getPlayer1 s).
  { unfold vacate, State.removePlayerSocket, State.getPlayer1.
    unfold State.getPlayerSocketInfo in Hget.
    destruct (role_eqb (pi_role p) Player1), (role_eqb (pi_role p) Player2);
      cbn [State._playerSockets State.setPlayer1 State.setPlayer2];
      rewrite Hget; reflexivity. }
  assert (Hp2' : State.getPlayer2 (vacate p id s)
                 = if role_eqb (pi_role p) Player2 then None else State.getPlayer2 s).
  { unfold vacate, State.removePlayerSocket, State.getPlayer2.
    unfold State.getPlayerSocketInfo in Hget.
    destruct (role_eqb (pi_role p) Player1), (role_eqb (pi_role p) Player2);
      cbn [State._playerSockets State.setPlayer1 State.setPlayer2];
      rewrite Hget; reflexivity. }
  unfold slots_agree. rewrite Htable, Hp1', Hp2'. split; [|split].
  - exact Hnd'.
  - intros H. apply Hne. eapply obj_delete_keys_In. exact H.
  - intros x q Hx.
    assert (Hxid : x <> id).
    { intros ->. apply Hgone. eapply In_obj_keys. exact Hx. }
    apply obj_delete_In in Hx. destruct (Hag x q Hx) as [Hq1 Hq2]. split.
    + intros Hq. destruct (role_eqb (pi_role p) Player1) eqn:E.
      * apply role_eqb_eq in E. rewrite (Hp1 E) in Hq1.
        specialize (Hq1 Hq). injection Hq1 as Heq. congruence.
      * apply Hq1. exact Hq.
    + intros Hq. destruct (role_eqb (pi_role p) Player2) eqn:E.
      * apply role_eqb_eq in E. rewrite (Hp2 E) in Hq2.
        specialize (Hq2 Hq). injection Hq2 as Heq. congruence.
      * apply Hq2. exact Hq.
Qed.

Lemma assigned_role_free_slot (w : World) :
  (assigned_role w = Player1 -> truthy (State.getPlayer1 (state w)) = false) /\
  (assigned_role w = Player2 -> truthy (State.getPlayer2 (state w)) = false).
Proof.
  unfold assigned_role.
  destruct (slot_count w <? MAX_PLAYERS); cbn;
    destruct (truthy (State.getPlayer1 (state w)));
    destruct (truthy (State.getPlayer2 (state w))); cbn;
    split; intros H; try reflexivity; discriminate.
Qed.

Lemma endGame_same_seats (w : World) :
  same_seats (state w) (state (fst (exec endGame w))).
Proof.
  destruct (State.isGameActive (state w)) eqn:Ha.
  - destruct (targetVector w) as [v|] eqn:Hv.
    + rewrite (endGame_active w v Ha Hv). repeat split.
    + rewrite (endGame_missing_vector w Ha Hv). repeat split.
  - rewrite (endGame_inactive w Ha). apply same_seats_refl.
Qed.

Lemma checkStart_same_seats (w : World) (id : SocketId) (role : Role) (pick : nat) :
  same_seats (state w) (state (fst (exec (connection_checkStart id role pick) w))).
Proof.
  unfold connection_checkStart, startGame, startGame_chooseTarget,
    fetchWordList_request.
  crunch; repeat split.
Qed.

Lemma submit_store_same_seats (w : World) (playerId : SocketId)
    (playerInfo : PlayerInfo) (expr : string) (x : Num) :
  same_seats (state w)
    (state (fst (exec (submit_store playerId playerInfo expr x) w))).
Proof.
  rewrite submit_store_eq. cbv zeta.
  destruct (_ =? _); cbn [fst].
  - apply (same_seats_trans _ _ _ (same_seats_refl _)).
    apply (endGame_same_seats
             (with_playerSubmissions
                (obj_set (playerSubmissions w) playerId
                   (mkSubmission expr (Some x))) w)).
  - repeat split.
Qed.

Lemma settle_same_seats (w : World) (k : nat) (r : AxiosResult) (pick : nat) :
  same_seats (state w) (state (fst (step w (Settle k r pick)))).
Proof.
  destruct (nth_error (pending w) k) as [t|] eqn:Hk.
  - rewrite (step_settle w k r pick t Hk).
    destruct t as [| | |playerId playerInfo expr|playerId playerInfo expr v];
      cbn [resume].
    + unfold fetchWordList_resume. crunch; repeat split.
    + unfold startGame_resume_fetchWordList, fetchWordList_resume,
        startGame_chooseTarget. crunch; repeat split.
    + unfold startGame_resume_getEmbedding. crunch; repeat split.
    + unfold submit_resume_calculateVector. crunch; repeat split.
    + destruct (fulfilled_similarity r) as [x|] eqn:Hr.
      * rewrite (compareToTarget_success _ _ _ _ _ x Hr).
        apply (submit_store_same_seats (with_pending (remove_nth k (pending w)) w)).
      * rewrite (compareToTarget_failure _ _ _ _ _ Hr). repeat split.
  - rewrite (step_settle_none w k r pick Hk). apply same_seats_refl.
Qed.

Lemma submit_same_seats (w : World) (id : SocketId) (payload : option string) :
  same_seats (state w) (state (fst (step w (SubmitExpression id payload)))).
Proof.
  unfold step, handle, on_submit_expression. crunch; repeat split.
Qed.

(** One event keeps the role table and the slot variables in agreement. *)
Lemma step_slots_agree (w : World) (ev : Event) :
  slots_agree (state w) -> slots_agree (state (fst (step w ev))).
Proof.
  intros Hs.
  destruct ev as [id pick | id | id payload | id | k r pick].
  - unfold step, handle. rewrite on_connection_eq. cbv zeta. cbn [fst].
    eapply slots_agree_same_seats; [apply checkStart_same_seats|].
    cbn [state with_state].
    destruct (assigned_role_free_slot w) as [H1 H2].
    apply seat_slots_agree; assumption.
  - unfold step, handle.
    destruct (State.getPlayerSocketInfo (state w) id) as [p|] eqn:Hp.
    + rewrite (on_disconnect_known w id p Hp). cbv zeta.
      pose proof (vacate_slots_agree (state w) id p Hp Hs) as Hv.
      destruct (_ && _); cbn [fst]; [|exact Hv].
      eapply slots_agree_same_seats; [apply endGame_same_seats|]. exact Hv.
    + rewrite (on_disconnect_unknown w id Hp). exact Hs.
  - eapply slots_agree_same_seats; [apply submit_same_seats | exact Hs].
  - cbn. repeat split; [constructor | intros [] | destruct H | destruct H].
  - eapply slots_agree_same_seats; [apply settle_same_seats | exact Hs].
Qed.

Lemma run_slots_agree (es : list Event) (w : World) :
  slots_agree (state w) -> slots_agree (state (fst (run w es))).
Proof.
  revert w. induction es as [|e es IH]; intros w Hw.
  - exact Hw.
  - simpl. pose proof (step_slots_agree w e Hw) as Hstep.
    destruct (step w e) as [w1 o1]. specialize (IH w1 Hstep).
    destruct (run w1 es) as [w2 o2]. exact IH.
Qed.

Lemma initial_slots_agree : slots_agree (state initial).
Proof. cbn. repeat split; [constructor | intros [] | destruct H | destruct H]. Qed.

Lemma slot_holders_by_role (o : Obj PlayerInfo) :
  length (slot_holders o) = length (with_role Player1 o) + length (with_role Player2 o).
Proof.
  unfold slot_holders, with_role, obj_values.
  induction o as [|[k p] o IH]; simpl; [reflexivity|].
  destruct (pi_role p); simpl; lia.
Qed.

Lemma with_role_In (r : Role) (o : Obj PlayerInfo) :
  with_role r o <> [] -> exists id p, In (id, p) o /\ pi_role p = r.
Proof.
  unfold with_role, obj_values.
  induction o as [|[k p] o IH]; simpl; [intros H; contradiction|].
  destruct (role_eqb (pi_role p) r) eqn:E.
  - intros _. apply role_eqb_eq in E. exists k, p. split; [left; reflexivity | exact E].
  - intros H. destruct (IH H) as (id & q & Hin & Hq).
    exists id, q. split; [right; exact Hin | exact Hq].
Qed.

Lemma with_role_at_most_one (r : Role) (o : Obj PlayerInfo) (a : SocketId) :
  NoDup (obj_keys o) ->
  (forall id p, In (id, p) o -> pi_role p = r -> id = a) ->
  length (with_role r o) <= 1.
Proof.
  unfold with_role, obj_values, obj_keys.
  induction o as [|[k p] o IH]; simpl; intros Hnd Hkey; [lia|].
  inversion Hnd as [|? ? Hnin Hnd']; subst.
  destruct (role_eqb (pi_role p) r) eqn:E.
  - apply role_eqb_eq in E.
    assert (Hk : k = a) by (apply (Hkey k p); [left; reflexivity | exact E]).
    assert (Hnone : filter (fun p0 => role_eqb (pi_role p0) r) (map snd o) = []).
    { destruct (filter (fun p0 => role_eqb (pi_role p0) r) (map snd o)) eqn:Hf;
        [reflexivity|].
      exfalso.
      assert (Hne : with_role r o <> []).
      { unfold with_role, obj_values. rewrite Hf. discriminate. }
      destruct (with_role_In r o Hne) as (id & q & Hin & Hq).
      assert (id = a) by (apply (Hkey id q); [right; exact Hin | exact Hq]).
      subst id k. apply Hnin. apply in_map_iff. exists (a, q).
      split; [reflexivity | exact Hin]. }
    rewrite Hnone. simpl. lia.
  - apply IH; [exact Hnd'|]. intros id q Hin Hq. apply (Hkey id q); [right; exact Hin | exact Hq].
Qed.

Lemma list_eq_dec_nil {A : Type} (l : list A) : l = [] \/ l <> [].
Proof. destruct l; [left; reflexivity | right; discriminate]. Qed.

Lemma slots_agree_counts (s : State.t) :
  slots_agree s ->
  length (with_role Player1 (State.getAllPlayerSockets s)) <= 1 /\
  length (with_role Player2 (State.getAllPlayerSockets s)) <= 1 /\
  (with_role Player1 (State.getAllPlayerSockets s) <> [] ->
   truthy (State.getPlayer1 s) = true) /\
  (with_role Player2 (State.getAllPlayerSockets s) <> [] ->
   truthy (State.getPlayer2 s) = true).
Proof.
  intros Hs. pose proof Hs as (Hnd & Hne & Hag).
  assert (H1 : forall a, State.getPlayer1 s = Some a ->
               length (with_role Player1 (State.getAllPlayerSockets s)) <= 1).
  { intros a Ha. apply (with_role_at_most_one Player1 _ a Hnd).
    intros id p Hin Hp. destruct (Hag id p Hin) as [Hq _].
    rewrite (Hq Hp) in Ha. injection Ha as ->. reflexivity. }
  assert (H2 : forall a, State.getPlayer2 s = Some a ->
               length (with_role Player2 (State.getAllPlayerSockets s)) <= 1).
  { intros a Ha. apply (with_role_at_most_one Player2 _ a Hnd).
    intros id p Hin Hp. destruct (Hag id p Hin) as [_ Hq].
    rewrite (Hq Hp) in Ha. injection Ha as ->. reflexivity. }
  assert (T1 : with_role Player1 (State.getAllPlayerSockets s) <> [] ->
               truthy (State.getPlayer1 s) = true).
  { intros Hne1. destruct (with_role_In _ _ Hne1) as (id & p & Hin & Hp).
    apply (no_entry_with_free_slot s id p Hs Hin). exact Hp. }
  assert (T2 : with_role Player2 (State.getAllPlayerSockets s) <> [] ->
               truthy (State.getPlayer2 s) = true).
  { intros Hne2. destruct (with_role_In _ _ Hne2) as (id & p & Hin & Hp).
    apply (no_entry_with_free_slot s id p Hs Hin). exact Hp. }
  split; [|split; [|split; assumption]].
  - destruct (list_eq_dec_nil (with_role Player1 (State.getAllPlayerSockets s)))
      as [E | E]; [rewrite E; simpl; lia|].
    destruct (truthy_Some _ (T1 E)) as (a & Ha & _). apply (H1 a Ha).
  - destruct (list_eq_dec_nil (with_role Player2 (State.getAllPlayerSockets s)))
      as [E | E]; [rewrite E; simpl; lia|].
    destruct (truthy_Some _ (T2 E)) as (a & Ha & _). apply (H2 a Ha).
Qed.

Lemma slots_agree_full (s : State.t) :
  slots_agree s ->
  length (slot_holders (State.getAllPlayerSockets s)) <= MAX_PLAYERS /\
  (length (slot_holders (State.getAllPlayerSockets s)) = MAX_PLAYERS ->
   truthy (State.getPlayer1 s) = true /\ truthy (State.getPlayer2 s) = true) /\
  (truthy (State.getPlayer1 s) = false \/ truthy (State.getPlayer2 s) = false ->
   length (slot_holders (State.getAllPlayerSockets s)) < MAX_PLAYERS).
Proof.
  intros Hs. destruct (slots_agree_counts s Hs) as (L1 & L2 & T1 & T2).
  rewrite slot_holders_by_role. unfold MAX_PLAYERS.
  assert (N1 : length (with_role Player1 (State.getAllPlayerSockets s)) = 1 ->
               truthy (State.getPlayer1 s) = true).
  { intros H. apply T1. intros E. rewrite E in H. discriminate. }
  assert (N2 : length (with_role Player2 (State.getAllPlayerSockets s)) = 1 ->
               truthy (State.getPlayer2 s) = true).
  { intros H. apply T2. intros E. rewrite E in H. discriminate. }
  split; [lia|]. split.
  - intros H. split; [apply N1 | apply N2]; lia.
  - intros [H | H].
    + destruct (Nat.eq_dec (length (with_role Player1 (State.getAllPlayerSockets s))) 1)
        as [E | E]; [rewrite (N1 E) in H; discriminate | lia].
    + destruct (Nat.eq_dec (length (with_role Player2 (State.getAllPlayerSockets s))) 1)
        as [E | E]; [rewrite (N2 E) in H; discriminate | lia].
Qed.

(** X3: in every world the server can be in, two table entries with the
    same slot role belong to the same socket, and that socket is the one the
    slot variable of the role holds: there is at most one Player 1 and at
    most one Player 2. *)
Theorem slot_roles_are_unique (es : list Event) (id1 id2 : SocketId)
    (p1 p2 : PlayerInfo) :
  State.getPlayerSocketInfo (state (fst (run initial es))) id1 = Some p1 ->
  State.getPlayerSocketInfo (state (fst (run initial es))) id2 = Some p2 ->
  pi_role p1 <> Spectator ->
  pi_role p1 = pi_role p2 ->
  id1 = id2 /\
  (pi_role p1 = Player1 ->
   State.getPlayer1 (state (fst (run initial es))) = Some id1) /\
  (pi_role p1 = Player2 ->
   State.getPlayer2 (state (fst (run initial es))) = Some id1).
Proof.
  intros H1 H2 Hns Heq.
  destruct (run_slots_agree es initial initial_slots_agree) as (_ & _ & Hag).
  apply obj_get_In in H1, H2.
  destruct (Hag id1 p1 H1) as [A1 A2], (Hag id2 p2 H2) as [B1 B2].
  split; [|split; assumption].
  destruct (pi_role p1) eqn:E1.
  - specialize (A1 eq_refl). rewrite (B1 (eq_sym Heq)) in A1. congruence.
  - specialize (A2 eq_refl). rewrite (B2 (eq_sym Heq)) in A2. congruence.
  - contradiction.
Qed.

Lemma slot_roles_are_unique_witness :
  socket_A = socket_A /\
  (pi_role (mkPlayerInfo socket_A Player1) = Player1 ->
   State.getPlayer1 (state (fst (run initial round_started))) = Some socket_A) /\
  (pi_role (mkPlayerInfo socket_A Player1) = Player2 ->
   State.getPlayer2 (state (fst (run initial round_started))) = Some socket_A).
Proof.
  apply (slot_roles_are_unique round_started socket_A socket_A
           (mkPlayerInfo socket_A Player1) (mkPlayerInfo socket_A Player1));
    [reflexivity | reflexivity | discriminate | reflexivity].
Defined.

(** ** A round runs only with both slots taken *)

Lemma checkStart_activates (w : World) (id : SocketId) (role : Role) (pick : nat) :
  State.isGameActive (state (fst (exec (connection_checkStart id role pick) w))) = true ->
  State.isGameActive (state w) = true \/ slot_count w = MAX_PLAYERS.
Proof.
  unfold connection_checkStart, startGame, startGame_chooseTarget,
    fetchWordList_request, slot_count.
  crunch; intros Ha; cbn in Ha; try discriminate; try congruence;
    try (left; first [exact Ha | reflexivity | assumption]).
  all: right; apply andb_prop in Heqb; destruct Heqb as [Hc _];
    apply Nat.eqb_eq in Hc; exact Hc.
Qed.

Lemma step_activates_only_on_connect (w : World) (ev : Event) :
  State.isGameActive (state (fst (step w ev))) = true ->
  State.isGameActive (state w) = true \/ exists id pick, ev = Connect id pick.
Proof.
  destruct ev as [id pick | id | id payload | id | k r pick].
  - intros _. right. exists id, pick. reflexivity.
  - unfold step, handle.
    destruct (State.getPlayerSocketInfo (state w) id) as [p|] eqn:Hp.
    + rewrite (on_disconnect_known w id p Hp). cbv zeta.
      destruct (_ && _); cbn [fst].
      * rewrite endGame_leaves_inactive. discriminate.
      * cbn. rewrite vacate_isGameActive. intros H. left. exact H.
    + rewrite (on_disconnect_unknown w id Hp). intros H. left. exact H.
  - unfold step, handle, on_submit_expression. crunch; intros H; left; exact H.
  - cbn. discriminate.
  - destruct (nth_error (pending w) k) as [t|] eqn:Hk.
    + rewrite (step_settle w k r pick t Hk).
      destruct t as [| | |playerId playerInfo expr|playerId playerInfo expr v];
        cbn [resume].
      * unfold fetchWordList_resume. crunch; intros H; left; exact H.
      * unfold startGame_resume_fetchWordList, fetchWordList_resume,
          startGame_chooseTarget.
        crunch; intros H; cbn in H; try discriminate; left; exact H.
      * unfold startGame_resume_getEmbedding.
        crunch; intros H; cbn in H; try discriminate; left; exact H.
      * unfold submit_resume_calculateVector. crunch; intros H; left; exact H.
      * destruct (fulfilled_similarity r) as [x|] eqn:Hr.
        -- rewrite (compareToTarget_success _ _ _ _ _ x Hr).
           intros H. left.
           destruct (submit_store_carries_round
                       (with_pending (remove_nth k (pending w)) w)
                       playerId playerInfo expr x H) as [Ha _].
           exact Ha.
        -- rewrite (compareToTarget_failure _ _ _ _ _ Hr). intros H. left. exact H.
    + rewrite (step_settle_none w k r pick Hk). intros H. left. exact H.
Qed.

Lemma step_seated_when_active (w : World) (ev : Event) :
  slots_agree (state w) -> seated_when_active w ->
  seated_when_active (fst (step w ev)).
Proof.
  intros Hs Hw Ha.
  destruct ev as [id pick | id | id payload | id | k r pick].
  - revert Ha. unfold step, handle. rewrite on_connection_eq. cbv zeta. cbn [fst].
    intros Ha.
    destruct (checkStart_same_seats (with_state (seat id (assigned_role w)) w)
                id (assigned_role w) pick) as (_ & E1 & E2).
    rewrite E1, E2. cbn [state with_state].
    destruct (checkStart_activates _ _ _ _ Ha) as [Hact | Hfull].
    + cbn in Hact. rewrite seat_isGameActive in Hact.
      destruct (Hw Hact) as [T1 T2].
      assert (Hrole : assigned_role w = Spectator).
      { unfold assigned_role. rewrite T1, T2. rewrite !andb_false_r. reflexivity. }
      rewrite Hrole. unfold seat, State.addPlayerSocket.
      destruct (truthy_string id); split; assumption.
    + destruct (assigned_role_free_slot w) as [F1 F2].
      pose proof (seat_slots_agree (state w) id (assigned_role w) Hs F1 F2) as Hs1.
      destruct (slots_agree_full _ Hs1) as (_ & Hboth & _).
      apply Hboth. exact Hfull.
  - revert Ha. unfold step, handle.
    destruct (State.getPlayerSocketInfo (state w) id) as [p|] eqn:Hp.
    + rewrite (on_disconnect_known w id p Hp). cbv zeta.
      destruct (negb (role_eqb (pi_role p) Spectator)) eqn:Hrole; cbn [andb].
      * destruct (State.isGameActive (state w)) eqn:Hact; cbn [fst].
        -- rewrite endGame_leaves_inactive. discriminate.
        -- cbn. rewrite vacate_isGameActive. congruence.
      * cbn. rewrite vacate_isGameActive. intros Hact.
        destruct (Hw Hact) as [T1 T2].
        apply negb_false_iff in Hrole. apply role_eqb_eq in Hrole.
        unfold vacate, State.removePlayerSocket. rewrite Hrole. cbn.
        destruct (obj_get (State._playerSockets (state w)) id); split; assumption.
    + rewrite (on_disconnect_unknown w id Hp). intros Hact. apply Hw. exact Hact.
  - destruct (submit_same_seats w id payload) as (_ & E1 & E2). rewrite E1, E2.
    destruct (step_activates_only_on_connect _ _ Ha) as [Hact | (? & ? & Hev)];
      [apply Hw; exact Hact | discriminate].
  - cbn in Ha. discriminate.
  - destruct (settle_same_seats w k r pick) as (_ & E1 & E2). rewrite E1, E2.
    destruct (step_activates_only_on_connect _ _ Ha) as [Hact | (? & ? & Hev)];
      [apply Hw; exact Hact | discriminate].
Qed.

Lemma run_seated_when_active (es : list Event) (w : World) :
  slots_agree (state w) -> seated_when_active w ->
  seated_when_active (fst (run w es)).
Proof.
  revert w. induction es as [|e es IH]; intros w Hs Hw.
  - exact Hw.
  - simpl. pose proof (step_slots_agree w e Hs) as Hs1.
    pose proof (step_seated_when_active w e Hs Hw) as Hw1.
    destruct (step w e) as [w1 o1]. specialize (IH w1 Hs1 Hw1).
    destruct (run w1 es) as [w2 o2]. exact IH.
Qed.

(** X4: in every world the server can be in, while the active flag is set
    both slot variables hold a socket id: a round is never active with a
    free slot. *)
Theorem active_round_has_both_slots (es : list Event) :
  State.isGameActive (state (fst (run initial es))) = true ->
  truthy (State.getPlayer1 (state (fst (run initial es)))) = true /\
  truthy (State.getPlayer2 (state (fst (run initial es)))) = true.
Proof.
  apply (run_seated_when_active es initial initial_slots_agree).
  intros H. discriminate.
Qed.

Lemma active_round_has_both_slots_witness :
  truthy (State.getPlayer1 (state (fst (run initial round_started)))) = true /\
  truthy (State.getPlayer2 (state (fst (run initial round_started)))) = true.
Proof.
  apply (active_round_has_both_slots round_started). reflexivity.
Defined.

(** ** Disconnection *)

Lemma vacate_table (s : State.t) (id : SocketId) (p : PlayerInfo) :
  State.getPlayerSocketInfo s id = Some p ->
  State.getAllPlayerSockets (vacate p id s) = obj_delete (State._playerSockets s) id.
Proof.
  intros Hget. unfold vacate, State.removePlayerSocket, State.getAllPlayerSockets.
  unfold State.getPlayerSocketInfo in Hget.
  destruct (role_eqb (pi_role p) Player1), (role_eqb (pi_role p) Player2);
    cbn [State._playerSockets State.setPlayer1 State.setPlayer2];
    rewrite Hget; reflexivity.
Qed.

Lemma vacate_player1 (s : State.t) (id : SocketId) (p : PlayerInfo) :
  State.getPlayer1 (vacate p id s)
  = if role_eqb (pi_role p) Player1 then None else State.getPlayer1 s.
Proof.
  unfold vacate, State.removePlayerSocket, State.getPlayer1.
  destruct (role_eqb (pi_role p) Player1), (role_eqb (pi_role p) Player2);
    cbn [State._playerSockets State.setPlayer1 State.setPlayer2];
    destruct (obj_get (State._playerSockets s) id); reflexivity.
Qed.

Lemma vacate_player2 (s : State.t) (id : SocketId) (p : PlayerInfo) :
  State.getPlayer2 (vacate p id s)
  = if role_eqb (pi_role p) Player2 then None else State.getPlayer2 s.
Proof.
  unfold vacate, State.removePlayerSocket, State.getPlayer2.
  destruct (role_eqb (pi_role p) Player1), (role_eqb (pi_role p) Player2);
    cbn [State._playerSockets State.setPlayer1 State.setPlayer2];
    destruct (obj_get (State._playerSockets s) id); reflexivity.
Qed.

Lemma assigned_role_same_seats (w w' : World) :
  same_seats (state w) (state w') -> assigned_role w' = assigned_role w.
Proof.
  intros (Ht & H1 & H2). unfold assigned_role, slot_count. rewrite Ht, H1, H2.
  reflexivity.
Qed.

Lemma assigned_role_with_free_slot (w : World) :
  slots_agree (state w) ->
  truthy (State.getPlayer1 (state w)) = false \/
  truthy (State.getPlayer2 (state w)) = false ->
  assigned_role w <> Spectator.
Proof.
  intros Hs Hfree. destruct (slots_agree_full _ Hs) as (_ & _ & Hlt).
  specialize (Hlt Hfree). unfold assigned_role, slot_count.
  apply Nat.ltb_lt in Hlt. rewrite Hlt. cbn.
  destruct Hfree as [H | H]; rewrite H; cbn; [discriminate|].
  destruct (truthy (State.getPlayer1 (state w))); cbn; discriminate.
Qed.

Lemma endGame_output (w : World) :
  State.isGameActive (state w) = true ->
  exists reason results tw,
    snd (exec endGame w) = [ToAll (game_over reason results tw)].
Proof.
  intros Ha. destruct (targetVector w) as [v|] eqn:Hv.
  - rewrite (endGame_active w v Ha Hv). cbn. eauto.
  - rewrite (endGame_missing_vector w Ha Hv). cbn. eauto.
Qed.

(** X1: when a participant holding a slot disconnects while the round is
    active, the server broadcasts [player_left] and then one [game_over],
    the round is no longer active, the participant is gone from the role
    table, and the next participant to connect is given a slot role. *)
Theorem slot_holder_leaving_ends_round (es : list Event) (id : SocketId)
    (p : PlayerInfo) :
  State.getPlayerSocketInfo (state (fst (run initial es))) id = Some p ->
  pi_role p <> Spectator ->
  State.isGameActive (state (fst (run initial es))) = true ->
  (exists reason results tw,
     snd (step (fst (run initial es)) (Disconnect id)) =
       [ToAll (player_left
                 (role_name (pi_role p) ++ " disconnected. Game over.")%string);
        ToAll (game_over reason results tw)]) /\
  State.isGameActive (state (fst (step (fst (run initial es)) (Disconnect id))))
    = false /\
  State.getPlayerSocketInfo
    (state (fst (step (fst (run initial es)) (Disconnect id)))) id = None /\
  assigned_role (fst (step (fst (run initial es)) (Disconnect id))) <> Spectator.
Proof.
  set (w := fst (run initial es)). intros Hp Hrole Ha.
  assert (Hs : slots_agree (state w))
    by (apply run_slots_agree; apply initial_slots_agree).
  unfold step, handle. rewrite (on_disconnect_known w id p Hp). cbv zeta.
  assert (Hcond : negb (role_eqb (pi_role p) Spectator)
                  && State.isGameActive (state w) = true).
  { rewrite Ha. destruct (pi_role p); try reflexivity. contradiction. }
  rewrite Hcond. cbn [fst snd].
  set (w1 := with_state (vacate p id) w).
  assert (Ha1 : State.isGameActive (state w1) = true).
  { unfold w1. cbn. rewrite vacate_isGameActive. exact Ha. }
  pose proof (vacate_slots_agree (state w) id p Hp Hs) as Hs1.
  pose proof (endGame_same_seats w1) as Hsame.
  split; [|split; [|split]].
  - destruct (endGame_output w1 Ha1) as (reason & results & tw & Hout).
    exists reason, results, tw. rewrite Hout. reflexivity.
  - apply endGame_leaves_inactive.
  - unfold State.getPlayerSocketInfo.
    change (State._playerSockets ?s) with (State.getAllPlayerSockets s).
    destruct Hsame as (Ht & _ & _). rewrite Ht. unfold w1. cbn [state with_state].
    rewrite (vacate_table _ _ _ Hp). apply obj_get_None.
    destruct Hs as (Hnd & _ & _).
    apply (obj_delete_NoDup (State._playerSockets (state w)) id Hnd).
  - rewrite (assigned_role_same_seats w1 _ Hsame).
    apply assigned_role_with_free_slot; [exact Hs1|].
    unfold w1. cbn [state with_state].
    rewrite vacate_player1, vacate_player2.
    destruct (pi_role p); cbn; [left | right | contradiction]; reflexivity.
Qed.

Lemma slot_holder_leaving_ends_round_witness :
  (exists reason results tw,
     snd (step (fst (run initial round_started)) (Disconnect socket_B)) =
       [ToAll (player_left
                 (role_name (pi_role (mkPlayerInfo socket_B Player2))
                    ++ " disconnected. Game over.")%string);
        ToAll (game_over reason results tw)]) /\
  State.isGameActive
    (state (fst (step (fst (run initial round_started)) (Disconnect socket_B))))
    = false /\
  State.getPlayerSocketInfo
    (state (fst (step (fst (run initial round_started)) (Disconnect socket_B))))
    socket_B = None /\
  assigned_role (fst (step (fst (run initial round_started)) (Disconnect socket_B)))
    <> Spectator.
Proof.
  apply (slot_holder_leaving_ends_round round_started socket_B
           (mkPlayerInfo socket_B Player2));
    [reflexivity | discriminate | reflexivity].
Defined.

(** X2: a disconnect emits something only when the leaver is in the role
    table with a slot role and the round is active.  In every other case
    nothing is emitted and the round is left as it is: same target word and
    vector, same submissions, same active flag, same word list, same pending
    requests. *)
Theorem other_disconnects_are_silent (w : World) (id : SocketId) :
  (snd (step w (Disconnect id)) <> [] <->
   exists p, State.getPlayerSocketInfo (state w) id = Some p /\
             pi_role p <> Spectator /\
             State.isGameActive (state w) = true) /\
  (snd (step w (Disconnect id)) = [] ->
   targetWord (fst (step w (Disconnect id))) = targetWord w /\
   targetVector (fst (step w (Disconnect id))) = targetVector w /\
   playerSubmissions (fst (step w (Disconnect id))) = playerSubmissions w /\
   State.isGameActive (state (fst (step w (Disconnect id))))
     = State.isGameActive (state w) /\
   wordList (fst (step w (Disconnect id))) = wordList w /\
   pending (fst (step w (Disconnect id))) = pending w).
Proof.
  unfold step, handle.
  destruct (State.getPlayerSocketInfo (state w) id) as [p|] eqn:Hp.
  - rewrite (on_disconnect_known w id p Hp). cbv zeta.
    destruct (negb (role_eqb (pi_role p) Spectator)) eqn:Hrole; cbn [andb].
    + destruct (State.isGameActive (state w)) eqn:Ha; cbn [fst snd].
      * split.
        -- split; [|intros _; discriminate].
           intros _. exists p. repeat split.
           intros E. rewrite E in Hrole. discriminate.
        -- discriminate.
      * split.
        -- split; [intros H; contradiction|].
           intros (q & _ & _ & Hq). discriminate.
        -- intros _. cbn. rewrite vacate_isGameActive. repeat split. exact Ha.
    + cbn [fst snd]. split.
      * split; [intros H; contradiction|].
        intros (q & Hq & Hne & _). injection Hq as <-.
        apply negb_false_iff in Hrole. apply role_eqb_eq in Hrole. contradiction.
      * intros _. cbn. rewrite vacate_isGameActive. repeat split.
  - rewrite (on_disconnect_unknown w id Hp). cbn [fst snd]. split.
    + split; [intros H; contradiction|].
      intros (q & Hq & _). discriminate.
    + intros _. repeat split.
Qed.

Lemma other_disconnects_are_silent_witness :
  targetWord (fst (step (fst (run initial round_started)) (Disconnect socket_C)))
    = targetWord (fst (run initial round_started)) /\
  targetVector (fst (step (fst (run initial round_started)) (Disconnect socket_C)))
    = targetVector (fst (run initial round_started)) /\
  playerSubmissions (fst (step (fst (run initial round_started)) (Disconnect socket_C)))
    = playerSubmissions (fst (run initial round_started)) /\
  State.isGameActive
    (state (fst (step (fst (run initial round_started)) (Disconnect socket_C))))
    = State.isGameActive (state (fst (run initial round_started))) /\
  wordList (fst (step (fst (run initial round_started)) (Disconnect socket_C)))
    = wordList (fst (run initial round_started)) /\
  pending (fst (step (fst (run initial round_started)) (Disconnect socket_C)))
    = pending (fst (run initial round_started)).
Proof.
  apply (proj2 (other_disconnects_are_silent (fst (run initial round_started))
                  socket_C)).
  reflexivity.
Defined.

(** ** Forced reset *)


(** ** The embedding request of startGame *)

(** X6: when the embedding request of [startGame] fails (the request is
    rejected or the response has no vector), the server broadcasts one
    error, whose text names the word as "null", and clears the target word,
    the target vector and the active flag; the slots, the role table, the
    submissions and the word list stay as they are and no request is
    issued. *)
Theorem failed_embedding_clears_target (w : World) (k : nat) (r : AxiosResult)
    (pick : nat) :
  nth_error (pending w) k = Some Await_startGame_getEmbedding ->
  fulfilled_vector r = None ->
  snd (step w (Settle k r pick)) =
    [ToAll (error_message
       ("Server error starting game: Could not get embedding for target word "
          ++ double_quote ++ "null" ++ double_quote ++ ".")%string)] /\
  targetWord (fst (step w (Settle k r pick))) = None /\
  targetVector (fst (step w (Settle k r pick))) = None /\
  State.isGameActive (state (fst (step w (Settle k r pick)))) = false /\
  same_seats (state w) (state (fst (step w (Settle k r pick)))) /\
  playerSubmissions (fst (step w (Settle k r pick))) = playerSubmissions w /\
  wordList (fst (step w (Settle k r pick))) = wordList w /\
  pending (fst (step w (Settle k r pick))) = remove_nth k (pending w).
Proof.
  intros Hk Hr. rewrite (step_settle w k r pick _ Hk). cbn [resume].
  unfold startGame_resume_getEmbedding.
  destruct r as [[d|]|e m]; cbn in Hr; try rewrite Hr; cbn; repeat split.
Qed.

Lemma failed_embedding_clears_target_witness :
  snd (step embedding_in_flight (Settle 0 service_down 0)) =
    [ToAll (error_message
       ("Server error starting game: Could not get embedding for target word "
          ++ double_quote ++ "null" ++ double_quote ++ ".")%string)] /\
  targetWord (fst (step embedding_in_flight (Settle 0 service_down 0))) = None /\
  targetVector (fst (step embedding_in_flight (Settle 0 service_down 0))) = None /\
  State.isGameActive (state (fst (step embedding_in_flight (Settle 0 service_down 0))))
    = false /\
  same_seats (state embedding_in_flight)
    (state (fst (step embedding_in_flight (Settle 0 service_down 0)))) /\
  playerSubmissions (fst (step embedding_in_flight (Settle 0 service_down 0)))
    = playerSubmissions embedding_in_flight /\
  wordList (fst (step embedding_in_flight (Settle 0 service_down 0)))
    = wordList embedding_in_flight /\
  pending (fst (step embedding_in_flight (Settle 0 service_down 0)))
    = remove_nth 0 (pending embedding_in_flight).
Proof.
  apply (failed_embedding_clears_target embedding_in_flight 0 service_down 0);
    reflexivity.
Defined.

(** ** The target word *)

Lemma startGame_nonempty (w : World) (pick : nat) (x : string) (xs : list string) :
  wordList w = x :: xs ->
  exec (startGame pick) w =
  (with_pending (pending w ++ [Await_startGame_getEmbedding])
     (with_targetWord
        (Some (nth (pick mod length (wordList w)) (wordList w) EmptyString))
        (with_playerSubmissions [] (with_state (State.setGameActive true) w))),
   [Http (GetEmbedding
            (Some (nth (pick mod length (wordList w)) (wordList w) EmptyString)))]).
Proof.
  intros Hwl. unfold startGame, startGame_chooseTarget. unfold_handler. cbn.
  rewrite Hwl. cbn. rewrite Hwl. reflexivity.
Qed.

Lemma startGame_empty (w : World) (pick : nat) :
  wordList w = [] ->
  exec (startGame pick) w =
  (with_pending (pending w ++ [Await_startGame_fetchWordList])
     (with_playerSubmissions [] (with_state (State.setGameActive true) w)),
   [Http GetWords]).
Proof.
  intros Hwl. unfold startGame. unfold_handler. cbn. rewrite Hwl. reflexivity.
Qed.

(** X7: with a word list at hand, [startGame] takes its target from the
    list, whatever the random draw, and asks for the embedding of exactly
    that word; and every word of the list is the target for some draw. *)
Theorem target_is_drawn_from_word_list (w : World) :
  wordList w <> [] ->
  (forall pick, exists t,
     In t (wordList w) /\
     targetWord (fst (exec (startGame pick) w)) = Some t /\
     snd (exec (startGame pick) w) = [Http (GetEmbedding (Some t))]) /\
  (forall t, In t (wordList w) ->
     exists pick, targetWord (fst (exec (startGame pick) w)) = Some t).
Proof.
  intros Hne. destruct (wordList w) as [|x xs] eqn:Hwl; [contradiction|].
  assert (Hlen : length (wordList w) <> 0) by (rewrite Hwl; discriminate).
  split.
  - intros pick.
    exists (nth (pick mod length (wordList w)) (wordList w) EmptyString).
    rewrite (startGame_nonempty w pick x xs Hwl). rewrite <- Hwl.
    split; [|split; reflexivity].
    apply nth_In. apply Nat.mod_upper_bound. exact Hlen.
  - intros t Hin. rewrite <- Hwl in Hin.
    destruct (In_nth _ _ EmptyString Hin) as (n & Hn & Hnth).
    exists n. rewrite (startGame_nonempty w n x xs Hwl). cbn.
    rewrite (Nat.mod_small _ _ Hn). rewrite Hnth. reflexivity.
Qed.

Lemma target_is_drawn_from_word_list_witness :
  exists pick,
    targetWord (fst (exec (startGame pick)
                       (fst (run initial [Settle 0 words_ok 0])))) = Some "king".
Proof.
  assert (Hne : wordList (fst (run initial [Settle 0 words_ok 0])) <> [])
    by discriminate.
  apply (proj2 (target_is_drawn_from_word_list
                  (fst (run initial [Settle 0 words_ok 0])) Hne)).
  right. left. reflexivity.
Defined.

(** ** The word list *)

(** X8: the word list changes only when a word-list request settles (the one
    sent at setup or the one [startGame] sends), and it then becomes the
    response's list or, for any failed or empty response, the empty list,
    whatever was loaded before. *)
Theorem word_list_changes_only_on_fetch (w : World) (ev : Event) :
  wordList (fst (step w ev)) = wordList w \/
  exists k r pick,
    ev = Settle k r pick /\
    (nth_error (pending w) k = Some Await_setup_fetchWordList \/
     nth_error (pending w) k = Some Await_startGame_fetchWordList) /\
    wordList (fst (step w ev)) = fetched_words r.
Proof.
  destruct ev as [id pick | id | id payload | id | k r pick].
  - left. unfold step, handle, on_connection, connection_assignRole,
      connection_checkStart, startGame, startGame_chooseTarget,
      fetchWordList_request.
    crunch; cbn in *; congruence.
  - left. unfold step, handle.
    destruct (State.getPlayerSocketInfo (state w) id) as [p|] eqn:Hp.
    + rewrite (on_disconnect_known w id p Hp). cbv zeta.
      destruct (_ && _); cbn [fst]; [|reflexivity].
      match goal with
      | |- context [exec endGame ?w0] =>
          destruct (State.isGameActive (state w0)) eqn:Ha;
          [destruct (targetVector w0) as [v|] eqn:Hv;
           [rewrite (endGame_active w0 v Ha Hv)
           |rewrite (endGame_missing_vector w0 Ha Hv)]
          |rewrite (endGame_inactive w0 Ha)]
      end; reflexivity.
    + rewrite (on_disconnect_unknown w id Hp). reflexivity.
  - left. unfold step, handle, on_submit_expression. crunch; reflexivity.
  - left. reflexivity.
  - destruct (nth_error (pending w) k) as [t|] eqn:Hk.
    + rewrite (step_settle w k r pick t Hk).
      destruct t as [| | |playerId playerInfo expr|playerId playerInfo expr v];
        cbn [resume].
      * right. exists k, r, pick. split; [reflexivity|]. split; [left; exact Hk|].
        unfold exec. rewrite fetchWordList_resume_eq. reflexivity.
      * right. exists k, r, pick. split; [reflexivity|]. split; [right; exact Hk|].
        unfold startGame_resume_fetchWordList. rewrite exec_bind.
        rewrite fetchWordList_resume_eq. unfold startGame_chooseTarget.
        crunch; cbn in *; congruence.
      * left. unfold startGame_resume_getEmbedding. crunch; reflexivity.
      * left. unfold submit_resume_calculateVector. crunch; reflexivity.
      * left. destruct (fulfilled_similarity r) as [x|] eqn:Hr.
        -- rewrite (compareToTarget_success _ _ _ _ _ x Hr).
           rewrite submit_store_eq. cbv zeta.
           destruct (_ =? _); cbn [fst]; [|reflexivity].
           match goal with
           | |- context [exec endGame ?w0] =>
               destruct (State.isGameActive (state w0)) eqn:Ha;
               [destruct (targetVector w0) as [v0|] eqn:Hv;
                [rewrite (endGame_active w0 v0 Ha Hv)
                |rewrite (endGame_missing_vector w0 Ha Hv)]
               |rewrite (endGame_inactive w0 Ha)]
           end; reflexivity.
        -- rewrite (compareToTarget_failure _ _ _ _ _ Hr). reflexivity.
    + left. rewrite (step_settle_none w k r pick Hk). reflexivity.
Qed.

(** ** Who submits what *)

Lemma submit_validate_inr (w : World) (id : SocketId) (payload : option string)
    (p : PlayerInfo) (e : string) :
  submit_validate w id payload = inr (p, e) ->
  State.isGameActive (state w) = true /\
  State.getPlayerSocketInfo (state w) id = Some p /\
  pi_role p <> Spectator /\
  obj_get (playerSubmissions w) id = None /\
  payload = Some e /\
  truthy_string e = true /\
  trim_is_empty e = false /\
  targetVector w <> None.
Proof.
  unfold submit_validate. intros Hv.
  destruct (State.isGameActive (state w)) eqn:Ha; cbn in Hv; [|discriminate].
  destruct (State.getPlayerSocketInfo (state w) id) as [p0|] eqn:Hp; [|discriminate].
  destruct (role_eqb (pi_role p0) Spectator) eqn:Hrole; [discriminate|].
  destruct (obj_get (playerSubmissions w) id) as [sub|] eqn:Hsub; [discriminate|].
  destruct payload as [e0|]; [|discriminate].
  destruct (truthy_string e0) eqn:He; cbn in Hv; [|discriminate].
  destruct (trim_is_empty e0) eqn:Hb; [discriminate|].
  destruct (targetVector w); [|discriminate].
  injection Hv as <- <-. repeat split; try assumption; try discriminate.
  intros E. rewrite E in Hrole. discriminate.
Qed.

Lemma endGame_notices_valid (w : World) :
  Forall submitted_notice_valid (snd (exec endGame w)).
Proof.
  destruct (State.isGameActive (state w)) eqn:Ha.
  - destruct (targetVector w) as [v|] eqn:Hv.
    + rewrite (endGame_active w v Ha Hv). repeat constructor.
    + rewrite (endGame_missing_vector w Ha Hv). repeat constructor.
  - rewrite (endGame_inactive w Ha). constructor.
Qed.

Lemma endGame_all_expressed (w : World) :
  all_expressed (playerSubmissions w) ->
  all_expressed (playerSubmissions (fst (exec endGame w))).
Proof.
  intros H. destruct (endGame_playerSubmissions w) as [E | E]; rewrite E;
    [exact H | constructor].
Qed.

Lemma obj_set_Forall {V : Type} (P : string * V -> Prop) (o : Obj V)
    (k : string) (v : V) :
  (forall k', P (k', v)) -> Forall P o -> Forall P (obj_set o k v).
Proof.
  intros Hv Ho. induction o as [|[k' v'] o IH]; simpl.
  - constructor; [apply Hv | constructor].
  - inversion Ho as [|? ? Hhd Htl]; subst.
    destruct (String.eqb k' k).
    + constructor; [apply Hv | exact Htl].
    + constructor; [exact Hhd | apply IH; exact Htl].
Qed.

Lemma Forall_remove_nth {A : Type} (P : A -> Prop) (k : nat) (l : list A) :
  Forall P l -> Forall P (remove_nth k l).
Proof.
  intros H. apply Forall_forall. intros x Hx.
  rewrite Forall_forall in H. apply H. eapply In_remove_nth. exact Hx.
Qed.

Lemma Forall_snoc {A : Type} (P : A -> Prop) (l : list A) (x : A) :
  Forall P l -> P x -> Forall P (l ++ [x]).
Proof.
  intros Hl Hx. apply Forall_app. split; [exact Hl | constructor; [exact Hx | constructor]].
Qed.

(** One event keeps the suspended submit handlers and the stored
    submissions valid, and emits only valid notices. *)
Lemma step_submissions_valid (w : World) (ev : Event) :
  Forall submit_task_valid (pending w) ->
  all_expressed (playerSubmissions w) ->
  Forall submit_task_valid (pending (fst (step w ev))) /\
  all_expressed (playerSubmissions (fst (step w ev))) /\
  Forall submitted_notice_valid (snd (step w ev)).
Proof.
  intros Hp Hs.
  destruct ev as [id pick | id | id payload | id | k r pick].
  - unfold step, handle, on_connection, connection_assignRole,
      connection_checkStart, startGame, startGame_chooseTarget,
      fetchWordList_request.
    crunch; (split; [|split]);
      first [ exact Hp | exact Hs | apply Forall_snoc; [exact Hp | exact I]
            | repeat constructor ].
  - unfold step, handle.
    destruct (State.getPlayerSocketInfo (state w) id) as [p|] eqn:Hget.
    + rewrite (on_disconnect_known w id p Hget). cbv zeta.
      destruct (_ && _); cbn [fst snd].
      * split; [|split].
        -- rewrite endGame_pending. exact Hp.
        -- apply endGame_all_expressed. exact Hs.
        -- constructor; [exact I | apply endGame_notices_valid].
      * split; [exact Hp | split; [exact Hs | constructor]].
    + rewrite (on_disconnect_unknown w id Hget).
      split; [exact Hp | split; [exact Hs | constructor]].
  - destruct (submit_validate w id payload) as [text | [p e]] eqn:Hv.
    + rewrite (on_submit_rejected w id payload text Hv).
      split; [exact Hp | split; [exact Hs | repeat constructor]].
    + rewrite (on_submit_accepted w id payload p e Hv).
      destruct (submit_validate_inr w id payload p e Hv)
        as (_ & _ & Hrole & _ & _ & He & Hb & _).
      split; [|split; [exact Hs | repeat constructor]].
      cbn. apply Forall_snoc; [exact Hp|]. cbn. repeat split; assumption.
  - cbn. split; [exact Hp | split; [constructor | repeat constructor]].
  - destruct (nth_error (pending w) k) as [t|] eqn:Hk.
    + rewrite (step_settle w k r pick t Hk).
      pose proof (Forall_remove_nth _ k _ Hp) as Hp'.
      assert (Ht : submit_task_valid t).
      { rewrite Forall_forall in Hp. apply Hp. eapply nth_error_In. exact Hk. }
      destruct t as [| | |playerId playerInfo expr|playerId playerInfo expr v];
        cbn [resume].
      * unfold exec. rewrite fetchWordList_resume_eq. cbn.
        split; [exact Hp' | split; [exact Hs | constructor]].
      * unfold startGame_resume_fetchWordList. rewrite exec_bind.
        rewrite fetchWordList_resume_eq. unfold startGame_chooseTarget.
        crunch; (split; [|split]);
          first [ exact Hp' | exact Hs | apply Forall_snoc; [exact Hp' | exact I]
                | repeat constructor ].
      * unfold startGame_resume_getEmbedding.
        crunch; (split; [|split]);
          first [ exact Hp' | exact Hs | repeat constructor ].
      * unfold submit_resume_calculateVector.
        crunch; (split; [|split]);
          first [ exact Hp' | exact Hs
                | apply Forall_snoc; [exact Hp' | exact Ht]
                | repeat constructor ].
      * destruct (fulfilled_similarity r) as [x|] eqn:Hr.
        -- rewrite (compareToTarget_success _ _ _ _ _ x Hr).
           rewrite submit_store_eq. cbv zeta.
           destruct Ht as (Hrole & He & Hb).
           assert (Hs' : all_expressed
                           (obj_set (playerSubmissions w) playerId
                              (mkSubmission expr (Some x)))).
           { apply obj_set_Forall; [|exact Hs]. intros k'. cbn. split; assumption. }
           destruct (_ =? _); cbn [fst snd].
           ++ split; [|split].
              ** rewrite endGame_pending. exact Hp'.
              ** apply endGame_all_expressed. exact Hs'.
              ** constructor; [|apply endGame_notices_valid].
                 cbn. repeat split; assumption.
           ++ split; [exact Hp' | split; [exact Hs'|]].
              constructor; [|constructor]. cbn. repeat split; assumption.
        -- rewrite (compareToTarget_failure _ _ _ _ _ Hr).
           split; [exact Hp' | split; [exact Hs | repeat constructor]].
    + rewrite (step_settle_none w k r pick Hk).
      split; [exact Hp | split; [exact Hs | constructor]].
Qed.

Lemma run_submissions_valid (es : list Event) (w : World) :
  Forall submit_task_valid (pending w) ->
  all_expressed (playerSubmissions w) ->
  all_expressed (playerSubmissions (fst (run w es))) /\
  Forall submitted_notice_valid (snd (run w es)).
Proof.
  revert w. induction es as [|e es IH]; intros w Hp Hs.
  - split; [exact Hs | constructor].
  - simpl. destruct (step_submissions_valid w e Hp Hs) as (Hp1 & Hs1 & Ho1).
    destruct (step w e) as [w1 o1]. cbn [fst snd] in *.
    destruct (IH w1 Hp1 Hs1) as [Hs2 Ho2].
    destruct (run w1 es) as [w2 o2]. cbn [fst snd] in *.
    split; [exact Hs2 | apply Forall_app; split; assumption].
Qed.

(** X9: whatever the events, every [player_submitted] the server broadcasts
    names Player 1 or Player 2, never a spectator, and carries an
    expression that is neither empty nor blank; and every stored submission
    has such an expression. *)
Theorem only_slot_holders_submit (es : list Event) :
  (forall r e,
     In (ToAll (player_submitted r e)) (snd (run initial es)) ->
     r <> Spectator /\ truthy_string e = true /\ trim_is_empty e = false) /\
  (forall id sub,
     obj_get (playerSubmissions (fst (run initial es))) id = Some sub ->
     truthy_string (expression sub) = true /\
     trim_is_empty (expression sub) = false).
Proof.
  assert (H0 : Forall submit_task_valid (pending initial))
    by (repeat constructor).
  assert (H1 : all_expressed (playerSubmissions initial)) by constructor.
  destruct (run_submissions_valid es initial H0 H1) as [Hs Ho]. split.
  - intros r e Hin. rewrite Forall_forall in Ho. apply (Ho _ Hin).
  - intros id sub Hget. apply obj_get_In in Hget.
    unfold all_expressed in Hs. rewrite Forall_forall in Hs. apply (Hs _ Hget).
Qed.

Lemma only_slot_holders_submit_witness :
  Player1 <> Spectator /\ truthy_string "sea" = true /\ trim_is_empty "sea" = false.
Proof.
  apply (proj1 (only_slot_holders_submit (round_started ++ A_submits_sea))
           Player1 "sea").
  vm_compute. do 7 right. left. reflexivity.
Defined.

(** ** What a connecting participant is told *)

Lemma checkStart_eq (w : World) (id : SocketId) (role : Role) (pick : nat) :
  exec (connection_checkStart id role pick) w =
  if (slot_count w =? MAX_PLAYERS) && negb (State.isGameActive (state w)) then
    exec (startGame pick) w
  else if (slot_count w <? MAX_PLAYERS) && negb (role_eqb role Spectator) then
    (w, [ToSocket id waiting_for_player])
  else if role_eqb role Spectator then
    if State.isGameActive (state w)
    then (w, [ToSocket id (spectator_info "Game in progress."
                             (Some (targetWord w, playerSubmissions w)))])
    else (w, [ToSocket id (spectator_info "Waiting for players..." None)])
  else (w, []).
Proof.
  unfold connection_checkStart, slot_count.
  rewrite exec_bind. cbn. rewrite exec_bind. cbn.
  destruct (_ && _).
  - destruct (exec (startGame pick) w) as [w2 o2]. reflexivity.
  - destruct (_ && _); [reflexivity|].
    destruct (role_eqb role Spectator); [|reflexivity].
    destruct (State.isGameActive (state w)); reflexivity.
Qed.

Lemma startGame_request (w : World) (pick : nat) :
  snd (exec (startGame pick) w) = [Http GetWords] \/
  exists t, In t (wordList w) /\
            snd (exec (startGame pick) w) = [Http (GetEmbedding (Some t))].
Proof.
  destruct (wordList w) as [|x xs] eqn:Hwl.
  - left. rewrite (startGame_empty w pick Hwl). reflexivity.
  - right. exists (nth (pick mod length (wordList w)) (wordList w) EmptyString).
    rewrite (startGame_nonempty w pick x xs Hwl). rewrite <- Hwl.
    split; [|reflexivity].
    apply nth_In. apply Nat.mod_upper_bound. rewrite Hwl. discriminate.
Qed.

(** X10: a connecting participant is first told its role and then exactly
    one more thing happens.  If after the assignment two participants hold
    slots and no round is active, a round start is triggered (one request to
    the Python service: the word list, or the embedding of a word of the
    list), also when the newcomer is a spectator.  Otherwise a newcomer with
    a slot role is told to wait, and a spectator is told the status, with
    the target word and the submissions exactly when a round is active. *)
Theorem connection_feedback (es : list Event) (id : SocketId) (pick : nat) :
  exists one,
    snd (step (fst (run initial es)) (Connect id pick)) =
      [ToSocket id (assign_role (assigned_role (fst (run initial es)))); one] /\
    ((slot_count (fst (step (fst (run initial es)) (Connect id pick))) = MAX_PLAYERS /\
      State.isGameActive (state (fst (run initial es))) = false /\
      (one = Http GetWords \/
       exists t, In t (wordList (fst (run initial es))) /\
                 one = Http (GetEmbedding (Some t)))) \/
     (slot_count (fst (step (fst (run initial es)) (Connect id pick))) < MAX_PLAYERS /\
      assigned_role (fst (run initial es)) <> Spectator /\
      one = ToSocket id waiting_for_player) \/
     (assigned_role (fst (run initial es)) = Spectator /\
      State.isGameActive (state (fst (run initial es))) = true /\
      one = ToSocket id
              (spectator_info "Game in progress."
                 (Some (targetWord (fst (run initial es)),
                        playerSubmissions (fst (run initial es)))))) \/
     (assigned_role (fst (run initial es)) = Spectator /\
      State.isGameActive (state (fst (run initial es))) = false /\
      slot_count (fst (step (fst (run initial es)) (Connect id pick))) < MAX_PLAYERS /\
      one = ToSocket id (spectator_info "Waiting for players..." None))).
Proof.
  set (w := fst (run initial es)).
  assert (Hs : slots_agree (state w))
    by (apply run_slots_agree; apply initial_slots_agree).
  assert (Hw : seated_when_active w).
  { apply run_seated_when_active; [apply initial_slots_agree|].
    intros H. discriminate. }
  assert (Hcount : slot_count (fst (step w (Connect id pick)))
                   = slot_count (with_state (seat id (assigned_role w)) w)).
  { unfold step, handle. rewrite on_connection_eq. cbv zeta. cbn [fst].
    unfold slot_count. rewrite connection_checkStart_playerSockets. reflexivity. }
  rewrite Hcount. clear Hcount.
  unfold step, handle. rewrite on_connection_eq. cbv zeta. cbn [snd].
  set (w1 := with_state (seat id (assigned_role w)) w).
  assert (Ha1 : State.isGameActive (state w1) = State.isGameActive (state w)).
  { unfold w1. cbn. apply seat_isGameActive. }
  assert (Hle : slot_count w1 <= MAX_PLAYERS).
  { destruct (assigned_role_free_slot w) as [F1 F2].
    pose proof (seat_slots_agree (state w) id (assigned_role w) Hs F1 F2) as Hs1.
    apply (slots_agree_full _ Hs1). }
  rewrite checkStart_eq. rewrite Ha1.
  destruct (Nat.eqb_spec (slot_count w1) MAX_PLAYERS) as [Hfull | Hnot].
  - destruct (State.isGameActive (state w)) eqn:Ha; cbn [negb andb].
    + destruct (Hw Ha) as [T1 T2].
      assert (Hrole : assigned_role w = Spectator).
      { unfold assigned_role. rewrite T1, T2. rewrite !andb_false_r. reflexivity. }
      assert (Hlt : (slot_count w1 <? MAX_PLAYERS) = false).
      { apply Nat.ltb_ge. lia. }
      rewrite Hlt. cbn [andb]. rewrite Hrole. cbn [role_eqb].
      eexists. split; [reflexivity|]. right. right. left. repeat split.
    + destruct (startGame_request w1 pick) as [Hreq | (t & Hin & Hreq)];
        rewrite Hreq; eexists; (split; [reflexivity|]); left;
        (split; [exact Hfull | split; [reflexivity|]]).
      * left. reflexivity.
      * right. exists t. split; [exact Hin | reflexivity].
  - assert (Hlt : slot_count w1 < MAX_PLAYERS) by lia.
    cbn [andb]. apply Nat.ltb_lt in Hlt. rewrite Hlt. cbn [andb].
    apply Nat.ltb_lt in Hlt.
    destruct (role_eqb (assigned_role w) Spectator) eqn:Hrole; cbn [negb].
    + apply role_eqb_eq in Hrole.
      destruct (State.isGameActive (state w)) eqn:Ha;
        eexists; (split; [reflexivity|]); right; right; [left | right];
        repeat split; assumption.
    + eexists. split; [reflexivity|]. right. left.
      split; [exact Hlt | split; [|reflexivity]].
      intros E. rewrite E in Hrole. discriminate.
Qed.

(** * Properties of state.js *)

(** ** Trimming *)

Lemma trim_start_head (s : string) :
  trim_start s = EmptyString \/
  exists c r, trim_start s = String c r /\ is_white_space c = false.
Proof.
  induction s as [|c r IH]; simpl.
  - left. reflexivity.
  - destruct (is_white_space c) eqn:E; [exact IH|].
    right. exists c, r. split; [reflexivity | exact E].
Qed.

Lemma trim_start_empty (s : string) :
  trim_start s = EmptyString <-> all_white_space s = true.
Proof.
  induction s as [|c r IH]; simpl.
  - split; reflexivity.
  - destruct (is_white_space c) eqn:E; simpl; [exact IH|].
    split; discriminate.
Qed.

Lemma trim_end_empty (s : string) :
  trim_end s = EmptyString <-> all_white_space s = true.
Proof.
  induction s as [|c r IH]; simpl.
  - split; reflexivity.
  - destruct (trim_end r) as [|c' r'] eqn:Er.
    + destruct (is_white_space c) eqn:E; simpl.
      * split; [intros _; apply IH; reflexivity | reflexivity].
      * split; discriminate.
    + split; [discriminate|]. intros H. apply andb_prop in H. destruct H as [_ H].
      apply IH in H. discriminate.
Qed.

Lemma trim_end_head (c : ascii) (r : string) :
  is_white_space c = false -> exists r', trim_end (String c r) = String c r'.
Proof.
  intros E. simpl. destruct (trim_end r) as [|c' r'].
  - rewrite E. exists EmptyString. reflexivity.
  - exists (String c' r'). reflexivity.
Qed.

Lemma trim_end_idempotent (s : string) : trim_end (trim_end s) = trim_end s.
Proof.
  induction s as [|c r IH]; simpl; [reflexivity|].
  destruct (trim_end r) as [|c' r'] eqn:Er.
  - destruct (is_white_space c) eqn:E; simpl; [reflexivity|]. rewrite E. reflexivity.
  - change (trim_end (String c (String c' r')))
      with (match trim_end (String c' r') with
            | EmptyString =>
                if is_white_space c then EmptyString else String c EmptyString
            | String c0 r0 => String c (String c0 r0)
            end).
    rewrite IH. reflexivity.
Qed.

Lemma trim_start_of_trimmed (s : string) :
  trim_start (trim_end (trim_start s)) = trim_end (trim_start s).
Proof.
  destruct (trim_start_head s) as [E | (c & r & E & Hc)]; rewrite E.
  - reflexivity.
  - destruct (trim_end_head c r Hc) as (r' & Er). rewrite Er. simpl.
    rewrite Hc. reflexivity.
Qed.

Lemma trim_idempotent (s : string) : trim (trim s) = trim s.
Proof.
  unfold trim. rewrite trim_start_of_trimmed. apply trim_end_idempotent.
Qed.

Lemma trim_empty_iff (s : string) :
  trim s = EmptyString <-> trim_is_empty s = true.
Proof.
  unfold trim, trim_is_empty. rewrite trim_end_empty. split.
  - intros H. apply trim_start_empty.
    destruct (trim_start_head s) as [E | (c & r & E & Hc)]; [exact E|].
    rewrite E in H. simpl in H. rewrite Hc in H. discriminate.
  - intros H. apply trim_start_empty in H. rewrite H. reflexivity.
Qed.

(** ** The target word *)

(** X11: [setTargetWord] ignores an argument that is neither a string nor
    [null].  It stores [null] for [null] and for the empty string, and
    otherwise the trimmed string, which is empty exactly when the word is
    blank; no other variable changes.  Passing a stored word back to the
    setter changes nothing, unless it is the empty string, which turns into
    [null]. *)
Theorem setTargetWord_stores_trimmed (s : State.t) :
  State.setTargetWord Other s = s /\
  State.getTargetWord (State.setTargetWord Null s) = None /\
  State.getTargetWord (State.setTargetWord (Val EmptyString) s) = None /\
  (forall w,
     w <> EmptyString ->
     State.getTargetWord (State.setTargetWord (Val w) s) = Some (trim w) /\
     trim (trim w) = trim w /\
     (trim w = EmptyString <-> trim_is_empty w = true)) /\
  (forall word,
     State.setTargetWord word s
     = State.with_targetWord (State.getTargetWord (State.setTargetWord word s)) s \/
     word = Other) /\
  (forall word,
     word <> Other ->
     State.getTargetWord (State.setTargetWord word s) <> Some EmptyString ->
     State.setTargetWord
       (arg_of_word (State.getTargetWord (State.setTargetWord word s)))
       (State.setTargetWord word s)
     = State.setTargetWord word s) /\
  (forall w,
     w <> EmptyString -> trim_is_empty w = true ->
     State.getTargetWord
       (State.setTargetWord
          (arg_of_word (State.getTargetWord (State.setTargetWord (Val w) s)))
          (State.setTargetWord (Val w) s))
     = None).
Proof.
  split; [reflexivity|]. split; [reflexivity|]. split; [reflexivity|].
  split; [|split; [|split]].
  - intros w Hw. apply truthy_string_neq in Hw.
    unfold State.setTargetWord. rewrite Hw. cbn.
    split; [reflexivity|]. split; [apply trim_idempotent | apply trim_empty_iff].
  - intros [|w|]; [left | left | right]; reflexivity.
  - intros [|w|] Hother Hne; [reflexivity| |contradiction].
    unfold State.setTargetWord in *.
    destruct (truthy_string w) eqn:Hw; cbn in *; [|reflexivity].
    destruct (truthy_string (trim w)) eqn:Ht.
    + cbn. rewrite trim_idempotent. reflexivity.
    + exfalso. apply Hne. unfold truthy_string in Ht.
      apply negb_false_iff in Ht. apply String.eqb_eq in Ht. rewrite Ht.
      reflexivity.
  - intros w Hw Hblank. apply truthy_string_neq in Hw.
    apply trim_empty_iff in Hblank.
    unfold State.setTargetWord. rewrite Hw. cbn. rewrite Hblank. reflexivity.
Qed.

Lemma setTargetWord_stores_trimmed_witness :
  State.getTargetWord (State.setTargetWord (Val "  ocean ") fresh_state)
    = Some (trim "  ocean ") /\
  trim (trim "  ocean ") = trim "  ocean " /\
  (trim "  ocean " = EmptyString <-> trim_is_empty "  ocean " = true).
Proof.
  apply (proj1 (proj2 (proj2 (proj2 (setTargetWord_stores_trimmed fresh_state))))
           "  ocean ").
  discriminate.
Defined.

Example trim_ocean : trim "  ocean " = "ocean".
Proof. reflexivity. Qed.

(** ** Stored submissions *)

Lemma json_copy_idempotent (sub : Submission) :
  json_copy (json_copy sub) = json_copy sub.
Proof.
  unfold json_copy. destruct sub as [e [[| |q|]|]]; reflexivity.
Qed.

(** X12: for a non-empty id that is not the name of a property inherited
    from [Object.prototype], [getPlayerSubmission] after
    [setPlayerSubmission] returns the JSON copy of the submission: the
    expression as given, a finite score as given, and [null] for a score
    that is [NaN] or infinite.  The entries of other such ids are not
    affected, an empty id or an argument that is not an object changes
    nothing, and after [clearPlayerSubmissions] no such id has a
    submission. *)
Theorem stored_submission_round_trip (s : State.t) (id : SocketId)
    (sub : Submission) :
  truthy_string id = true ->
  inherited_key id = false ->
  State.getPlayerSubmission (State.setPlayerSubmission id (Val sub) s) id
    = Some (json_copy sub) /\
  expression (json_copy sub) = expression sub /\
  (forall q, score sub = Some (Finite q) -> json_copy sub = sub) /\
  (score sub = Some NaN \/ score sub = Some Infinity \/
   score sub = Some NegInfinity -> score (json_copy sub) = None) /\
  (forall id', id <> id' -> inherited_key id' = false ->
     State.getPlayerSubmission (State.setPlayerSubmission id (Val sub) s) id'
     = State.getPlayerSubmission s id') /\
  State.setPlayerSubmission EmptyString (Val sub) s = s /\
  State.setPlayerSubmission id Null s = s /\
  State.setPlayerSubmission id Other s = s /\
  (forall id', inherited_key id' = false ->
     State.getPlayerSubmission
       (State.clearPlayerSubmissions (State.setPlayerSubmission id (Val sub) s)) id'
     = None).
Proof.
  intros Hid _. unfold State.getPlayerSubmission, State.setPlayerSubmission.
  rewrite Hid. cbn [State._playerSubmissions State.with_playerSubmissions].
  split; [|split; [|split; [|split; [|split; [|split; [|split; [|split]]]]]]].
  - rewrite obj_get_set_same. rewrite json_copy_idempotent. reflexivity.
  - reflexivity.
  - intros q Hq. destruct sub as [e sc]. cbn in Hq. subst sc. reflexivity.
  - intros [H | [H | H]]; unfold json_copy; rewrite H; reflexivity.
  - intros id' Hne _. rewrite (obj_get_set_other _ _ _ _ Hne). reflexivity.
  - reflexivity.
  - reflexivity.
  - reflexivity.
  - intros id' _. reflexivity.
Qed.

Lemma stored_submission_round_trip_witness :
  State.getPlayerSubmission
    (State.setPlayerSubmission socket_A
       (Val (mkSubmission "sea" (Some Infinity))) fresh_state) socket_A
    = Some (mkSubmission "sea" None).
Proof.
  apply (proj1 (stored_submission_round_trip fresh_state socket_A
                  (mkSubmission "sea" (Some Infinity)) eq_refl eq_refl)).
Defined.

(** * Properties of engine.js *)

(** [_startGameIfReady] either returns [{ gameStarted: false }] and changes
    nothing, or throws after it has set the flag and the current player. *)
Lemma startGameIfReady_eq (s : State.t) :
  Engine._startGameIfReady s =
  if truthy (State.getPlayer1 s) && truthy (State.getPlayer2 s)
     && negb (State.isGameActive s)
  then (Engine.Throws (Engine.TypeError "state.getCurrentWord is not a function"),
        State.setCurrentPlayer (State.getPlayer1 s) (State.setGameActive true s))
  else (Engine.Returns None, s).
Proof.
  unfold Engine._startGameIfReady. destruct (_ && _); reflexivity.
Qed.

Lemma startGameIfReady_same_seats (s : State.t) :
  same_seats s (snd (Engine._startGameIfReady s)).
Proof.
  rewrite startGameIfReady_eq. destruct (_ && _); cbn; repeat split.
Qed.

Lemma engine_addPlayer_eq (id : SocketId) (s : State.t) :
  let r := if negb (truthy (State.getPlayer1 s)) then Player1
           else if negb (truthy (State.getPlayer2 s)) then Player2
           else Spectator in
  Engine.addPlayer id s =
  (match fst (Engine._startGameIfReady (seat id r s)) with
   | Engine.Throws e => Engine.Throws e
   | Engine.Returns started =>
       Engine.Returns
         (Engine.mkAddResult r
            (match started with Some _ => true | None => false end) started)
   end,
   snd (Engine._startGameIfReady (seat id r s))).
Proof.
  unfold Engine.addPlayer, seat.
  destruct (negb (truthy (State.getPlayer1 s))).
  - destruct (Engine._startGameIfReady _) as [g s2]. reflexivity.
  - destruct (negb (truthy (State.getPlayer2 s))).
    + destruct (Engine._startGameIfReady _) as [g s2]. reflexivity.
    + destruct (Engine._startGameIfReady _) as [g s2]. reflexivity.
Qed.

(** On the worlds the server can be in, the role [addPlayer] picks from the
    slot variables is the one the connection handler picks. *)
Lemma engine_role_is_assigned_role (w : World) :
  slots_agree (state w) ->
  (if negb (truthy (State.getPlayer1 (state w))) then Player1
   else if negb (truthy (State.getPlayer2 (state w))) then Player2
   else Spectator) = assigned_role w.
Proof.
  intros Hs. destruct (slots_agree_full _ Hs) as (_ & _ & Hfree).
  unfold assigned_role, slot_count.
  destruct (truthy (State.getPlayer1 (state w))) eqn:T1.
  - destruct (truthy (State.getPlayer2 (state w))) eqn:T2.
    + rewrite !andb_false_r. reflexivity.
    + assert (Hlt : length (slot_holders (State.getAllPlayerSockets (state w)))
                    < MAX_PLAYERS) by (apply Hfree; right; reflexivity).
      apply Nat.ltb_lt in Hlt. rewrite Hlt. reflexivity.
  - assert (Hlt : length (slot_holders (State.getAllPlayerSockets (state w)))
                  < MAX_PLAYERS) by (apply Hfree; left; reflexivity).
    apply Nat.ltb_lt in Hlt. rewrite Hlt. reflexivity.
Qed.

(** * Sequences of events with fresh connection ids *)

Lemma obj_get_delete_other {V : Type} (o : Obj V) (k k' : string) :
  k <> k' -> obj_get (obj_delete o k) k' = obj_get o k'.
Proof.
  intros Hne. induction o as [|[k0 v0] o IH]; simpl; [reflexivity|].
  destruct (String.eqb k0 k) eqn:E.
  - apply String.eqb_eq in E. subst k0.
    destruct (String.eqb k k') eqn:E'; [|reflexivity].
    apply String.eqb_eq in E'. contradiction.
  - simpl. rewrite IH. reflexivity.
Qed.

Lemma obj_get_Some_key {V : Type} (o : Obj V) (k : string) (v : V) :
  obj_get o k = Some v -> In k (obj_keys o).
Proof. intros H. eapply In_obj_keys. apply obj_get_In. exact H. Qed.

Lemma obj_get_None_key {V : Type} (o : Obj V) (k : string) :
  obj_get o k = None -> ~ In k (obj_keys o).
Proof.
  unfold obj_keys. induction o as [|[k0 v0] o IH]; simpl; intros H.
  - intros [].
  - destruct (String.eqb k0 k) eqn:E; [discriminate|].
    apply String.eqb_neq in E. intros [Hk | Hk]; [contradiction|].
    apply (IH H). exact Hk.
Qed.

Lemma slots_exact_same_seats (s s' : State.t) :
  same_seats s s' -> slots_exact s -> slots_exact s'.
Proof.
  intros Hsame (Hs & H1 & H2).
  pose proof (slots_agree_same_seats s s' Hsame Hs) as Hs'.
  destruct Hsame as (Ht & E1 & E2).
  unfold slots_exact, State.getPlayerSocketInfo in *.
  unfold State.getAllPlayerSockets in Ht. rewrite Ht, E1, E2.
  split; [exact Hs' | split; assumption].
Qed.

Lemma seat_slots_exact (w : World) (id : SocketId) :
  id <> EmptyString ->
  State.getPlayerSocketInfo (state w) id = None ->
  slots_exact (state w) ->
  slots_exact (seat id (assigned_role w) (state w)).
Proof.
  intros Hid Hnew (Hs & H1 & H2).
  destruct (assigned_role_free_slot w) as [F1 F2].
  split; [apply seat_slots_agree; assumption|].
  apply truthy_string_neq in Hid.
  assert (Hother : forall a q,
            State.getPlayerSocketInfo (state w) a = Some q ->
            obj_get (obj_set (State._playerSockets (state w)) id
                       (mkPlayerInfo id (assigned_role w))) a = Some q).
  { intros a q Ha. rewrite obj_get_set_other; [exact Ha|].
    intros ->. unfold State.getPlayerSocketInfo in *. congruence. }
  unfold seat, State.addPlayerSocket, State.getPlayerSocketInfo,
    State.getPlayer1, State.getPlayer2 in *.
  rewrite Hid.
  destruct (assigned_role w) eqn:Hr;
    cbn [State._playerSockets State._player1 State._player2
         State.with_playerSockets State.setPlayer1 State.setPlayer2].
  - split.
    + intros a Ha. injection Ha as <-. apply obj_get_set_same.
    + intros b Hb. apply Hother. apply H2. exact Hb.
  - split.
    + intros a Ha. apply Hother. apply H1. exact Ha.
    + intros b Hb. injection Hb as <-. apply obj_get_set_same.
  - split.
    + intros a Ha. apply Hother. apply H1. exact Ha.
    + intros b Hb. apply Hother. apply H2. exact Hb.
Qed.

Lemma vacate_slots_exact (s : State.t) (id : SocketId) (p : PlayerInfo) :
  State.getPlayerSocketInfo s id = Some p ->
  slots_exact s -> slots_exact (vacate p id s).
Proof.
  intros Hget (Hs & H1 & H2).
  split; [apply vacate_slots_agree; assumption|].
  unfold State.getPlayerSocketInfo.
  change (State._playerSockets (vacate p id s))
    with (State.getAllPlayerSockets (vacate p id s)).
  rewrite (vacate_table s id p Hget), vacate_player1, vacate_player2.
  split.
  - intros a Ha. destruct (role_eqb (pi_role p) Player1) eqn:E; [discriminate|].
    specialize (H1 a Ha). rewrite obj_get_delete_other; [exact H1|].
    intros ->. unfold State.getPlayerSocketInfo in *. rewrite Hget in H1.
    injection H1 as ->. discriminate.
  - intros b Hb. destruct (role_eqb (pi_role p) Player2) eqn:E; [discriminate|].
    specialize (H2 b Hb). rewrite obj_get_delete_other; [exact H2|].
    intros ->. unfold State.getPlayerSocketInfo in *. rewrite Hget in H2.
    injection H2 as ->. discriminate.
Qed.

Lemma step_slots_exact (w : World) (ev : Event) :
  match ev with
  | Connect id _ =>
      id <> EmptyString /\ State.getPlayerSocketInfo (state w) id = None
  | _ => True
  end ->
  slots_exact (state w) -> slots_exact (state (fst (step w ev))).
Proof.
  intros Hfresh Hs.
  destruct ev as [id pick | id | id payload | id | k r pick].
  - destruct Hfresh as [Hid Hnew].
    unfold step, handle. rewrite on_connection_eq. cbv zeta. cbn [fst].
    eapply slots_exact_same_seats; [apply checkStart_same_seats|].
    cbn [state with_state]. apply seat_slots_exact; assumption.
  - unfold step, handle.
    destruct (State.getPlayerSocketInfo (state w) id) as [p|] eqn:Hp.
    + rewrite (on_disconnect_known w id p Hp). cbv zeta.
      pose proof (vacate_slots_exact (state w) id p Hp Hs) as Hv.
      destruct (_ && _); cbn [fst]; [|exact Hv].
      eapply slots_exact_same_seats; [apply endGame_same_seats|]. exact Hv.
    + rewrite (on_disconnect_unknown w id Hp). exact Hs.
  - eapply slots_exact_same_seats; [apply submit_same_seats | exact Hs].
  - cbn. split; [|split; intros ? H; discriminate].
    repeat split; [constructor | intros [] | destruct H | destruct H].
  - eapply slots_exact_same_seats; [apply settle_same_seats | exact Hs].
Qed.

Lemma run_slots_exact (es : list Event) (w : World) :
  connects_fresh w es -> slots_exact (state w) ->
  slots_exact (state (fst (run w es))) /\
  (seated_when_active w -> seated_when_active (fst (run w es))).
Proof.
  revert w. induction es as [|e es IH]; intros w Hf Hs.
  - split; [exact Hs | intros H; exact H].
  - simpl in Hf. destruct Hf as [He Hrest]. simpl.
    pose proof (step_slots_exact w e He Hs) as Hs1.
    pose proof (step_seated_when_active w e (proj1 Hs)) as Hw1.
    destruct (step w e) as [w1 o1]. cbn [fst] in *.
    destruct (IH w1 Hrest Hs1) as [Hs2 Hw2].
    destruct (run w1 es) as [w2 o2]. cbn [fst] in *.
    split; [exact Hs2 | intros Hw; apply Hw2; apply Hw1; exact Hw].
Qed.

Lemma initial_slots_exact : slots_exact (state initial).
Proof.
  split; [apply initial_slots_agree | split; intros ? H; discriminate].
Qed.

Lemma with_role_nonempty (r : Role) (o : Obj PlayerInfo) (id : SocketId)
    (p : PlayerInfo) :
  In (id, p) o -> pi_role p = r -> with_role r o <> [].
Proof.
  unfold with_role, obj_values. intros Hin Hr Hnil.
  assert (Hp : In p (filter (fun q => role_eqb (pi_role q) r) (map snd o))).
  { apply filter_In. split.
    - apply in_map_iff. exists (id, p). split; [reflexivity | exact Hin].
    - apply role_eqb_eq. exact Hr. }
  rewrite Hnil in Hp. contradiction.
Qed.

(** X16: when every connection comes with a new, non-empty id, a round is
    active only while exactly two participants hold slots: the socket in the
    Player 1 slot and the socket in the Player 2 slot, which are different
    and both in the role table with their role. *)
Theorem active_round_has_two_players (es : list Event) :
  connects_fresh initial es ->
  State.isGameActive (state (fst (run initial es))) = true ->
  slot_count (fst (run initial es)) = MAX_PLAYERS /\
  exists a b,
    a <> b /\
    State.getPlayer1 (state (fst (run initial es))) = Some a /\
    State.getPlayer2 (state (fst (run initial es))) = Some b /\
    State.getPlayerSocketInfo (state (fst (run initial es))) a
      = Some (mkPlayerInfo a Player1) /\
    State.getPlayerSocketInfo (state (fst (run initial es))) b
      = Some (mkPlayerInfo b Player2).
Proof.
  intros Hf Ha. set (w := fst (run initial es)) in *.
  destruct (run_slots_exact es initial Hf initial_slots_exact) as [Hx Hseat].
  fold w in Hx, Hseat.
  assert (Hw : seated_when_active w) by (apply Hseat; intros H; discriminate).
  destruct (Hw Ha) as [T1 T2].
  destruct (truthy_Some _ T1) as (a & E1 & _), (truthy_Some _ T2) as (b & E2 & _).
  destruct Hx as (Hs & X1 & X2).
  pose proof (X1 a E1) as G1. pose proof (X2 b E2) as G2.
  split.
  - destruct (slots_agree_counts _ Hs) as (L1 & L2 & _ & _).
    unfold slot_count. rewrite slot_holders_by_role.
    pose proof (with_role_nonempty Player1 _ a _ (obj_get_In _ _ _ G1) eq_refl) as N1.
    pose proof (with_role_nonempty Player2 _ b _ (obj_get_In _ _ _ G2) eq_refl) as N2.
    unfold State.getAllPlayerSockets in *.
    destruct (with_role Player1 (State._playerSockets (state w))); [contradiction|].
    destruct (with_role Player2 (State._playerSockets (state w))); [contradiction|].
    unfold MAX_PLAYERS. simpl in *. lia.
  - exists a, b. repeat split; try assumption.
    intros ->. rewrite G1 in G2. discriminate.
Qed.

Lemma active_round_has_two_players_witness :
  slot_count (fst (run initial round_started)) = MAX_PLAYERS /\
  exists a b,
    a <> b /\
    State.getPlayer1 (state (fst (run initial round_started))) = Some a /\
    State.getPlayer2 (state (fst (run initial round_started))) = Some b /\
    State.getPlayerSocketInfo (state (fst (run initial round_started))) a
      = Some (mkPlayerInfo a Player1) /\
    State.getPlayerSocketInfo (state (fst (run initial round_started))) b
      = Some (mkPlayerInfo b Player2).
Proof.
  apply (active_round_has_two_players round_started).
  - vm_compute. repeat split; discriminate.
  - reflexivity.
Defined.

Lemma removePlayerSocket_same_seats (id : SocketId) (s s' : State.t) :
  same_seats s s' ->
  same_seats (State.removePlayerSocket id s) (State.removePlayerSocket id s').
Proof.
  intros (Ht & E1 & E2). unfold State.removePlayerSocket.
  unfold State.getAllPlayerSockets, State.getPlayer1, State.getPlayer2 in *.
  rewrite Ht.
  destruct (obj_get (State._playerSockets s) id); cbn; repeat split;
    try assumption; rewrite Ht; reflexivity.
Qed.

Lemma same_socket_refl (id : SocketId) : Engine.same_socket id (Some id) = true.
Proof. cbn. apply String.eqb_refl. Qed.

(** X15: when every connection comes with a new, non-empty id,
    [removePlayer] of engine.js leaves the same role table and slot
    variables as the disconnect handler's clean-up, although it finds the
    slot by the id and the handler by the role; it reports the game as ended
    exactly when the leaver holds a slot and the game is active, and then
    the game is no longer active. *)
Theorem engine_removes_like_the_handler (es : list Event) (id : SocketId)
    (p : PlayerInfo) :
  connects_fresh initial es ->
  State.getPlayerSocketInfo (state (fst (run initial es))) id = Some p ->
  same_seats (vacate p id (state (fst (run initial es))))
    (snd (Engine.removePlayer id (state (fst (run initial es))))) /\
  Engine.gameEnded (fst (Engine.removePlayer id (state (fst (run initial es)))))
    = negb (role_eqb (pi_role p) Spectator)
      && State.isGameActive (state (fst (run initial es))) /\
  State.isGameActive (snd (Engine.removePlayer id (state (fst (run initial es)))))
    = role_eqb (pi_role p) Spectator
      && State.isGameActive (state (fst (run initial es))).
Proof.
  intros Hf Hp. set (s := state (fst (run initial es))) in *.
  destruct (run_slots_exact es initial Hf initial_slots_exact) as [Hx _].
  fold s in Hx. destruct Hx as ((_ & _ & Hag) & X1 & X2).
  destruct (Hag id p (obj_get_In _ _ _ Hp)) as [A1 A2].
  unfold Engine.removePlayer. rewrite Hp.
  destruct (pi_role p) eqn:Hr; cbn [role_eqb negb andb].
  - rewrite (A1 eq_refl). rewrite same_socket_refl.
    unfold vacate. rewrite Hr. cbn [role_eqb]. cbn [fst snd Engine.gameEnded].
    split; [|split].
    + apply removePlayerSocket_same_seats.
      destruct (State.isGameActive s); repeat split.
    + reflexivity.
    + unfold State.removePlayerSocket, Engine._endGame.
      destruct (State.isGameActive s) eqn:Ha; cbn;
        destruct (obj_get (State._playerSockets s) id); cbn;
        try reflexivity; exact Ha.
  - assert (N1 : Engine.same_socket id (State.getPlayer1 s) = false).
    { destruct (State.getPlayer1 s) as [a|] eqn:E1; [|reflexivity].
      cbn. apply String.eqb_neq. intros ->.
      rewrite (X1 a eq_refl) in Hp. injection Hp as <-. discriminate. }
    rewrite N1. rewrite (A2 eq_refl). rewrite same_socket_refl.
    unfold vacate. rewrite Hr. cbn [role_eqb]. cbn [fst snd Engine.gameEnded].
    split; [|split].
    + apply removePlayerSocket_same_seats.
      destruct (State.isGameActive s); repeat split.
    + reflexivity.
    + unfold State.removePlayerSocket, Engine._endGame.
      destruct (State.isGameActive s) eqn:Ha; cbn;
        destruct (obj_get (State._playerSockets s) id); cbn;
        try reflexivity; exact Ha.
  - unfold vacate. rewrite Hr. cbn [role_eqb fst snd Engine.gameEnded].
    split; [apply same_seats_refl | split; [reflexivity|]].
    unfold State.removePlayerSocket.
    destruct (obj_get (State._playerSockets s) id); reflexivity.
Qed.

Lemma engine_removes_like_the_handler_witness :
  same_seats
    (vacate (mkPlayerInfo socket_B Player2) socket_B
       (state (fst (run initial round_started))))
    (snd (Engine.removePlayer socket_B (state (fst (run initial round_started))))) /\
  Engine.gameEnded
    (fst (Engine.removePlayer socket_B (state (fst (run initial round_started)))))
    = negb (role_eqb (pi_role (mkPlayerInfo socket_B Player2)) Spectator)
      && State.isGameActive (state (fst (run initial round_started))) /\
  State.isGameActive
    (snd (Engine.removePlayer socket_B (state (fst (run initial round_started)))))
    = role_eqb (pi_role (mkPlayerInfo socket_B Player2)) Spectator
      && State.isGameActive (state (fst (run initial round_started))).
Proof.
  apply (engine_removes_like_the_handler round_started socket_B
           (mkPlayerInfo socket_B Player2)).
  - vm_compute. repeat split; discriminate.
  - reflexivity.
Defined.

(** * Adding a participant with engine.js *)

(** With the seating exact, both slot variables hold an id exactly when two
    table entries have a slot role. *)
Lemma both_slots_iff_full (s : State.t) :
  slots_exact s ->
  truthy (State.getPlayer1 s) && truthy (State.getPlayer2 s)
  = (length (slot_holders (State.getAllPlayerSockets s)) =? MAX_PLAYERS).
Proof.
  intros (Hs & X1 & X2).
  destruct (slots_agree_full _ Hs) as (Hle & Hfull & Hfree).
  destruct (Nat.eqb_spec (length (slot_holders (State.getAllPlayerSockets s)))
              MAX_PLAYERS) as [E | E].
  - destruct (Hfull E) as [T1 T2]. rewrite T1, T2. reflexivity.
  - destruct (truthy (State.getPlayer1 s)) eqn:T1; [|reflexivity].
    destruct (truthy (State.getPlayer2 s)) eqn:T2; [|reflexivity].
    exfalso. apply E.
    destruct (slots_agree_counts _ Hs) as (L1 & L2 & _ & _).
    destruct (truthy_Some _ T1) as (a & E1 & _).
    destruct (truthy_Some _ T2) as (b & E2 & _).
    pose proof (X1 a E1) as G1. pose proof (X2 b E2) as G2.
    pose proof (with_role_nonempty Player1 _ a _ (obj_get_In _ _ _ G1) eq_refl) as N1.
    pose proof (with_role_nonempty Player2 _ b _ (obj_get_In _ _ _ G2) eq_refl) as N2.
    rewrite slot_holders_by_role.
    unfold State.getAllPlayerSockets in *.
    destruct (with_role Player1 (State._playerSockets s)); [contradiction|].
    destruct (with_role Player2 (State._playerSockets s)); [contradiction|].
    unfold MAX_PLAYERS. simpl in *. lia.
Qed.

(** The connection handler issues a request exactly when it starts a
    round. *)
Lemma connection_requests_iff_start (w : World) (id : SocketId) (pick : nat) :
  existsb is_http (snd (step w (Connect id pick)))
  = (slot_count (with_state (seat id (assigned_role w)) w) =? MAX_PLAYERS)
    && negb (State.isGameActive (state w)).
Proof.
  unfold step, handle. rewrite on_connection_eq. cbv zeta. cbn [snd existsb is_http orb].
  set (w1 := with_state (seat id (assigned_role w)) w).
  assert (Ha1 : State.isGameActive (state w1) = State.isGameActive (state w)).
  { unfold w1. cbn. apply seat_isGameActive. }
  rewrite checkStart_eq. rewrite Ha1.
  destruct ((slot_count w1 =? MAX_PLAYERS) && negb (State.isGameActive (state w))).
  - destruct (startGame_request w1 pick) as [Hreq | (t & _ & Hreq)];
      rewrite Hreq; reflexivity.
  - destruct ((slot_count w1 <? MAX_PLAYERS) && negb (role_eqb (assigned_role w) Spectator));
      [reflexivity|].
    destruct (role_eqb (assigned_role w) Spectator); [|reflexivity].
    destruct (State.isGameActive (state w)); reflexivity.
Qed.

(** X14: when every connection comes with a new, non-empty id, [addPlayer]
    of engine.js leaves the same role table and slot variables as the
    connection handler.  If the handler does not start a round on this
    connection, [addPlayer] returns the role the handler assigns, with
    [gameStarted] false, and leaves the active flag as it is.  If the
    handler starts a round, [addPlayer] does not return: it sets the active
    flag and then throws the [TypeError] of the call of
    [state.getCurrentWord], which state.js does not define. *)
Theorem engine_assigns_the_handler_role (es : list Event) (id : SocketId)
    (pick : nat) :
  connects_fresh initial es ->
  id <> EmptyString ->
  State.getPlayerSocketInfo (state (fst (run initial es))) id = None ->
  same_seats
    (seat id (assigned_role (fst (run initial es))) (state (fst (run initial es))))
    (snd (Engine.addPlayer id (state (fst (run initial es))))) /\
  ((existsb is_http (snd (step (fst (run initial es)) (Connect id pick))) = false /\
    fst (Engine.addPlayer id (state (fst (run initial es))))
      = Engine.Returns
          (Engine.mkAddResult (assigned_role (fst (run initial es))) false None) /\
    State.isGameActive (snd (Engine.addPlayer id (state (fst (run initial es)))))
      = State.isGameActive (state (fst (run initial es))))
   \/
   (existsb is_http (snd (step (fst (run initial es)) (Connect id pick))) = true /\
    fst (Engine.addPlayer id (state (fst (run initial es))))
      = Engine.Throws (Engine.TypeError "state.getCurrentWord is not a function") /\
    State.isGameActive (snd (Engine.addPlayer id (state (fst (run initial es)))))
      = true)).
Proof.
  set (w := fst (run initial es)). intros Hf Hid Hnew.
  destruct (run_slots_exact es initial Hf initial_slots_exact) as [Hx _].
  fold w in Hx.
  pose proof (seat_slots_exact w id Hid Hnew Hx) as Hx1.
  pose proof (engine_addPlayer_eq id (state w)) as Heq. cbv zeta in Heq.
  rewrite (engine_role_is_assigned_role w (proj1 Hx)) in Heq.
  rewrite Heq. clear Heq. cbn [fst snd].
  split; [apply startGameIfReady_same_seats|].
  rewrite connection_requests_iff_start.
  rewrite startGameIfReady_eq.
  rewrite (both_slots_iff_full _ Hx1).
  change (length (slot_holders
                    (State.getAllPlayerSockets (seat id (assigned_role w) (state w)))))
    with (slot_count (with_state (seat id (assigned_role w)) w)).
  rewrite (seat_isGameActive id (assigned_role w) (state w)).
  destruct ((slot_count (with_state (seat id (assigned_role w)) w) =? MAX_PLAYERS)
            && negb (State.isGameActive (state w))).
  - right. cbn [fst snd]. repeat split.
  - left. cbn [fst snd]. repeat split. apply seat_isGameActive.
Qed.

Lemma engine_assigns_the_handler_role_witness :
  existsb is_http
    (snd (step (fst (run initial [Connect socket_A 0])) (Connect socket_B 0)))
    = true /\
  fst (Engine.addPlayer socket_B (state (fst (run initial [Connect socket_A 0]))))
    = Engine.Throws (Engine.TypeError "state.getCurrentWord is not a function") /\
  State.isGameActive
    (snd (Engine.addPlayer socket_B (state (fst (run initial [Connect socket_A 0])))))
    = true.
Proof.
  assert (Hf : connects_fresh initial [Connect socket_A 0])
    by (vm_compute; repeat split; discriminate).
  assert (Hid : socket_B <> EmptyString) by discriminate.
  assert (Hnew : State.getPlayerSocketInfo
                   (state (fst (run initial [Connect socket_A 0]))) socket_B = None)
    by reflexivity.
  destruct (engine_assigns_the_handler_role [Connect socket_A 0] socket_B 0
              Hf Hid Hnew) as [_ [(Hno & _) | Hthrows]].
  - vm_compute in Hno. discriminate.
  - exact Hthrows.
Defined.




(** * Finalization in particular situations *)

Lemma endGame_visit_winner (st st' : State.t) (subs : Obj Submission)
    (winnerId : option SocketId) (bestScore : Num) (rows rows' : list ResultRow)
    (id : SocketId) :
  fst (endGame_visit st subs (winnerId, bestScore, rows) id)
  = fst (endGame_visit st' subs (winnerId, bestScore, rows') id).
Proof.
  unfold endGame_visit.
  destruct (obj_get subs id) as [[e [x|]]|]; [|reflexivity|reflexivity].
  destruct (num_gtb x bestScore); reflexivity.
Qed.

Lemma tally_winner_fold (st st' : State.t) (subs : Obj Submission)
    (ks : list SocketId) (winnerId : option SocketId) (bestScore : Num)
    (rows rows' : list ResultRow) :
  fst (fold_left (endGame_visit st subs) ks (winnerId, bestScore, rows))
  = fst (fold_left (endGame_visit st' subs) ks (winnerId, bestScore, rows')).
Proof.
  revert winnerId bestScore rows rows'.
  induction ks as [|k ks IH]; intros winnerId bestScore rows rows'.
  - reflexivity.
  - cbn [fold_left].
    pose proof (endGame_visit_winner st st' subs winnerId bestScore rows rows' k) as H.
    destruct (endGame_visit st subs (winnerId, bestScore, rows) k) as [[w1 b1] r1].
    destruct (endGame_visit st' subs (winnerId, bestScore, rows') k) as [[w2 b2] r2].
    cbn in H. injection H as -> ->. apply IH.
Qed.

(** The winner the loop of [endGame] finds does not depend on the role
    table. *)
Lemma tally_winner_any_state (st st' : State.t) (subs : Obj Submission) :
  fst (fst (endGame_tally st subs)) = fst (fst (endGame_tally st' subs)).
Proof.
  unfold endGame_tally.
  rewrite (tally_winner_fold st st' subs (obj_keys subs) None NegInfinity [] []).
  reflexivity.
Qed.

(** X17: when the participant whose stored score ranks first disconnects
    while the round is active, the [game_over] that follows never names
    that participant as the winner.  If the target vector is present, the
    leaver is already gone from the role table when [endGame] runs, so the
    reason is the tie text, and the row of the leaver's submission carries
    the placeholder role built from the first four characters of its id.
    If the target vector is missing, the reason is the error text and no
    row is listed. *)
Theorem best_scorer_leaving_is_announced_as_tie (es : list Event)
    (id : SocketId) (p : PlayerInfo) :
  State.getPlayerSocketInfo (state (fst (run initial es))) id = Some p ->
  pi_role p <> Spectator ->
  State.isGameActive (state (fst (run initial es))) = true ->
  fst (fst (endGame_tally (state (fst (run initial es)))
              (playerSubmissions (fst (run initial es))))) = Some id ->
  (forall v, targetVector (fst (run initial es)) = Some v ->
   exists rows e x,
     snd (step (fst (run initial es)) (Disconnect id)) =
       [ToAll (player_left
                 (role_name (pi_role p) ++ " disconnected. Game over.")%string);
        ToAll (game_over "It's a tie or no valid scores!" rows
                 (Some (targetWord (fst (run initial es)))))] /\
     obj_get (playerSubmissions (fst (run initial es))) id
       = Some (mkSubmission e (Some x)) /\
     In (mkResultRow ("Player (" ++ substring 0 4 id ++ ")")%string e (ToFixed4 x))
        rows) /\
  (targetVector (fst (run initial es)) = None ->
   snd (step (fst (run initial es)) (Disconnect id)) =
     [ToAll (player_left
               (role_name (pi_role p) ++ " disconnected. Game over.")%string);
      ToAll (game_over "Error determining winner: Missing target vector." []
               None)]).
Proof.
  set (w := fst (run initial es)). intros Hp Hrole Ha Hwin.
  assert (Hs : slots_agree (state w))
    by (apply run_slots_agree; apply initial_slots_agree).
  unfold step, handle. rewrite (on_disconnect_known w id p Hp). cbv zeta.
  assert (Hcond : negb (role_eqb (pi_role p) Spectator)
                  && State.isGameActive (state w) = true).
  { rewrite Ha. destruct (pi_role p); try reflexivity. contradiction. }
  rewrite Hcond. cbn [snd].
  set (w1 := with_state (vacate p id) w).
  assert (Ha1 : State.isGameActive (state w1) = true).
  { unfold w1. cbn. rewrite vacate_isGameActive. exact Ha. }
  split; [|intros Hv; rewrite (endGame_missing_vector w1 Ha1 Hv); reflexivity].
  intros v Hv.
  assert (Hv1 : targetVector w1 = Some v) by exact Hv.
  rewrite (endGame_active w1 v Ha1 Hv1). cbv zeta.
  set (st1 := State.setGameActive false (state w1)).
  assert (Hgone : State.getPlayerSocketInfo st1 id = None).
  { unfold st1, w1, State.getPlayerSocketInfo. cbn [state with_state].
    change (State._playerSockets (State.setGameActive false ?s))
      with (State.getAllPlayerSockets s).
    rewrite (vacate_table _ _ _ Hp). apply obj_get_None.
    destruct Hs as (Hnd & _ & _).
    apply (obj_delete_NoDup (State._playerSockets (state w)) id Hnd). }
  assert (Hwin1 : fst (fst (endGame_tally st1 (playerSubmissions w1))) = Some id).
  { rewrite <- Hwin. apply tally_winner_any_state. }
  rewrite Hwin1.
  assert (Hid : truthy_string id = true).
  { apply truthy_string_neq. intros ->. destruct Hs as (_ & Hne & _).
    apply Hne. eapply obj_get_Some_key. exact Hp. }
  assert (Hmsg : endGame_winnerMsg st1 (Some id) = "It's a tie or no valid scores!").
  { unfold endGame_winnerMsg. rewrite Hid, Hgone. reflexivity. }
  rewrite Hmsg.
  destruct (endGame_tally_spec st1 (playerSubmissions w1)) as [Hmax Hrows].
  rewrite Hwin1 in Hmax. unfold first_maximum in Hmax.
  destruct Hmax as (before & after & x & Hkeys & Hscore & _).
  unfold score_of in Hscore.
  destruct (obj_get (playerSubmissions w1) id) as [[e sc]|] eqn:Hsub;
    [|discriminate].
  cbn in Hscore. subst sc.
  exists (snd (endGame_tally st1 (playerSubmissions w1))), e, x.
  split; [reflexivity|]. split; [exact Hsub|].
  rewrite Hrows.
  replace (mkResultRow ("Player (" ++ substring 0 4 id ++ ")")%string e (ToFixed4 x))
    with (row_of st1 (playerSubmissions w1) id)
    by (unfold row_of; rewrite Hgone, Hsub; reflexivity).
  apply in_map. rewrite Hkeys. apply in_or_app. right. left. reflexivity.
Qed.

Lemma best_scorer_leaving_is_announced_as_tie_witness :
  exists rows e x,
    snd (step A_has_submitted (Disconnect socket_A)) =
      [ToAll (player_left
                (role_name (pi_role (mkPlayerInfo socket_A Player1))
                   ++ " disconnected. Game over.")%string);
       ToAll (game_over "It's a tie or no valid scores!" rows
                (Some (targetWord A_has_submitted)))] /\
    obj_get (playerSubmissions A_has_submitted) socket_A
      = Some (mkSubmission e (Some x)) /\
    In (mkResultRow ("Player (" ++ substring 0 4 socket_A ++ ")")%string e
          (ToFixed4 x)) rows.
Proof.
  assert (Hp : State.getPlayerSocketInfo
                 (state (fst (run initial (round_started ++ A_submits_sea))))
                 socket_A = Some (mkPlayerInfo socket_A Player1)) by reflexivity.
  assert (Hrole : pi_role (mkPlayerInfo socket_A Player1) <> Spectator)
    by discriminate.
  assert (Ha : State.isGameActive
                 (state (fst (run initial (round_started ++ A_submits_sea))))
               = true) by reflexivity.
  assert (Hwin : fst (fst (endGame_tally
                             (state (fst (run initial (round_started ++ A_submits_sea))))
                             (playerSubmissions
                                (fst (run initial (round_started ++ A_submits_sea))))))
                 = Some socket_A) by reflexivity.
  apply (proj1 (best_scorer_leaving_is_announced_as_tie
                  (round_started ++ A_submits_sea) socket_A
                  (mkPlayerInfo socket_A Player1) Hp Hrole Ha Hwin)
           [Finite (1 # 2); Finite (1 # 4)]).
  reflexivity.
Defined.

(** X18: when every connection comes with a new, non-empty id and the round
    is active, the successful settlement of a compare request ends the
    round (a [game_over] is broadcast) exactly when, with the submission it
    stores, two submissions are stored. *)
Theorem round_ends_at_second_submission (es : list Event) (k : nat)
    (r : AxiosResult) (pick : nat) (playerId : SocketId)
    (playerInfo : PlayerInfo) (expr : string) (v : Vector) (x : Num) :
  connects_fresh initial es ->
  State.isGameActive (state (fst (run initial es))) = true ->
  nth_error (pending (fst (run initial es))) k
    = Some (Await_submit_compareToTarget playerId playerInfo expr v) ->
  fulfilled_similarity r = Some x ->
  (existsb is_game_over (snd (step (fst (run initial es)) (Settle k r pick))) = true
   <->
   length (obj_keys (obj_set (playerSubmissions (fst (run initial es))) playerId
                       (mkSubmission expr (Some x)))) = 2).
Proof.
  set (w := fst (run initial es)). intros Hf Ha Hk Hr.
  assert (Hcount : slot_count w = MAX_PLAYERS).
  { destruct (run_slots_exact es initial Hf initial_slots_exact) as [Hx Hseat].
    fold w in Hx, Hseat.
    assert (Hw : seated_when_active w) by (apply Hseat; intros H; discriminate).
    destruct (Hw Ha) as [T1 T2].
    destruct (truthy_Some _ T1) as (a & E1 & _), (truthy_Some _ T2) as (b & E2 & _).
    destruct Hx as (Hs & X1 & X2).
    pose proof (X1 a E1) as G1. pose proof (X2 b E2) as G2.
    destruct (slots_agree_counts _ Hs) as (L1 & L2 & _ & _).
    unfold slot_count. rewrite slot_holders_by_role.
    pose proof (with_role_nonempty Player1 _ a _ (obj_get_In _ _ _ G1) eq_refl) as N1.
    pose proof (with_role_nonempty Player2 _ b _ (obj_get_In _ _ _ G2) eq_refl) as N2.
    unfold State.getAllPlayerSockets in *.
    destruct (with_role Player1 (State._playerSockets (state w))); [contradiction|].
    destruct (with_role Player2 (State._playerSockets (state w))); [contradiction|].
    unfold MAX_PLAYERS. simpl in *. lia. }
  rewrite (step_settle w k r pick _ Hk). cbn [resume].
  rewrite (compareToTarget_success _ _ _ _ _ x Hr).
  rewrite submit_store_eq. cbv zeta.
  change (slot_count (with_pending (remove_nth k (pending w)) w))
    with (slot_count w).
  rewrite Hcount. unfold MAX_PLAYERS.
  change (playerSubmissions
            (with_playerSubmissions
               (obj_set (playerSubmissions (with_pending (remove_nth k (pending w)) w))
                  playerId (mkSubmission expr (Some x)))
               (with_pending (remove_nth k (pending w)) w)))
    with (obj_set (playerSubmissions w) playerId (mkSubmission expr (Some x))).
  destruct (Nat.eqb_spec
              (length (obj_keys (obj_set (playerSubmissions w) playerId
                                   (mkSubmission expr (Some x))))) 2) as [E | E].
  - cbn [snd existsb is_game_over orb].
    rewrite endGame_emits_game_over_iff. cbn. rewrite Ha.
    split; [intros _; exact E | intros _; reflexivity].
  - cbn. split; [discriminate | intros H; contradiction].
Qed.

Lemma round_ends_at_second_submission_witness :
  existsb is_game_over
    (snd (step (fst (run initial
                       (round_started ++ A_submits_sea
                          ++ [SubmitExpression socket_B (Some "rock");
                              Settle 0 vector_ok 0])))
               (Settle 0 (similarity_ok (22 # 100)) 0))) = true
  <->
  length (obj_keys
            (obj_set
               (playerSubmissions
                  (fst (run initial
                          (round_started ++ A_submits_sea
                             ++ [SubmitExpression socket_B (Some "rock");
                                 Settle 0 vector_ok 0]))))
               socket_B (mkSubmission "rock" (Some (Finite (22 # 100)))))) = 2.
Proof.
  apply (round_ends_at_second_submission
           (round_started ++ A_submits_sea
              ++ [SubmitExpression socket_B (Some "rock"); Settle 0 vector_ok 0])
           0 (similarity_ok (22 # 100)) 0 socket_B
           (mkPlayerInfo socket_B Player2) "rock"
           [Finite (1 # 2); Finite (1 # 4)] (Finite (22 # 100))).
  - vm_compute. repeat split; discriminate.
  - reflexivity.
  - reflexivity.
  - reflexivity.
Defined.
